(** * Request keys of crawlee: [crawlee/_utils/requests.py]

    A shallow embedding of the three functions of the module,
    [unique_key_to_request_id], [normalize_url] and [compute_unique_key],
    together with the parts of the Python runtime they call
    ([str] methods, the UTF-8 codec, [hashlib.sha256], [base64.b64encode]
    and [urllib.parse] as of CPython 3.11), followed by the properties
    proved about them.

    Conventions.
    - A Python [str] is the list of its code points ([list N]); a [bytes]
      object is a [list byte].
    - A call that can raise returns a [result]: [Ok v] or [Raise e].
    - Text literals are written [py "..."]. *)

From Stdlib Require Import NArith ZArith Lia Bool.
From Stdlib.Strings Require Import Ascii String Byte.
From stdpp Require Import base option list gmap sorting.

#[local] Open Scope N_scope.

(** ** Results of calls that may raise *)

Inductive exception : Type :=
  | ValueError
  | UnicodeEncodeError
  | UnicodeDecodeError.

Inductive result (A : Type) : Type :=
  | Ok (a : A)
  | Raise (e : exception).
Arguments Ok {A} a.
Arguments Raise {A} e.

#[global] Instance result_ret : MRet result := fun A a => Ok a.
#[global] Instance result_bind : MBind result := fun A B f r =>
  match r with
  | Ok a => f a
  | Raise e => Raise e
  end.
#[global] Instance result_fmap : FMap result := fun A B f r =>
  match r with
  | Ok a => Ok (f a)
  | Raise e => Raise e
  end.

(** [for x in l: f x], where [f] may raise. *)
Fixpoint result_mapM {A B : Type} (f : A -> result B) (l : list A) : result (list B) :=
  match l with
  | [] => Ok []
  | x :: l' => y ← f x; ys ← result_mapM f l'; Ok (y :: ys)
  end.

(** ** Python values *)

Abbreviation str := (list N) (only parsing).
Abbreviation bytes := (list byte) (only parsing).

(** Code point of an ASCII character, and text literals. *)
Definition chr (a : ascii) : N := N_of_ascii a.
Definition py (s : string) : str := map N_of_ascii (list_ascii_of_string s).
#[global] Arguments chr : simpl never.
#[global] Arguments py : simpl never.

Definition byte_of (n : N) : byte :=
  match Byte.of_N (n mod 256) with
  | Some b => b
  | None => "000"%byte
  end.

(** Python's [bool(x)] for sequences and for [Optional] sequences. *)
Definition truthy {A : Type} (l : list A) : bool :=
  match l with
  | [] => false
  | _ :: _ => true
  end.

(** ** What the model takes from the interpreter without spelling it out

    The Unicode case mappings and normalisation forms ([unicodedata]) and the
    address parser of [ipaddress] are large tables and parsers of the Python
    runtime.  They are consulted on non-ASCII text and on bracketed hosts
    only; the model is parametric in them. *)

Inductive ip_version : Type := IPv4 | IPv6.

Class Runtime : Type := {
  (** [str.lower] at one non-ASCII code point, given the text before and
      after it (the final-sigma rule reads both). *)
  lower_full : str -> N -> str -> str;
  (** [str.upper] at one non-ASCII code point. *)
  upper_full : N -> str;
  (** [unicodedata.normalize('NFKC', s)] *)
  nfkc : str -> str;
  (** [ipaddress.ip_address(s)]: the kind of address, [None] for [ValueError]. *)
  ip_address : str -> option ip_version
}.

(** [crawlee._utils.crypto.compute_short_hash], which lives in another
    module of the package: an arbitrary function from bytes to text. *)
Class ShortHash : Type := compute_short_hash : bytes -> str.

(** ** Builtin [str] methods used by the module *)
Module Py.

Definition eqb_str (a b : str) : bool := bool_decide (a = b).

(** [c in s] *)
Definition contains (c : N) (s : str) : bool := existsb (N.eqb c) s.

(** [s.find(c)], counted from the start of [s]; [None] stands for [-1]. *)
Fixpoint find (c : N) (s : str) : option nat :=
  match s with
  | [] => None
  | x :: s' => if x =? c then Some 0%nat else S <$> find c s'
  end.

(** [s.find(c, start)]: the index is still counted from the start of [s]. *)
Definition find_from (c : N) (start : nat) (s : str) : option nat :=
  (fun i => (start + i)%nat) <$> find c (drop start s).

(** [s.rfind(c)] *)
Fixpoint rfind (c : N) (s : str) : option nat :=
  match s with
  | [] => None
  | x :: s' =>
      match rfind c s' with
      | Some i => Some (S i)
      | None => if x =? c then Some 0%nat else None
      end
  end.

(** [s.split(c, 1)] when [c in s]: the text before and after the first [c]. *)
Definition split_once (c : N) (s : str) : option (str * str) :=
  (fun i => (take i s, drop (S i) s)) <$> find c s.

(** [s.split(c)]: never empty. *)
Fixpoint split (c : N) (s : str) : list str :=
  match s with
  | [] => [[]]
  | x :: s' =>
      if x =? c then [] :: split c s'
      else match split c s' with
           | w :: ws => (x :: w) :: ws
           | [] => [[x]]
           end
  end.

(** [sep.join(parts)] *)
Fixpoint join (sep : str) (parts : list str) : str :=
  match parts with
  | [] => []
  | [p] => p
  | p :: ps => p ++ sep ++ join sep ps
  end.

(** [s.replace(c, "")] and [s.replace(a, b)] for single characters. *)
Definition remove (c : N) (s : str) : str := filter (fun x => x ≠ c) s.
Definition replace (a b : N) (s : str) : str :=
  map (fun x => if x =? a then b else x) s.

(** [s.lstrip(chars)], [s.rstrip(chars)], [s.strip(chars)] for a set of
    characters given by its membership test. *)
Fixpoint lstrip (p : N -> bool) (s : str) : str :=
  match s with
  | [] => []
  | x :: s' => if p x then lstrip p s' else s
  end.
Definition rstrip (p : N -> bool) (s : str) : str := rev (lstrip p (rev s)).
(** The longest prefix of [s] made of characters of the set. *)
Fixpoint leading (p : N -> bool) (s : str) : str :=
  match s with
  | [] => []
  | x :: s' => if p x then x :: leading p s' else []
  end.
Definition strip (p : N -> bool) (s : str) : str := rstrip p (lstrip p s).

(** [str.isspace] on one code point: the characters removed by a bare
    [s.strip()] (bidirectional type WS, B or S, or category Zs). *)
Definition isspace (c : N) : bool :=
  ((0x09 <=? c) && (c <=? 0x0D)) || ((0x1C <=? c) && (c <=? 0x20))
  || (c =? 0x85) || (c =? 0xA0) || (c =? 0x1680)
  || ((0x2000 <=? c) && (c <=? 0x200A))
  || (c =? 0x2028) || (c =? 0x2029) || (c =? 0x202F) || (c =? 0x205F)
  || (c =? 0x3000).

(** [s.startswith(prefix)] *)
Fixpoint startswith (prefix s : str) : bool :=
  match prefix, s with
  | [], _ => true
  | _ :: _, [] => false
  | a :: prefix', b :: s' => (a =? b) && startswith prefix' s'
  end.

(** [s[:n]] for an [int] [n]: a negative bound counts from the end. *)
Definition slice_to {A : Type} (n : Z) (s : list A) : list A :=
  if (0 <=? n)%Z then take (Z.to_nat n) s
  else take (length s - Z.to_nat (- n)) s.

Definition is_ascii (s : str) : bool := forallb (fun c => c <? 128) s.
Definition is_upper_ascii (c : N) : bool := (0x41 <=? c) && (c <=? 0x5A).
Definition is_lower_ascii (c : N) : bool := (0x61 <=? c) && (c <=? 0x7A).
Definition is_alpha_ascii (c : N) : bool := is_upper_ascii c || is_lower_ascii c.
Definition is_digit_ascii (c : N) : bool := (0x30 <=? c) && (c <=? 0x39).
Definition lower_ascii (c : N) : N := if is_upper_ascii c then c + 32 else c.
Definition upper_ascii (c : N) : N := if is_lower_ascii c then c - 32 else c.

Section CaseMapping.
Context `{Runtime}.

Fixpoint lower_from (before s : str) : str :=
  match s with
  | [] => []
  | c :: rest =>
      (if c <? 128 then [lower_ascii c] else lower_full before c rest)
        ++ lower_from (before ++ [c]) rest
  end.

(** [s.lower()] *)
Definition lower (s : str) : str := lower_from [] s.

(** [s.upper()] *)
Definition upper (s : str) : str :=
  flat_map (fun c => if c <? 128 then [upper_ascii c] else upper_full c) s.
End CaseMapping.

End Py.

(** ** The UTF-8 codec *)
Module Utf8.

(** [chr(c).encode('utf-8')] with the default [errors='strict']: lone
    surrogates are refused.  Values from 0x110000 on are no code points
    and occur in no [str]; they are refused as well. *)
Definition encode_char (c : N) : result bytes :=
  if c <? 0x80 then Ok [byte_of c]
  else if c <? 0x800 then
    Ok [byte_of (0xC0 + c / 64); byte_of (0x80 + c mod 64)]
  else if c <? 0x10000 then
    if (0xD800 <=? c) && (c <=? 0xDFFF) then Raise UnicodeEncodeError
    else Ok [byte_of (0xE0 + c / 4096); byte_of (0x80 + (c / 64) mod 64);
             byte_of (0x80 + c mod 64)]
  else if c <? 0x110000 then
    Ok [byte_of (0xF0 + c / 262144); byte_of (0x80 + (c / 4096) mod 64);
        byte_of (0x80 + (c / 64) mod 64); byte_of (0x80 + c mod 64)]
  else Raise UnicodeEncodeError.

(** [s.encode('utf-8')] *)
Definition encode (s : str) : result bytes :=
  encoded ← result_mapM encode_char s; Ok (concat encoded).

(** One step of the decoder's output: a character, or one malformed
    subpart of the input (replaced or reported, by the error handler). *)
Inductive item : Type :=
  | Char (c : N)
  | Malformed.

Definition is_cont (b : N) : bool := (0x80 <=? b) && (b <=? 0xBF).

(** Second byte of a three-byte and of a four-byte sequence. *)
Definition second_of3 (b0 b1 : N) : bool :=
  is_cont b1 && negb (if b1 <? 0xA0 then b0 =? 0xE0 else b0 =? 0xED).
Definition second_of4 (b0 b1 : N) : bool :=
  is_cont b1 && negb (if b1 <? 0x90 then b0 =? 0xF0 else b0 =? 0xF4).

(** The scan of CPython's decoder ([utf8_decode] and its caller): an
    invalid start byte is one malformed subpart, an invalid continuation
    byte ends the subpart before it, and a sequence cut short by the end
    of the input is one subpart. *)
Fixpoint scan (bs : list N) : list item :=
  match bs with
  | [] => []
  | b0 :: r0 =>
      if b0 <? 0x80 then Char b0 :: scan r0
      else if b0 <? 0xC2 then Malformed :: scan r0
      else if b0 <? 0xE0 then
        match r0 with
        | [] => [Malformed]
        | b1 :: r1 =>
            if is_cont b1
            then Char ((b0 - 0xC0) * 64 + (b1 - 0x80)) :: scan r1
            else Malformed :: scan r0
        end
      else if b0 <? 0xF0 then
        match r0 with
        | [] => [Malformed]
        | b1 :: r1 =>
            if second_of3 b0 b1 then
              match r1 with
              | [] => [Malformed]
              | b2 :: r2 =>
                  if is_cont b2
                  then Char ((b0 - 0xE0) * 4096 + (b1 - 0x80) * 64 + (b2 - 0x80))
                         :: scan r2
                  else Malformed :: scan r1
              end
            else Malformed :: scan r0
        end
      else if b0 <? 0xF5 then
        match r0 with
        | [] => [Malformed]
        | b1 :: r1 =>
            if second_of4 b0 b1 then
              match r1 with
              | [] => [Malformed]
              | b2 :: r2 =>
                  if is_cont b2 then
                    match r2 with
                    | [] => [Malformed]
                    | b3 :: r3 =>
                        if is_cont b3
                        then Char ((b0 - 0xF0) * 262144 + (b1 - 0x80) * 4096
                                   + (b2 - 0x80) * 64 + (b3 - 0x80)) :: scan r3
                        else Malformed :: scan r2
                    end
                  else Malformed :: scan r1
              end
            else Malformed :: scan r0
        end
      else Malformed :: scan r0
  end.

(** [bs.decode('utf-8', 'replace')] *)
Definition decode_replace (bs : bytes) : str :=
  map (fun it => match it with Char c => c | Malformed => 0xFFFD end)
      (scan (map Byte.to_N bs)).

(** [bs.decode('utf-8')] *)
Definition decode (bs : bytes) : result str :=
  result_mapM (fun it => match it with
                         | Char c => Ok c
                         | Malformed => Raise UnicodeDecodeError
                         end)
              (scan (map Byte.to_N bs)).

End Utf8.

(** ** [hashlib.sha256] (FIPS 180-4) on 32-bit words held in [N] *)
Module Sha256.

Definition add32 (a b : N) : N := (a + b) mod 2 ^ 32.
Definition rotr (n x : N) : N :=
  N.lor (N.shiftr x n) ((N.shiftl x (32 - n)) mod 2 ^ 32).
Definition shr (n x : N) : N := N.shiftr x n.
Definition not32 (x : N) : N := N.lxor x 0xFFFFFFFF.

Definition Ch (x y z : N) : N := N.lxor (N.land x y) (N.land (not32 x) z).
Definition Maj (x y z : N) : N :=
  N.lxor (N.lxor (N.land x y) (N.land x z)) (N.land y z).
Definition Sigma0 (x : N) : N := N.lxor (N.lxor (rotr 2 x) (rotr 13 x)) (rotr 22 x).
Definition Sigma1 (x : N) : N := N.lxor (N.lxor (rotr 6 x) (rotr 11 x)) (rotr 25 x).
Definition sigma0 (x : N) : N := N.lxor (N.lxor (rotr 7 x) (rotr 18 x)) (shr 3 x).
Definition sigma1 (x : N) : N := N.lxor (N.lxor (rotr 17 x) (rotr 19 x)) (shr 10 x).

(** The first 64 primes. *)
Definition primes : list N :=
  [2; 3; 5; 7; 11; 13; 17; 19; 23; 29; 31; 37; 41; 43; 47; 53; 59; 61; 67;
   71; 73; 79; 83; 89; 97; 101; 103; 107; 109; 113; 127; 131; 137; 139;
   149; 151; 157; 163; 167; 173; 179; 181; 191; 193; 197; 199; 211; 223;
   227; 229; 233; 239; 241; 251; 257; 263; 269; 271; 277; 281; 283; 293;
   307; 311].

(** Integer cube root below [2 ^ bits], one bit at a time. *)
Fixpoint cbrt_bits (bits : nat) (n r : N) : N :=
  match bits with
  | O => r
  | S b =>
      let r' := r + 2 ^ N.of_nat b in
      if r' * r' * r' <=? n then cbrt_bits b n r' else cbrt_bits b n r
  end.

(** The round constants: the first 32 bits of the fractional parts of the
    cube roots of the first 64 primes. *)
Definition K : list N :=
  (fun p => cbrt_bits 36 (p * 2 ^ 96) 0 mod 2 ^ 32) <$> primes.

(** The initial hash value: the first 32 bits of the fractional parts of
    the square roots of the first 8 primes. *)
Definition H0 : list N :=
  (fun p => N.sqrt (p * 2 ^ 64) mod 2 ^ 32) <$> take 8 primes.

(** Big-endian bytes of a word of [n] bytes. *)
Fixpoint be_bytes (n : nat) (x : N) : list N :=
  match n with
  | O => []
  | S n' => (x / 256 ^ N.of_nat n') mod 256 :: be_bytes n' x
  end.

Definition be_word (bs : list N) : N :=
  foldl (fun acc b => acc * 256 + b) 0 bs.

(** Padding: a 1 bit, zeros up to 56 bytes modulo 64, the bit length. *)
Definition pad (msg : list N) : list N :=
  let len := N.of_nat (length msg) in
  let zeros := N.to_nat ((119 - len mod 64) mod 64) in
  msg ++ [0x80] ++ replicate zeros 0 ++ be_bytes 8 (8 * len).

Fixpoint chunks {A : Type} (fuel size : nat) (l : list A) : list (list A) :=
  match fuel with
  | O => []
  | S fuel' =>
      match l with
      | [] => []
      | _ :: _ => take size l :: chunks fuel' size (drop size l)
      end
  end.

(** The message schedule, latest word first. *)
Fixpoint extend (n : nat) (w : list N) : list N :=
  match n with
  | O => w
  | S n' =>
      let wt := add32 (add32 (sigma1 (nth 1 w 0)) (nth 6 w 0))
                      (add32 (sigma0 (nth 14 w 0)) (nth 15 w 0)) in
      extend n' (wt :: w)
  end.

Definition schedule (block : list N) : list N :=
  rev (extend 48 (rev (be_word <$> chunks 16 4 block))).

Definition round (s : list N) (kw : N * N) : list N :=
  match s with
  | [a; b; c; d; e; f; g; h] =>
      let t1 := add32 (add32 (add32 h (Sigma1 e)) (add32 (Ch e f g) kw.1)) kw.2 in
      let t2 := add32 (Sigma0 a) (Maj a b c) in
      [add32 t1 t2; a; b; c; add32 d t1; e; f; g]
  | _ => s
  end.

Definition compress (h : list N) (block : list N) : list N :=
  zip_with add32 h (foldl round h (zip K (schedule block))).

(** [sha256(data).digest()] *)
Definition digest (data : bytes) : bytes :=
  let padded := pad (Byte.to_N <$> data) in
  let blocks := chunks (length padded) 64 padded in
  byte_of <$> concat (be_bytes 4 <$> foldl compress H0 blocks).

End Sha256.

(** ** [base64.b64encode] *)
Module Base64.

Definition alphabet : str :=
  py "ABCDEFGHIJKLMNOPQRSTUVWXYZabcdefghijklmnopqrstuvwxyz0123456789+/".

Definition digit (n : N) : N := nth (N.to_nat n) alphabet 0.

Fixpoint encodeN (bs : list N) : list N :=
  match bs with
  | [] => []
  | [a] => [digit (a / 4); digit ((a mod 4) * 16); chr "="; chr "="]
  | [a; b] =>
      [digit (a / 4); digit ((a mod 4) * 16 + b / 16);
       digit ((b mod 16) * 4); chr "="]
  | a :: b :: c :: rest =>
      digit (a / 4) :: digit ((a mod 4) * 16 + b / 16)
        :: digit ((b mod 16) * 4 + c / 64) :: digit (c mod 64) :: encodeN rest
  end.

Definition b64encode (bs : bytes) : bytes :=
  byte_of <$> encodeN (Byte.to_N <$> bs).

End Base64.

(** ** [unique_key_to_request_id] *)

(** [re.sub(r'(\+|\/|=)', '', s)] *)
Definition strip_url_unsafe (s : str) : str :=
  filter (fun c => c ≠ chr "+" ∧ c ≠ chr "/" ∧ c ≠ chr "=") s.

Definition unique_key_to_request_id (unique_key : str) (request_id_length : Z)
  : result str :=
  (* Encode the unique key and compute its SHA-256 hash *)
  key_bytes ← Utf8.encode unique_key;
  let hashed_key := Sha256.digest key_bytes in
  (* Encode the hash in base64 and decode it to get a string *)
  base64_encoded ← Utf8.decode (Base64.b64encode hashed_key);
  (* Remove characters that are not URL-safe ('+', '/', or '=') *)
  let url_safe_key := strip_url_unsafe base64_encoded in
  (* Truncate the key to the desired length *)
  Ok (Py.slice_to request_id_length url_safe_key).

(** The default of the keyword argument [request_id_length]. *)
Definition default_request_id_length : Z := 15.

(** ** [urllib.parse] (CPython 3.11) *)
Module UrlParse.

Definition uses_netloc : list str :=
  py <$> [""; "ftp"; "http"; "gopher"; "nntp"; "telnet"; "imap"; "wais";
          "file"; "mms"; "https"; "shttp"; "snews"; "prospero"; "rtsp";
          "rtspu"; "rsync"; "svn"; "svn+ssh"; "sftp"; "nfs"; "git";
          "git+ssh"; "ws"; "wss"]%string.

Definition uses_params : list str :=
  py <$> [""; "ftp"; "hdl"; "prospero"; "http"; "imap"; "https"; "shttp";
          "rtsp"; "rtspu"; "sip"; "sips"; "mms"; "sftp"; "tel"]%string.

(** Characters valid in scheme names *)
Definition scheme_chars : str :=
  py "abcdefghijklmnopqrstuvwxyzABCDEFGHIJKLMNOPQRSTUVWXYZ0123456789+-.".

(** [_WHATWG_C0_CONTROL_OR_SPACE]: the code points 0 to 0x20. *)
Definition c0_control_or_space (c : N) : bool := c <=? 0x20.

(** [_UNSAFE_URL_BYTES_TO_REMOVE]: tab, carriage return, line feed. *)
Definition unsafe_url_bytes_to_remove : str := [0x09; 0x0D; 0x0A].

Record SplitResult : Type := mkSplit {
  s_scheme : str; s_netloc : str; s_path : str; s_query : str; s_fragment : str
}.

Record ParseResult : Type := mkParse {
  scheme : str; netloc : str; path : str; params : str; query : str;
  fragment : str
}.

(** [_splitparams] *)
Definition splitparams (url : str) : str * str :=
  if Py.contains (chr "/") url then
    match Py.find_from (chr ";") (default 0%nat (Py.rfind (chr "/") url)) url with
    | None => (url, [])
    | Some i => (take i url, drop (S i) url)
    end
  else
    match Py.find (chr ";") url with
    | Some i => (take i url, drop (S i) url)
    | None => (take (length url - 1) url, url)   (* i = -1 *)
    end.

(** [_splitnetloc] *)
Definition splitnetloc (url : str) (start : nat) : str * str :=
  let delim :=
    foldl (fun delim c =>
             match Py.find_from c start url with
             | Some wdelim => Nat.min delim wdelim
             | None => delim
             end)
          (length url) (py "/?#") in
  (drop start (take delim url), drop delim url).

(** [s.partition(c)] and [s.rpartition(c)[2]] *)
Definition partition (c : N) (s : str) : str * bool * str :=
  match Py.find c s with
  | Some i => (take i s, true, drop (S i) s)
  | None => (s, false, [])
  end.
Definition after_last (c : N) (s : str) : str :=
  match Py.rfind c s with
  | Some i => drop (S i) s
  | None => s
  end.

Definition is_hexdig (c : N) : bool :=
  Py.is_digit_ascii c || ((0x41 <=? c) && (c <=? 0x46))
  || ((0x61 <=? c) && (c <=? 0x66)).

(** [re.match(r"\Av[a-fA-F0-9]+\..+\Z", hostname)] *)
Definition ipvfuture_match (hostname : str) : bool :=
  match hostname with
  | v :: rest =>
      (v =? chr "v")
      && truthy (Py.leading is_hexdig rest)
      && match Py.lstrip is_hexdig rest with
         | dot :: tail =>
             (dot =? chr ".") && truthy tail
             && forallb (fun c => negb (c =? 0x0A)) tail
         | [] => false
         end
  | [] => false
  end.

Section WithRuntime.
Context `{Runtime}.

(** [_checknetloc]: [true] when it returns, [false] when it raises. *)
Definition checknetloc (netloc : str) : bool :=
  if negb (truthy netloc) || Py.is_ascii netloc then true
  else
    let n := Py.remove (chr "?") (Py.remove (chr "#")
               (Py.remove (chr ":") (Py.remove (chr "@") netloc))) in
    let netloc2 := nfkc n in
    if Py.eqb_str n netloc2 then true
    else negb (existsb (fun c => Py.contains c netloc2) (py "/?#@:")).

(** [_check_bracketed_host] *)
Definition check_bracketed_host (hostname : str) : bool :=
  if Py.startswith (py "v") hostname then ipvfuture_match hostname
  else match ip_address hostname with
       | Some IPv6 => true
       | Some IPv4 => false
       | None => false
       end.

(** [_check_bracketed_netloc] *)
Definition check_bracketed_netloc (netloc : str) : bool :=
  let hostname_and_port := after_last (chr "@") netloc in
  let '(before_bracket, have_open_br, bracketed) :=
    partition (chr "[") hostname_and_port in
  if have_open_br then
    if truthy before_bracket then false
    else
      let '(hostname, _, port) := partition (chr "]") bracketed in
      if truthy port && negb (Py.startswith (py ":") port) then false
      else check_bracketed_host hostname
  else
    let '(hostname, _, _) := partition (chr ":") hostname_and_port in
    check_bracketed_host hostname.

(** [urlsplit(url)] with the default [scheme=''], [allow_fragments=True] *)
Definition urlsplit (url : str) : result SplitResult :=
  let url := Py.lstrip c0_control_or_space url in
  let url := foldl (fun u b => Py.remove b u) url unsafe_url_bytes_to_remove in
  let '(scheme, url) :=
    match Py.find (chr ":") url with
    | Some (S i') =>
        let i := S i' in
        if Py.is_alpha_ascii (hd 0 url)
           && forallb (fun c => Py.contains c scheme_chars) (take i url)
        then (Py.lower (take i url), drop (S i) url)
        else ([], url)
    | _ => ([], url)
    end in
  '(netloc, url) ←
    (if Py.eqb_str (take 2 url) (py "//") then
       let '(netloc, url) := splitnetloc url 2 in
       let open_br := Py.contains (chr "[") netloc in
       let close_br := Py.contains (chr "]") netloc in
       if (open_br && negb close_br) || (close_br && negb open_br)
       then Raise ValueError
       else if open_br && close_br && negb (check_bracketed_netloc netloc)
       then Raise ValueError
       else Ok (netloc, url)
     else Ok ([], url));
  let '(url, fragment) :=
    match Py.split_once (chr "#") url with
    | Some (u, f) => (u, f)
    | None => (url, [])
    end in
  let '(url, query) :=
    match Py.split_once (chr "?") url with
    | Some (u, q) => (u, q)
    | None => (url, [])
    end in
  if checknetloc netloc
  then Ok (mkSplit scheme netloc url query fragment)
  else Raise ValueError.

(** [urlparse(url)] *)
Definition urlparse (url : str) : result ParseResult :=
  splitresult ← urlsplit url;
  let '(mkSplit scheme netloc url query fragment) := splitresult in
  let '(url, params) :=
    if bool_decide (scheme ∈ uses_params) && Py.contains (chr ";") url
    then splitparams url
    else (url, []) in
  Ok (mkParse scheme netloc url params query fragment).
End WithRuntime.

(** [urlunsplit] *)
Definition urlunsplit (c : SplitResult) : str :=
  let '(mkSplit scheme netloc url query fragment) := c in
  let url :=
    if truthy netloc
       || (truthy scheme && bool_decide (scheme ∈ uses_netloc)
           && negb (Py.eqb_str (take 2 url) (py "//")))
    then
      let url := if truthy url && negb (Py.eqb_str (take 1 url) (py "/"))
                 then py "/" ++ url else url in
      py "//" ++ netloc ++ url
    else url in
  let url := if truthy scheme then scheme ++ py ":" ++ url else url in
  let url := if truthy query then url ++ py "?" ++ query else url in
  let url := if truthy fragment then url ++ py "#" ++ fragment else url in
  url.

(** [urlunparse]; [ParseResult.geturl()] is [urlunparse(self)]. *)
Definition urlunparse (c : ParseResult) : str :=
  let '(mkParse scheme netloc url params query fragment) := c in
  let url := if truthy params then url ++ py ";" ++ params else url in
  urlunsplit (mkSplit scheme netloc url query fragment).
Definition geturl (c : ParseResult) : str := urlunparse c.

(** *** Query strings *)

Definition hexval (c : N) : option N :=
  if Py.is_digit_ascii c then Some (c - 0x30)
  else if (0x41 <=? c) && (c <=? 0x46) then Some (c - 0x41 + 10)
  else if (0x61 <=? c) && (c <=? 0x66) then Some (c - 0x61 + 10)
  else None.

(** One item of [string.split(b'%')[1:]] in [unquote_to_bytes]: the two
    hexadecimal digits at its start, if any, become one byte. *)
Definition unquote_item (item : list N) : list N :=
  match item with
  | h1 :: h2 :: rest =>
      match hexval h1, hexval h2 with
      | Some a, Some b => (a * 16 + b) :: rest
      | _, _ => chr "%" :: item
      end
  | _ => chr "%" :: item
  end.

(** [unquote_to_bytes], on the bytes of its argument *)
Definition unquote_to_bytes (string : bytes) : bytes :=
  match Py.split (chr "%") (Byte.to_N <$> string) with
  | [] => []
  | first :: items => byte_of <$> (first ++ concat (unquote_item <$> items))
  end.

(** The loop of [unquote] over [_asciire.split(string)]: every maximal
    run of ASCII characters is unquoted to bytes and decoded, the
    characters in between are kept. *)
Fixpoint unquote_runs (run s : str) : str :=
  match s with
  | [] => Utf8.decode_replace (unquote_to_bytes (byte_of <$> run))
  | c :: s' =>
      if c <? 128 then unquote_runs (run ++ [c]) s'
      else Utf8.decode_replace (unquote_to_bytes (byte_of <$> run))
             ++ c :: unquote_runs [] s'
  end.

(** [unquote(string)] with the defaults [encoding='utf-8'],
    [errors='replace'] *)
Definition unquote (string : str) : str :=
  if negb (Py.contains (chr "%") string) then string
  else unquote_runs [] string.

(** [parse_qsl(qs)] with its defaults: blank values are dropped. *)
Definition parse_qsl (qs : str) : list (str * str) :=
  let query_args := if truthy qs then Py.split (chr "&") qs else [] in
  flat_map (fun name_value =>
              if negb (truthy name_value) then []
              else match Py.split_once (chr "=") name_value with
                   | None => []
                   | Some (nv0, nv1) =>
                       if truthy nv1 then
                         [(unquote (Py.replace (chr "+") (chr " ") nv0),
                           unquote (Py.replace (chr "+") (chr " ") nv1))]
                       else []
                   end)
           query_args.

(** [_ALWAYS_SAFE] *)
Definition always_safe (b : N) : bool :=
  Py.is_alpha_ascii b || Py.is_digit_ascii b
  || Py.contains b (py "_.-~").

Definition hexdigit_upper (n : N) : N := nth (N.to_nat n) (py "0123456789ABCDEF") 0.

(** [_Quoter(safe).__getitem__(b)] *)
Definition quoter (safe : str) (b : byte) : str :=
  let n := Byte.to_N b in
  if always_safe n || Py.contains n safe then [n]
  else [chr "%"; hexdigit_upper (n / 16); hexdigit_upper (n mod 16)].

(** [quote_from_bytes(bs, safe)]; when every byte is safe the source
    returns [bs.decode()], which is the same text. *)
Definition quote_from_bytes (bs : bytes) (safe : str) : str :=
  flat_map (quoter safe) bs.

(** [quote(string, safe)] *)
Definition quote (string safe : str) : result str :=
  if negb (truthy string) then Ok string
  else bs ← Utf8.encode string; Ok (quote_from_bytes bs safe).

(** [quote_plus(string)] *)
Definition quote_plus (string : str) : result str :=
  if negb (Py.contains (chr " ") string) then quote string []
  else quoted ← quote string (py " ");
       Ok (Py.replace (chr " ") (chr "+") quoted).

(** [urlencode(query)] for a list of pairs of [str], with its defaults *)
Definition urlencode (query : list (str * str)) : result str :=
  l ← result_mapM (fun '(k, v) =>
                     k' ← quote_plus k; v' ← quote_plus v;
                     Ok (k' ++ py "=" ++ v'))
                  query;
  Ok (Py.join (py "&") l).

End UrlParse.

(** ** Ordering and dictionaries of [str] *)

(** [a <= b] on [str]: lexicographic on code points. *)
Fixpoint str_leb (a b : str) : bool :=
  match a, b with
  | [], _ => true
  | _ :: _, [] => false
  | x :: a', y :: b' =>
      if x <? y then true else if y <? x then false else str_leb a' b'
  end.

Definition str_le (a b : str) : Prop := Is_true (str_leb a b).

(** [sorted(l)] on a list of [str].  Python's sort is stable, as is merge
    sort; the module sorts dictionary keys, which are distinct. *)
Definition sorted (l : list str) : list str := merge_sort str_le l.

(** [dict(pairs)]: a later pair replaces the value of an earlier one with
    the same key. *)
Definition dict (pairs : list (str * str)) : gmap (list N) (list N) :=
  foldl (fun d kv => <[kv.1 := kv.2]> d) ∅ pairs.

(** [d.keys()].  Python lists the keys in insertion order; the module only
    sorts them, so the canonical order of the map serves. *)
Definition keys (d : gmap (list N) (list N)) : list str := (map_to_list d).*1.

(** [d[k]] for a key that is in [d]. *)
Definition getitem (d : gmap (list N) (list N)) (k : str) : str :=
  default [] (d !! k).

(** [bool(d)] *)
Definition dict_truthy (d : gmap (list N) (list N)) : bool := bool_decide (d ≠ ∅).

(** ** [normalize_url] *)

(** The local [search_params] of [normalize_url], from [parsed_url.query]. *)
Definition search_params (parsed_query : str) : gmap (list N) (list N) :=
  (* Convert query to a dict *)
  let search_params := dict (UrlParse.parse_qsl parsed_query) in
  (* Remove any 'utm_' parameters *)
  filter (fun kv : list N * list N => ¬ Is_true (Py.startswith (py "utm_") kv.1))
         search_params.

(** The list passed to [urlencode]: [[(k, search_params[k]) for k in sorted_keys]]. *)
Definition sorted_pairs (parsed_query : str) : list (str * str) :=
  let search_params := search_params parsed_query in
  let sorted_keys := sorted (keys search_params) in
  (fun k => (k, getitem search_params k)) <$> sorted_keys.

(** The local [sorted_query] of [normalize_url]. *)
Definition sorted_query (parsed_query : str) : result str :=
  UrlParse.urlencode (sorted_pairs parsed_query).

Section Requests.
Context `{Runtime}.

Definition normalize_url (url : str) (keep_url_fragment : bool) : result str :=
  (* Parse the URL *)
  parsed_url ← UrlParse.urlparse (Py.strip Py.isspace url);
  (* Construct the new query string *)
  sorted_query ← sorted_query (UrlParse.query parsed_url);
  (* Construct the final URL *)
  let new_url :=
    Py.lower
      (UrlParse.geturl
         {| UrlParse.scheme := UrlParse.scheme parsed_url;
            UrlParse.netloc := UrlParse.netloc parsed_url;
            UrlParse.path := Py.rstrip (N.eqb (chr "/")) (UrlParse.path parsed_url);
            UrlParse.params := UrlParse.params parsed_url;
            UrlParse.query := sorted_query;
            UrlParse.fragment := UrlParse.fragment parsed_url |}) in
  (* Retain the URL fragment if required *)
  let new_url :=
    if negb keep_url_fragment then hd [] (Py.split (chr "#") new_url)
    else new_url in
  Ok new_url.

(** ** [compute_unique_key] *)

(** [HttpPayload]: text or bytes. *)
Inductive HttpPayload : Type :=
  | PayloadStr (s : str)
  | PayloadBytes (b : bytes).

(** [bool(payload)] for an optional payload *)
Definition payload_truthy (payload : option HttpPayload) : bool :=
  match payload with
  | None => false
  | Some (PayloadStr s) => truthy s
  | Some (PayloadBytes b) => truthy b
  end.

(** [payload_in_bytes] *)
Definition payload_in_bytes (payload : option HttpPayload) : result bytes :=
  match payload with
  | Some (PayloadStr s) => Utf8.encode s
  | Some (PayloadBytes b) => Ok b
  | None => Ok []
  end.

(** [header_parts]: the comprehension over [whitelisted_headers] *)
Definition header_parts (headers : gmap (list N) (list N))
    (whitelisted_headers : list str) : list str :=
  (fun header => header ++ py ":" ++ getitem headers header)
    <$> filter (fun header => is_Some (headers !! header)) whitelisted_headers.

Context `{ShortHash}.

(** The local [extended_key] of [compute_unique_key]: the key before the
    header segment. *)
Definition extended_key (normalized_url normalized_method : str)
    (payload : option HttpPayload) (use_extended_unique_key : bool) : result str :=
  (* Compute the payload hash if required. *)
  if use_extended_unique_key && payload_truthy payload then
    payload_in_bytes ← payload_in_bytes payload;
    let payload_hash := compute_short_hash payload_in_bytes in
    Ok (normalized_method ++ py "(" ++ payload_hash ++ py "):" ++ normalized_url)
  else Ok normalized_url.

Definition compute_unique_key (url method : str) (payload : option HttpPayload)
    (keep_url_fragment use_extended_unique_key : bool)
    (headers : option (gmap (list N) (list N)))
    (whitelisted_headers : option (list str)) : result str :=
  (* Normalize the URL and method. *)
  let normalized_url :=
    match normalize_url url keep_url_fragment with
    | Ok normalized => normalized
    | Raise exc => url
    end in
  let normalized_method := Py.upper method in
  extended_key ←
    extended_key normalized_url normalized_method payload use_extended_unique_key;
  (* Include whitelisted headers in the key. *)
  match headers, whitelisted_headers with
  | Some hs, Some wl =>
      if dict_truthy hs && truthy wl then
        let header_part := Py.join (py "|") (header_parts hs wl) in
        Ok (extended_key ++ py "|" ++ header_part)
      else Ok extended_key
  | _, _ => Ok extended_key
  end.

(** The call with every optional argument at its default. *)
Definition compute_unique_key_default (url : str) : result str :=
  compute_unique_key url (py "GET") None false false None None.

End Requests.

(** An instance of the interpreter's tables for running the model on ASCII
    urls, where the tables of case and of normalization are not consulted.
    It does not model [ipaddress]: it answers as if every bracketed host
    were malformed, so it is to be run on urls without a host in square
    brackets only (an unpaired bracket makes [urlsplit] raise before
    [ipaddress] is reached). *)
Definition ascii_runtime : Runtime :=
  {| lower_full := fun _ c _ => [c];
     upper_full := fun c => [c];
     nfkc := fun s => s;
     ip_address := fun _ => None |}.

(** ** Notions used in the statements *)

(** Unicode scalar values: the code points the UTF-8 codec encodes. *)
Definition scalar_value (c : N) : Prop := c < 0xD800 ∨ (0xDFFF < c ∧ c < 0x110000).
Definition encodable (s : str) : Prop := Forall scalar_value s.

(** The characters a request ID is cut from: the base64 digits of the
    digest of the encoded key, without '+', '/' and the padding '='. *)
Definition available_chars (key_bytes : bytes) : str :=
  strip_url_unsafe (Base64.encodeN (Byte.to_N <$> Sha256.digest key_bytes)).

(** The [normalized_url] of [compute_unique_key]: the normalized URL, or
    the raw one when [normalize_url] raises. *)
Definition normalized_or_raw `{Runtime} (url : str) (keep_url_fragment : bool) : str :=
  match normalize_url url keep_url_fragment with
  | Ok normalized => normalized
  | Raise _ => url
  end.

(** What [compute_unique_key] appends to the key base. *)
Definition header_segment (headers : option (gmap (list N) (list N)))
    (whitelisted_headers : option (list str)) : str :=
  match headers, whitelisted_headers with
  | Some hs, Some wl =>
      if dict_truthy hs && truthy wl
      then py "|" ++ Py.join (py "|") (header_parts hs wl)
      else []
  | _, _ => []
  end.

(** The header entries as the specification words them: for each
    whitelisted name, in the order given, [name:value] if the name is in the
    headers, and nothing otherwise. *)
Fixpoint whitelisted_entries (headers : gmap (list N) (list N))
    (whitelist : list str) : list str :=
  match whitelist with
  | [] => []
  | name :: rest =>
      match headers !! name with
      | Some value => (name ++ py ":" ++ value) :: whitelisted_entries headers rest
      | None => whitelisted_entries headers rest
      end
  end.

(** The payload bytes that the specification lets the key depend on: a
    bytes payload itself, a text payload in UTF-8. *)
Inductive payload_bytes : HttpPayload → bytes → Prop :=
  | payload_bytes_of_bytes (b : bytes) : payload_bytes (PayloadBytes b) b
  | payload_bytes_of_str (s : str) (bs : bytes) :
      Utf8.encode s = Ok bs → payload_bytes (PayloadStr s) bs.

(** [bs.hex()] *)
Definition hexdigit_lower (n : N) : N := nth (N.to_nat n) (py "0123456789abcdef") 0.
Definition hex (bs : bytes) : str :=
  flat_map (fun b => [hexdigit_lower (Byte.to_N b / 16);
                      hexdigit_lower (Byte.to_N b mod 16)]) bs.

(** A stand-in for [compute_short_hash] when running the model, of the kind
    the specification names: the first 8 hexadecimal digits of the SHA-256
    digest of the data. *)
Definition sample_short_hash : ShortHash :=
  fun data => take 8 (hex (Sha256.digest data)).

(** Text made of ASCII characters only. *)
Definition ascii_text (s : str) : Prop := Forall (fun c => c < 128) s.

(** *** The steps of [urlsplit], named *)

(** The url after [lstrip] and the removal of tab, CR and LF. *)
Definition url_clean (url : str) : str :=
  foldl (fun u b => Py.remove b u)
        (Py.lstrip UrlParse.c0_control_or_space url)
        UrlParse.unsafe_url_bytes_to_remove.

(** The scheme and what follows its colon. *)
Definition split_scheme `{Runtime} (url : str) : str * str :=
  match Py.find (chr ":") url with
  | Some (S i') =>
      let i := S i' in
      if Py.is_alpha_ascii (hd 0 url)
         && forallb (fun c => Py.contains c UrlParse.scheme_chars) (take i url)
      then (Py.lower (take i url), drop (S i) url)
      else ([], url)
  | _ => ([], url)
  end.

(** The checks on the brackets of a netloc. *)
Definition brackets_ok `{Runtime} (netloc : str) : bool :=
  let open_br := Py.contains (chr "[") netloc in
  let close_br := Py.contains (chr "]") netloc in
  negb ((open_br && negb close_br) || (close_br && negb open_br))
  && negb (open_br && close_br && negb (UrlParse.check_bracketed_netloc netloc)).

(** The netloc and what follows it. *)
Definition split_authority `{Runtime} (url : str) : result (str * str) :=
  if Py.eqb_str (take 2 url) (py "//") then
    let '(netloc, url) := UrlParse.splitnetloc url 2 in
    if brackets_ok netloc then Ok (netloc, url) else Raise ValueError
  else Ok ([], url).

(** [url.split(c, 1)] if [c in url], the url and an empty text otherwise. *)
Definition cut (c : N) (url : str) : str * str :=
  match Py.split_once c url with
  | Some parts => parts
  | None => (url, [])
  end.

(** [a < b] on [str] *)
Definition str_lt (a b : str) : Prop := str_le a b ∧ a ≠ b.

(** The value of the last pair of [pairs] whose key is [k]. *)
Fixpoint last_value (pairs : list (str * str)) (k : str) : option str :=
  match pairs with
  | [] => None
  | (k', v) :: rest =>
      match last_value rest k with
      | Some v' => Some v'
      | None => if bool_decide (k' = k) then Some v else None
      end
  end.

(** The byte values of the UTF-8 encoding of a scalar value. *)
Definition utf8_bytes (c : N) : list N :=
  if c <? 0x80 then [c]
  else if c <? 0x800 then [0xC0 + c / 64; 0x80 + c mod 64]
  else if c <? 0x10000 then
    [0xE0 + c / 4096; 0x80 + (c / 64) mod 64; 0x80 + c mod 64]
  else [0xF0 + c / 262144; 0x80 + (c / 4096) mod 64; 0x80 + (c / 64) mod 64;
        0x80 + c mod 64].

(** Order of [bytes] values: lexicographic on the byte values. *)
Definition bytes_lt (a b : bytes) : Prop :=
  str_lt (Byte.to_N <$> a) (Byte.to_N <$> b).

(** Percent-encoding of one byte as [quote_plus] writes it: unreserved
    characters stay, a space becomes '+', any other byte becomes '%' and two
    upper-case hexadecimal digits. *)
Definition percent_encode_byte (b : byte) : str :=
  let n := Byte.to_N b in
  if UrlParse.always_safe n then [n]
  else if n =? 0x20 then py "+"
  else [chr "%"; UrlParse.hexdigit_upper (n / 16); UrlParse.hexdigit_upper (n mod 16)].

(** Percent-encoding of a text: of the bytes of its UTF-8 encoding. *)
Definition percent_encode (s : str) : result str :=
  bs ← Utf8.encode s; Ok (flat_map percent_encode_byte bs).

(** Characters that do not end a netloc: all but '/', '?' and '#'. *)
Definition in_netloc (c : N) : bool :=
  negb ((c =? chr "/") || (c =? chr "?") || (c =? chr "#")).

(** A run of slashes. *)
Definition slashes (s : str) : Prop := Forall (fun c => c = chr "/") s.

(** *** URLs on which [normalize_url] is idempotent *)

(** Printable ASCII characters other than the space. *)
Definition printable (c : N) : bool := (0x21 <=? c) && (c <=? 0x7E).

(** Characters of a plain authority: printable, no delimiter, no bracket. *)
Definition plain_netloc_char (c : N) : bool :=
  printable c && negb (Py.contains c (py "/?#[]")).

(** Characters of a plain path: printable, no '?', '#' or ';'. *)
Definition plain_path_char (c : N) : bool :=
  printable c && negb (Py.contains c (py "?#;")).

(** Characters of a plain query word: lower-case letters, digits and
    '-', '.', '_', '~', which percent-encoding and [lower] leave alone. *)
Definition plain_word_char (c : N) : bool :=
  Py.is_lower_ascii c || Py.is_digit_ascii c || Py.contains c (py "_.-~").

(** Characters of a scheme as [urlsplit] returns it. *)
Definition lower_scheme_char (c : N) : bool :=
  Py.is_lower_ascii c || Py.is_digit_ascii c || Py.contains c (py "+-.").

(** A scheme as [urlsplit] returns it: empty, or a lower-case letter
    followed by lower-case scheme characters. *)
Definition scheme_shape (s : str) : Prop :=
  s = [] ∨ (Py.is_lower_ascii (hd 0 s) = true
            ∧ Forall (fun c => lower_scheme_char c = true) s).

(** A path as it follows an authority: empty, or starting with '/'. *)
Definition rooted (path : str) : Prop :=
  path = [] ∨ ∃ t, path = chr "/" :: t.

(** A plain word of a query: a key or a value made of plain characters. *)
Definition plain_word (s : str) : Prop :=
  Forall (fun c => plain_word_char c = true) s.

(** The text [key=value&...] of pairs written without any escape. *)
Definition query_text (pairs : list (str * str)) : str :=
  Py.join (py "&") ((fun kv : list N * list N => kv.1 ++ py "=" ++ kv.2) <$> pairs).

(** The text [geturl] makes of a scheme, a non-empty authority, a rooted
    path, a query and a fragment. *)
Definition assemble (sch n p q f : str) : str :=
  (if truthy sch then sch ++ py ":" else [])
    ++ py "//" ++ n ++ p
    ++ (if truthy q then py "?" ++ q else [])
    ++ (if truthy f then py "#" ++ f else []).

(** ASCII letters and digits. *)
Definition alnum (c : N) : bool := Py.is_alpha_ascii c || Py.is_digit_ascii c.

(** What [sep.join] puts after the first of its parts. *)
Definition join_tail (sep : str) (parts : list str) : str :=
  match parts with
  | [] => []
  | _ :: _ => sep ++ Py.join sep parts
  end.

(** Text that can stand after the '?' of a url as it is: printable ASCII
    without space and without '#'. *)
Definition plain_query (q : str) : Prop :=
  Forall (fun c => printable c = true ∧ c ≠ chr "#") q.

(** What [parse_qsl] makes of one item of [qs.split('&')]. *)
Definition parse_item (name_value : str) : list (str * str) :=
  if negb (truthy name_value) then []
  else match Py.split_once (chr "=") name_value with
       | None => []
       | Some (nv0, nv1) =>
           if truthy nv1 then
             [(UrlParse.unquote (Py.replace (chr "+") (chr " ") nv0),
               UrlParse.unquote (Py.replace (chr "+") (chr " ") nv1))]
           else []
       end.

(** The string that [normalize_url] returns, from the parsed url and the
    rebuilt query. *)
Definition rebuilt_url `{Runtime} (p : UrlParse.ParseResult) (sorted_query : str)
    (keep_url_fragment : bool) : str :=
  let new_url :=
    Py.lower
      (UrlParse.geturl
         (UrlParse.mkParse (UrlParse.scheme p) (UrlParse.netloc p)
            (Py.rstrip (N.eqb (chr "/")) (UrlParse.path p))
            (UrlParse.params p) sorted_query (UrlParse.fragment p))) in
  if negb keep_url_fragment then hd [] (Py.split (chr "#") new_url) else new_url.

(** The query and the fragment of a url that ends with [d :: r], where [d]
    is its first '?' or '#'. *)
Definition tail_parts (d : N) (r : str) : str * str :=
  if d =? chr "#" then ([], r) else cut (chr "#") r.

(** * Properties *)

Lemma bind_Ok {A B} (r : result A) (f : A -> result B) (b : B) :
  r ≫= f = Ok b ↔ ∃ a, r = Ok a ∧ f a = Ok b.
Proof.
  destruct r as [a|e]; simpl; split.
  - eauto.
  - intros (a' & [= ->] & ?); done.
  - done.
  - intros (a' & ? & ?); done.
Qed.

Lemma result_mapM_Ok_length {A B} (f : A -> result B) l l' :
  result_mapM f l = Ok l' → length l' = length l.
Proof.
  revert l'. induction l as [|x l IH]; intros l'; simpl.
  - by intros [= <-].
  - destruct (f x) as [y|]; simpl; [|done].
    destruct (result_mapM f l) as [ys|]; simpl; [|done].
    intros [= <-]. simpl. by rewrite (IH ys).
Qed.

Lemma byte_of_to_N (n : N) : n < 256 → Byte.to_N (byte_of n) = n.
Proof.
  intros Hn. unfold byte_of. rewrite N.mod_small by done.
  destruct (Byte.of_N n) as [b|] eqn:E.
  - by apply Byte.to_of_N.
  - apply Byte.of_N_None_iff in E. lia.
Qed.

Lemma to_N_byte_of_list (l : list N) :
  Forall (fun n => n < 256) l → Byte.to_N <$> (byte_of <$> l) = l.
Proof.
  induction 1; simpl; [done|]. f_equal; [by apply byte_of_to_N | done].
Qed.

Lemma scan_ascii (l : list N) :
  Forall (fun n => n < 128) l → Utf8.scan l = Utf8.Char <$> l.
Proof.
  induction 1 as [|x l Hx Hl IH]; [done|].
  simpl. apply N.ltb_lt in Hx. rewrite Hx. by rewrite IH.
Qed.

Lemma decode_ascii (l : list N) :
  Forall (fun n => n < 128) l → Utf8.decode (byte_of <$> l) = Ok l.
Proof.
  intros Hl. unfold Utf8.decode.
  rewrite to_N_byte_of_list by (eapply Forall_impl; [done|]; simpl; lia).
  rewrite scan_ascii by done.
  clear Hl. induction l as [|x l IH]; [done|]. rewrite fmap_cons. cbn [result_mapM]. by rewrite IH.
Qed.

Lemma b64_digit_ascii (n : N) : Base64.digit n < 128.
Proof.
  unfold Base64.digit.
  assert (Hall : Forall (fun c => c < 128) Base64.alphabet).
  { apply Forall_forall. intros c Hc. vm_compute in Hc.
    repeat (apply elem_of_cons in Hc as [-> | Hc]; [done|]).
    by apply elem_of_nil in Hc. }
  destruct (Base64.alphabet !! N.to_nat n) as [c|] eqn:E.
  - rewrite (nth_lookup_Some _ _ _ _ E). by eapply (Forall_lookup_1 _ _ _ _ Hall).
  - rewrite nth_overflow; [done|]. by apply lookup_ge_None.
Qed.

(** *** The digest has 32 bytes *)

Lemma round_length s kw : length (Sha256.round s kw) = length s.
Proof.
  unfold Sha256.round.
  do 9 (destruct s as [|? s]; [reflexivity|]). reflexivity.
Qed.

Lemma rounds_length kws s : length (foldl Sha256.round s kws) = length s.
Proof.
  revert s. induction kws as [|kw kws IH]; intros s; simpl; [done|].
  by rewrite IH, round_length.
Qed.

Lemma compress_length h block : length (Sha256.compress h block) = length h.
Proof.
  unfold Sha256.compress. rewrite length_zip_with, rounds_length. lia.
Qed.

Lemma compress_all_length blocks h :
  length (foldl Sha256.compress h blocks) = length h.
Proof.
  revert h. induction blocks as [|b blocks IH]; intros h; simpl; [done|].
  by rewrite IH, compress_length.
Qed.

Lemma be_bytes_length n x : length (Sha256.be_bytes n x) = n.
Proof. induction n; simpl; congruence. Qed.

Lemma be_bytes_bound n x : Forall (fun b => b < 256) (Sha256.be_bytes n x).
Proof.
  induction n; simpl; constructor; [|done].
  apply N.mod_upper_bound. done.
Qed.

Lemma concat_be_bytes_length (ws : list N) :
  length (concat (Sha256.be_bytes 4 <$> ws)) = (4 * length ws)%nat.
Proof.
  induction ws as [|w ws IH]; [done|].
  rewrite fmap_cons, concat_cons, length_app, IH, be_bytes_length. simpl. lia.
Qed.

Lemma digest_length (data : list byte) : length (Sha256.digest data) = 32%nat.
Proof.
  unfold Sha256.digest. rewrite length_fmap, concat_be_bytes_length.
  by rewrite compress_all_length.
Qed.

(** *** Base64 text of a digest *)

Lemma to_N_lt_256 (bs : list byte) : Forall (fun n => n < 256) (Byte.to_N <$> bs).
Proof.
  induction bs as [|b bs IH]; constructor; [|done].
  pose proof (Byte.to_N_bounded b); lia.
Qed.

Lemma encodeN_ascii (l : list N) : Forall (fun c => c < 128) (Base64.encodeN l).
Proof.
  remember (length l) as n eqn:Hn. revert l Hn.
  induction n as [n IH] using lt_wf_ind. intros l Hn.
  destruct l as [|a [|b [|c rest]]]; simpl.
  - constructor.
  - repeat constructor; auto using b64_digit_ascii.
  - repeat constructor; auto using b64_digit_ascii.
  - repeat (constructor; [apply b64_digit_ascii|]).
    apply (IH (length rest)); [simpl in Hn; lia | done].
Qed.

Lemma encodeN_32 (l : list N) :
  length l = 32%nat →
  ∃ digits, Base64.encodeN l = digits ++ [chr "="] ∧ length digits = 43%nat.
Proof.
  intros Hl. exists (take 43 (Base64.encodeN l)).
  do 32 (destruct l as [|? l]; [discriminate Hl|]).
  destruct l; [|discriminate Hl].
  split; reflexivity.
Qed.


Lemma strip_url_unsafe_app (a b : list N) :
  strip_url_unsafe (a ++ b) = strip_url_unsafe a ++ strip_url_unsafe b.
Proof. apply filter_app. Qed.

Lemma slice_to_sublist {A} (n : Z) (s : list A) : Py.slice_to n s `prefix_of` s.
Proof. unfold Py.slice_to. destruct (0 <=? n)%Z; apply prefix_take. Qed.


Lemma encode_char_Ok (c : N) :
  scalar_value c ↔ ∃ bs, Utf8.encode_char c = Ok bs.
Proof.
  unfold scalar_value, Utf8.encode_char.
  destruct (N.ltb_spec c 0x80); [split; [eauto|intros _; lia]|].
  destruct (N.ltb_spec c 0x800); [split; [eauto|intros _; lia]|].
  destruct (N.ltb_spec c 0x10000).
  - destruct (N.leb_spec 0xD800 c), (N.leb_spec c 0xDFFF); simpl;
      (split; [intros; first [lia | eauto] | intros [bs Hbs]; first [done | lia]]).
  - destruct (N.ltb_spec c 0x110000);
      (split; [intros; first [lia | eauto] | intros [bs Hbs]; first [done | lia]]).
Qed.

Lemma encode_Ok (s : list N) : encodable s ↔ ∃ bs, Utf8.encode s = Ok bs.
Proof.
  unfold encodable, Utf8.encode. induction s as [|c s IH]; simpl.
  - split; [eauto | constructor].
  - rewrite Forall_cons, encode_char_Ok, IH. split.
    + intros [[b Hb] [bs Hbs]]. rewrite Hb. simpl.
      destruct (result_mapM Utf8.encode_char s); simpl in *; [eauto | done].
    + intros [bs Hbs]. destruct (Utf8.encode_char c); simpl in *; [|done].
      destruct (result_mapM Utf8.encode_char s); simpl in *; [eauto | done].
Qed.

Lemma available_chars_length (kb : list byte) :
  (length (available_chars kb) ≤ 43)%nat.
Proof.
  unfold available_chars.
  destruct (encodeN_32 (Byte.to_N <$> Sha256.digest kb)) as (digits & -> & Hd).
  { by rewrite length_fmap, digest_length. }
  rewrite strip_url_unsafe_app.
  replace (strip_url_unsafe [chr "="]) with (@nil N) by reflexivity.
  rewrite app_nil_r. unfold strip_url_unsafe.
  etrans; [apply length_filter|]. lia.
Qed.

Lemma request_id_eq (unique_key : list N) (kb : list byte) (n : Z) :
  Utf8.encode unique_key = Ok kb →
  unique_key_to_request_id unique_key n = Ok (Py.slice_to n (available_chars kb)).
Proof.
  intros Hkb. unfold unique_key_to_request_id. rewrite Hkb. simpl.
  unfold Base64.b64encode. rewrite decode_ascii by apply encodeN_ascii.
  reflexivity.
Qed.




(** Why the length needs the digest: what the function does after hashing
    (base64, removal of '+', '/', '=', the slice) leaves one character of a
    digest of 32 bytes 0xFF. *)
Example short_id_of_a_digest_of_ones :
  Py.slice_to default_request_id_length
    (strip_url_unsafe (Base64.encodeN (replicate 32 0xFF)))
  = py "8".
Proof. vm_compute. reflexivity. Qed.

(** C9 (as amended).  A [request_id_length] beyond the number of available
    characters is not checked: the call raises nothing and returns all the
    available characters, at most 43 of them, so fewer than requested. *)
Theorem request_id_length_unchecked (unique_key : list N) (key_bytes : list byte)
    (request_id_length : Z) :
  Utf8.encode unique_key = Ok key_bytes →
  (Z.of_nat (length (available_chars key_bytes)) < request_id_length)%Z →
  unique_key_to_request_id unique_key request_id_length = Ok (available_chars key_bytes)
  ∧ (length (available_chars key_bytes) ≤ 43)%nat.
Proof.
  intros Hkb Hn. split; [|apply available_chars_length].
  rewrite (request_id_eq _ _ _ Hkb). f_equal.
  unfold Py.slice_to. destruct (Z.leb_spec 0 request_id_length); [|lia].
  apply take_ge. lia.
Qed.

(** C9 as stated fails: asked for 44 characters, the call returns a shorter
    string without any error. *)
Lemma request_id_silently_short :
  ∃ id, unique_key_to_request_id (py "") 44 = Ok id ∧ (Z.of_nat (length id) < 44)%Z.
Proof. eexists. split; [vm_compute; reflexivity | vm_compute; reflexivity]. Qed.

Lemma request_id_length_unchecked_witness :
  unique_key_to_request_id (py "") 44 = Ok (py "47DEQpj8HBSaTImW5JCeuQeRkm5NMpJWZG3hSuFU")
  ∧ (length (py "47DEQpj8HBSaTImW5JCeuQeRkm5NMpJWZG3hSuFU") ≤ 43)%nat.
Proof.
  apply (request_id_length_unchecked (py "") [] 44); vm_compute; reflexivity.
Defined.

(** ** [compute_unique_key] *)

Section UniqueKey.
Context `{Runtime} `{ShortHash}.

Lemma compute_unique_key_eq (url method : list N) (payload : option HttpPayload)
    (kf ext : bool) (headers : option (gmap (list N) (list N)))
    (wl : option (list (list N))) :
  compute_unique_key url method payload kf ext headers wl
  = (ek ← extended_key (normalized_or_raw url kf) (Py.upper method) payload ext;
     Ok (ek ++ header_segment headers wl)).
Proof.
  unfold compute_unique_key, normalized_or_raw, header_segment.
  destruct (extended_key _ _ _ _) as [ek|e]; simpl; [|done].
  destruct headers as [hs|], wl as [l|]; rewrite ?app_nil_r; try done.
  destruct (dict_truthy hs && truthy l); by rewrite ?app_nil_r.
Qed.

Lemma header_parts_spec (hs : gmap (list N) (list N)) (wl : list (list N)) :
  header_parts hs wl = whitelisted_entries hs wl.
Proof.
  unfold header_parts. induction wl as [|name rest IH]; [done|].
  cbn [whitelisted_entries]. destruct (hs !! name) as [value|] eqn:E.
  - rewrite filter_cons_True by (rewrite E; eauto).
    rewrite fmap_cons, IH. unfold getitem. by rewrite E.
  - rewrite filter_cons_False by (rewrite E; by intros [? ?]).
    done.
Qed.

Lemma dict_truthy_true (hs : gmap (list N) (list N)) :
  hs ≠ ∅ → dict_truthy hs = true.
Proof. intros. unfold dict_truthy. by apply bool_decide_eq_true. Qed.

Lemma truthy_true {A} (l : list A) : l ≠ [] → truthy l = true.
Proof. by destruct l. Qed.

Lemma header_segment_present (hs : gmap (list N) (list N)) (wl : list (list N)) :
  hs ≠ ∅ → wl ≠ [] →
  header_segment (Some hs) (Some wl)
  = py "|" ++ Py.join (py "|") (whitelisted_entries hs wl).
Proof.
  intros Hhs Hwl. unfold header_segment.
  by rewrite (dict_truthy_true _ Hhs), (truthy_true _ Hwl), header_parts_spec.
Qed.

(** C5.  The method enters the key only in extended mode: with
    [use_extended_unique_key] set and a non-empty payload, the key base is
    [METHOD(digest):normalized_url], the method upper-cased and the digest
    the short hash of the payload bytes (the bytes payload itself, the
    UTF-8 encoding of a text payload); otherwise, with extended mode off
    or with a payload that is absent or empty, the key base is the
    normalized URL alone, so that the method does not change the key. *)
Theorem method_only_in_extended_key (url method : list N)
    (payload : option HttpPayload) (kf ext : bool)
    (headers : option (gmap (list N) (list N))) (wl : option (list (list N))) :
  (∀ b, payload = Some (PayloadBytes b) → b ≠ [] → ext = true →
        compute_unique_key url method payload kf ext headers wl
        = Ok ((Py.upper method ++ py "(" ++ compute_short_hash b
                 ++ py "):" ++ normalized_or_raw url kf)
              ++ header_segment headers wl))
  ∧ (∀ s bs, payload = Some (PayloadStr s) → s ≠ [] → Utf8.encode s = Ok bs →
             ext = true →
             compute_unique_key url method payload kf ext headers wl
             = Ok ((Py.upper method ++ py "(" ++ compute_short_hash bs
                      ++ py "):" ++ normalized_or_raw url kf)
                   ++ header_segment headers wl))
  ∧ (ext = false ∨ payload = None ∨ payload = Some (PayloadStr [])
     ∨ payload = Some (PayloadBytes []) →
     compute_unique_key url method payload kf ext headers wl
     = Ok (normalized_or_raw url kf ++ header_segment headers wl)
     ∧ ∀ method', compute_unique_key url method' payload kf ext headers wl
                  = compute_unique_key url method payload kf ext headers wl).
Proof.
  split; [|split].
  - intros b -> Hb ->. rewrite compute_unique_key_eq. unfold extended_key.
    cbn [payload_truthy payload_in_bytes]. rewrite (truthy_true _ Hb). reflexivity.
  - intros s bs -> Hs Hbs ->. rewrite compute_unique_key_eq. unfold extended_key.
    cbn [payload_truthy payload_in_bytes]. rewrite (truthy_true _ Hs), Hbs.
    reflexivity.
  - intros Hoff.
    assert (Hcond : ext && payload_truthy payload = false).
    { destruct Hoff as [-> | [-> | [-> | ->]]]; [done | | |];
        by rewrite andb_false_r. }
    split; [|intros method']; rewrite !compute_unique_key_eq; unfold extended_key;
      by rewrite Hcond.
Qed.

(** C6.  With a non-empty [headers] and a non-empty
    [whitelisted_headers], the key is the key base, a '|', and the
    [name:value] entries joined by '|': one entry per whitelisted name found
    in [headers], in the order of the whitelist, names that are absent
    leaving no trace. *)
Theorem header_segment_in_whitelist_order (url method : list N)
    (payload : option HttpPayload) (kf ext : bool)
    (hs : gmap (list N) (list N)) (wl : list (list N)) (key_base : list N) :
  hs ≠ ∅ → wl ≠ [] →
  compute_unique_key url method payload kf ext None None = Ok key_base →
  compute_unique_key url method payload kf ext (Some hs) (Some wl)
  = Ok (key_base ++ py "|" ++ Py.join (py "|") (whitelisted_entries hs wl)).
Proof.
  intros Hhs Hwl. rewrite !compute_unique_key_eq.
  rewrite (header_segment_present _ _ Hhs Hwl).
  destruct (extended_key _ _ _ _) as [ek|e]; simpl; [|done].
  rewrite app_nil_r. by intros [= <-].
Qed.

Lemma whitelisted_entries_none (hs : gmap (list N) (list N)) (wl : list (list N)) :
  (∀ name, name ∈ wl → hs !! name = None) → whitelisted_entries hs wl = [].
Proof.
  induction wl as [|name rest IH]; intros Hnone; [done|].
  simpl. rewrite (Hnone name) by left. apply IH. intros n Hn. apply Hnone. by right.
Qed.

(** C10.  With a non-empty [headers], a non-empty [whitelisted_headers]
    and no whitelisted name in [headers], the key is the key base followed
    by one '|', hence not the key of the same call with [headers=None]. *)
Theorem unmatched_whitelist_appends_bar (url method : list N)
    (payload : option HttpPayload) (kf ext : bool)
    (hs : gmap (list N) (list N)) (wl : list (list N)) (key : list N) :
  hs ≠ ∅ → wl ≠ [] → (∀ name, name ∈ wl → hs !! name = None) →
  compute_unique_key url method payload kf ext None (Some wl) = Ok key →
  compute_unique_key url method payload kf ext (Some hs) (Some wl) = Ok (key ++ py "|")
  ∧ key ++ py "|" ≠ key.
Proof.
  intros Hhs Hwl Hnone Hkey. split.
  - revert Hkey. rewrite !compute_unique_key_eq.
    rewrite (header_segment_present _ _ Hhs Hwl).
    rewrite (whitelisted_entries_none _ _ Hnone).
    destruct (extended_key _ _ _ _) as [ek|e]; simpl; [|done].
    rewrite app_nil_r. by intros [= <-].
  - intros Heq. apply (f_equal length) in Heq. rewrite length_app in Heq.
    simpl in Heq. lia.
Qed.


End UniqueKey.

(** *** The same properties at concrete requests *)

Section UniqueKeyExamples.
#[local] Existing Instance ascii_runtime.
#[local] Existing Instance sample_short_hash.



Lemma method_only_in_extended_key_witness :
  compute_unique_key (py "http://x.com/a") (py "post")
    (Some (PayloadBytes ["a"%byte])) false true None None
  = Ok (py "POST(ca978112):http://x.com/a")
  ∧ compute_unique_key (py "http://x.com/a") (py "post")
      (Some (PayloadStr (py "b"))) false true None None
    = Ok (py "POST(3e23e816):http://x.com/a")
  ∧ compute_unique_key (py "http://x.com/a") (py "post") None false false None None
    = compute_unique_key (py "http://x.com/a") (py "GET") None false false None None.
Proof.
  split; [|split].
  - rewrite (proj1 (method_only_in_extended_key (py "http://x.com/a") (py "post")
                      (Some (PayloadBytes ["a"%byte])) false true None None)
               ["a"%byte] eq_refl ltac:(discriminate) eq_refl).
    vm_compute. reflexivity.
  - rewrite (proj1 (proj2 (method_only_in_extended_key (py "http://x.com/a")
                             (py "post") (Some (PayloadStr (py "b"))) false true
                             None None))
               (py "b") ["b"%byte] eq_refl ltac:(discriminate) eq_refl eq_refl).
    vm_compute. reflexivity.
  - apply (proj2 (proj2 (method_only_in_extended_key (py "http://x.com/a") (py "GET")
                           None false false None None)) (or_introl eq_refl)).
Defined.

Lemma header_segment_in_whitelist_order_witness :
  compute_unique_key (py "http://x.com/a") (py "GET") None false false
    (Some (<[py "b" := py "2"]> (<[py "a" := py "1"]> ∅)))
    (Some [py "b"; py "zz"; py "a"])
  = Ok (py "http://x.com/a|b:2|a:1").
Proof.
  rewrite (header_segment_in_whitelist_order (py "http://x.com/a") (py "GET") None
             false false (<[py "b" := py "2"]> (<[py "a" := py "1"]> ∅))
             [py "b"; py "zz"; py "a"] (py "http://x.com/a")).
  - vm_compute. reflexivity.
  - apply insert_non_empty.
  - discriminate.
  - vm_compute. reflexivity.
Defined.

Lemma unmatched_whitelist_appends_bar_witness :
  compute_unique_key (py "http://x.com/a") (py "GET") None false false
    (Some {[py "accept" := py "text/html"]}) (Some [py "x-token"])
  = Ok (py "http://x.com/a|")
  ∧ py "http://x.com/a|" ≠ py "http://x.com/a".
Proof.
  apply (unmatched_whitelist_appends_bar (py "http://x.com/a") (py "GET") None
           false false {[py "accept" := py "text/html"]} [py "x-token"]
           (py "http://x.com/a")).
  - apply map_non_empty_singleton.
  - discriminate.
  - intros name ->%list_elem_of_singleton. apply lookup_singleton_ne. discriminate.
  - vm_compute. reflexivity.
Defined.
End UniqueKeyExamples.

(** ** Builtin [str] methods *)

Lemma is_ascii_spec (s : list N) : Py.is_ascii s = true ↔ ascii_text s.
Proof.
  unfold Py.is_ascii, ascii_text. rewrite forallb_forall, Forall_forall.
  split; intros Hs c Hc.
  - apply N.ltb_lt, Hs. by apply list_elem_of_In.
  - apply N.ltb_lt, Hs. by apply list_elem_of_In.
Qed.

Lemma contains_spec (c : N) (s : list N) : Py.contains c s = true ↔ c ∈ s.
Proof.
  unfold Py.contains. rewrite existsb_exists. split.
  - intros (x & Hx & Heq). apply N.eqb_eq in Heq as ->. by apply list_elem_of_In.
  - intros Hc. exists c. split; [by apply list_elem_of_In | apply N.eqb_refl].
Qed.

Lemma contains_false (c : N) (s : list N) : Py.contains c s = false ↔ c ∉ s.
Proof. rewrite <- contains_spec. by destruct (Py.contains c s). Qed.

Lemma eqb_str_spec (a b : list N) : Py.eqb_str a b = true ↔ a = b.
Proof. unfold Py.eqb_str. apply bool_decide_eq_true. Qed.

Lemma eqb_str_false (a b : list N) : Py.eqb_str a b = false ↔ a ≠ b.
Proof. unfold Py.eqb_str. apply bool_decide_eq_false. Qed.

Lemma find_None (c : N) (s : list N) : Py.find c s = None ↔ c ∉ s.
Proof.
  induction s as [|x s IH]; simpl.
  - split; [intros _; apply not_elem_of_nil | done].
  - rewrite not_elem_of_cons. destruct (N.eqb_spec x c) as [->|Hne].
    + split; [done | intros [? _]; done].
    + destruct (Py.find c s); simpl.
      * split; [done | intros [_ Hs]; by apply IH in Hs].
      * split; [intros _; split; [done | by apply IH] | done].
Qed.

Lemma find_Some (c : N) (s : list N) (i : nat) :
  Py.find c s = Some i →
  ∃ a b, s = a ++ (c :: b) ∧ (c ∉ a) ∧ length a = i.
Proof.
  revert i. induction s as [|x s IH]; intros i; simpl; [done|].
  destruct (N.eqb_spec x c) as [->|Hne].
  - intros [= <-]. exists [], s. split; [done|]. split; [apply not_elem_of_nil | done].
  - destruct (Py.find c s) as [j|]; simpl; [|done].
    intros [= <-]. destruct (IH j eq_refl) as (a & b & -> & Ha & Hj).
    exists (x :: a), b. split; [done|]. split; [|simpl; lia].
    rewrite not_elem_of_cons. split; [done | done].
Qed.

Lemma find_app_here (c : N) (a b : list N) :
  c ∉ a → Py.find c (a ++ (c :: b)) = Some (length a).
Proof.
  induction a as [|x a IH]; simpl; intros Ha.
  - by rewrite N.eqb_refl.
  - apply not_elem_of_cons in Ha as [Hx Ha].
    destruct (N.eqb_spec x c); [done|]. by rewrite IH.
Qed.

Lemma find_app_absent (c : N) (a b : list N) :
  c ∉ b → Py.find c (a ++ b) = Py.find c a.
Proof.
  intros Hb. induction a as [|x a IH]; simpl.
  - by apply find_None.
  - destruct (x =? c); [done|]. by rewrite IH.
Qed.

Lemma find_lt_length (c : N) (s : list N) (i : nat) :
  Py.find c s = Some i → (i < length s)%nat.
Proof.
  intros (a & b & -> & _ & <-)%find_Some. rewrite length_app. simpl. lia.
Qed.

Lemma split_once_here (c : N) (a b : list N) :
  c ∉ a → Py.split_once c (a ++ (c :: b)) = Some (a, b).
Proof.
  intros Ha. unfold Py.split_once. rewrite find_app_here by done. simpl.
  rewrite take_app_length. f_equal. f_equal.
  rewrite cons_middle, app_assoc.
  replace (S (length a)) with (length (a ++ [c])) by (rewrite length_app; simpl; lia).
  by rewrite drop_app_length.
Qed.

Lemma split_once_None (c : N) (s : list N) :
  c ∉ s → Py.split_once c s = None.
Proof. intros Hs. unfold Py.split_once. by rewrite (proj2 (find_None c s) Hs). Qed.

Lemma split_once_Some (c : N) (s a b : list N) :
  Py.split_once c s = Some (a, b) → s = a ++ (c :: b) ∧ c ∉ a.
Proof.
  unfold Py.split_once. destruct (Py.find c s) as [i|] eqn:E; simpl; [|done].
  destruct (find_Some _ _ _ E) as (a' & b' & -> & Ha & <-).
  rewrite take_app_length. intros [= <- <-]. split; [|done]. f_equal.
  rewrite cons_middle, app_assoc.
  replace (S (length a')) with (length (a' ++ [c])) by (rewrite length_app; simpl; lia).
  by rewrite drop_app_length.
Qed.

(** *** Stripping *)

Lemma lstrip_all (p : N → bool) (s : list N) :
  Forall (fun c => p c = true) s → Py.lstrip p s = [].
Proof. induction 1 as [|x s Hx _ IH]; simpl; [done|]. by rewrite Hx. Qed.

Lemma lstrip_app_all (p : N → bool) (a b : list N) :
  Forall (fun c => p c = true) a → Py.lstrip p (a ++ b) = Py.lstrip p b.
Proof. induction 1 as [|x a Hx _ IH]; simpl; [done|]. by rewrite Hx. Qed.

Lemma lstrip_keep (p : N → bool) (x : N) (s : list N) :
  p x = false → Py.lstrip p (x :: s) = x :: s.
Proof. intros Hx. simpl. by rewrite Hx. Qed.

Lemma lstrip_split (p : N → bool) (s : list N) :
  ∃ a, s = a ++ Py.lstrip p s ∧ Forall (fun c => p c = true) a.
Proof.
  induction s as [|x s (a & Ha & Hall)]; simpl.
  - by exists [].
  - destruct (p x) eqn:Hx.
    + exists (x :: a). split; [simpl; congruence | by constructor].
    + by exists [].
Qed.

Lemma lstrip_head (p : N → bool) (s : list N) :
  match Py.lstrip p s with
  | [] => True
  | x :: _ => p x = false
  end.
Proof.
  induction s as [|x s IH]; simpl; [done|].
  destruct (p x) eqn:Hx; [done | done].
Qed.

Lemma lstrip_app_keep (p : N → bool) (a b : list N) :
  Py.lstrip p a ≠ [] → Py.lstrip p (a ++ b) = Py.lstrip p a ++ b.
Proof.
  induction a as [|x a IH]; simpl; [done|].
  destruct (p x); [done | done].
Qed.

Lemma lstrip_suffix (p : N → bool) (s : list N) : Py.lstrip p s `suffix_of` s.
Proof. destruct (lstrip_split p s) as (a & Ha & _). by exists a. Qed.

Lemma rstrip_snoc (p : N → bool) (s : list N) (x : N) :
  Py.rstrip p (s ++ [x]) = if p x then Py.rstrip p s else s ++ [x].
Proof.
  unfold Py.rstrip. rewrite List.rev_app_distr.
  change (rev [x] ++ rev s) with (x :: rev s). cbn [Py.lstrip].
  destruct (p x); [done|].
  change (rev (x :: rev s)) with (rev (rev s) ++ [x]). by rewrite List.rev_involutive.
Qed.

Lemma rstrip_nil (p : N → bool) : Py.rstrip p [] = [].
Proof. done. Qed.

Lemma rstrip_app_all (p : N → bool) (a b : list N) :
  Forall (fun c => p c = true) b → Py.rstrip p (a ++ b) = Py.rstrip p a.
Proof.
  intros Hb. unfold Py.rstrip. rewrite List.rev_app_distr.
  rewrite lstrip_app_all; [done|]. apply Forall_forall. intros c Hc.
  rewrite Forall_forall in Hb. apply Hb. apply list_elem_of_In.
  apply in_rev. by apply list_elem_of_In.
Qed.

Lemma rstrip_prefix (p : N → bool) (s : list N) : Py.rstrip p s `prefix_of` s.
Proof.
  unfold Py.rstrip. destruct (lstrip_suffix p (rev s)) as [a Ha].
  exists (rev a). apply (f_equal (@rev N)) in Ha.
  by rewrite List.rev_involutive, List.rev_app_distr in Ha.
Qed.

Lemma rstrip_last (p : N → bool) (s : list N) :
  match last (Py.rstrip p s) with
  | None => True
  | Some x => p x = false
  end.
Proof.
  unfold Py.rstrip. pose proof (lstrip_head p (rev s)) as Hh.
  destruct (Py.lstrip p (rev s)) as [|x t]; simpl; [done|].
  by rewrite last_snoc.
Qed.

Lemma rstrip_fixed (p : N → bool) (s : list N) :
  match last s with None => True | Some x => p x = false end →
  Py.rstrip p s = s.
Proof.
  destruct s as [|x s _] using rev_ind; [done|].
  rewrite last_snoc, rstrip_snoc. by intros ->.
Qed.

Lemma rstrip_idemp (p : N → bool) (s : list N) :
  Py.rstrip p (Py.rstrip p s) = Py.rstrip p s.
Proof. apply rstrip_fixed, rstrip_last. Qed.

Lemma remove_char_app (c : N) (a b : list N) :
  Py.remove c (a ++ b) = Py.remove c a ++ Py.remove c b.
Proof. apply filter_app. Qed.

Lemma remove_char_absent (c : N) (s : list N) : c ∉ s → Py.remove c s = s.
Proof.
  intros Hc. unfold Py.remove. induction s as [|x s IH]; [done|].
  apply not_elem_of_cons in Hc as [Hx Hs].
  rewrite filter_cons_True by done. by rewrite IH.
Qed.

Lemma remove_char_sublist (c : N) (s : list N) : Py.remove c s `sublist_of` s.
Proof. apply sublist_filter. Qed.

(** *** Lower case of ASCII text *)

Section Lower.
Context `{Runtime}.

Lemma lower_from_ascii (before s : list N) :
  ascii_text s → Py.lower_from before s = Py.lower_ascii <$> s.
Proof.
  intros Hs. revert before. induction Hs as [|c s Hc _ IH]; intros before; [done|].
  cbn [Py.lower_from]. apply N.ltb_lt in Hc. rewrite Hc.
  by rewrite IH.
Qed.

Lemma lower_ascii_text (s : list N) :
  ascii_text s → Py.lower s = Py.lower_ascii <$> s.
Proof. apply lower_from_ascii. Qed.
End Lower.

Lemma lower_ascii_lt (c : N) : c < 128 → Py.lower_ascii c < 128.
Proof.
  unfold Py.lower_ascii, Py.is_upper_ascii.
  destruct (N.leb_spec 0x41 c), (N.leb_spec c 0x5A); simpl; lia.
Qed.

Lemma lower_ascii_not_upper (c : N) : Py.is_upper_ascii (Py.lower_ascii c) = false.
Proof.
  unfold Py.lower_ascii, Py.is_upper_ascii.
  destruct (N.leb_spec 0x41 c), (N.leb_spec c 0x5A); simpl;
    repeat match goal with
           | |- context [N.leb ?a ?b] => destruct (N.leb_spec a b)
           end; simpl; try done; lia.
Qed.

Lemma lower_ascii_idemp (c : N) : Py.lower_ascii (Py.lower_ascii c) = Py.lower_ascii c.
Proof.
  unfold Py.lower_ascii at 1. by rewrite lower_ascii_not_upper.
Qed.

Lemma lower_ascii_fixed (c : N) :
  Py.is_upper_ascii c = false → Py.lower_ascii c = c.
Proof. unfold Py.lower_ascii. by intros ->. Qed.

Lemma ascii_text_app (a b : list N) :
  ascii_text (a ++ b) ↔ ascii_text a ∧ ascii_text b.
Proof. apply Forall_app. Qed.

Lemma ascii_text_py (s : string) :
  Py.is_ascii (py s) = true → ascii_text (py s).
Proof. apply is_ascii_spec. Qed.

Lemma ascii_text_sublist (a b : list N) :
  a `sublist_of` b → ascii_text b → ascii_text a.
Proof.
  unfold ascii_text. rewrite !Forall_forall. intros Hab Hb c Hc.
  apply Hb. by eapply elem_of_sublist.
Qed.

Lemma suffix_is_sublist {A} (a b : list A) : a `suffix_of` b → a `sublist_of` b.
Proof. intros [k ->]. by apply sublist_inserts_l. Qed.

Lemma prefix_is_sublist {A} (a b : list A) : a `prefix_of` b → a `sublist_of` b.
Proof. intros [k ->]. by apply sublist_inserts_r. Qed.

(** Goals [ascii_text s] for texts built from literals and known parts. *)
Ltac ascii_text_tac :=
  repeat first
    [ assumption
    | exact I
    | apply Forall_nil
    | match goal with |- Forall _ (if ?b then _ else _) => destruct b end
    | apply Forall_app; split
    | apply Forall_cons; split; [vm_compute; reflexivity|]
    | apply is_ascii_spec; vm_compute; reflexivity ].

(** ** [urllib.parse]: the steps of [urlsplit] *)

Section UrlSplit.
Context `{Runtime}.

Lemma urlsplit_eq (url : list N) :
  UrlParse.urlsplit url
  = let '(scheme, rest) := split_scheme (url_clean url) in
    '(netloc, rest) ← split_authority rest;
    let '(rest, fragment) := cut (chr "#") rest in
    let '(path, query) := cut (chr "?") rest in
    if UrlParse.checknetloc netloc
    then Ok (UrlParse.mkSplit scheme netloc path query fragment)
    else Raise ValueError.
Proof.
  unfold UrlParse.urlsplit, split_scheme, split_authority, cut, brackets_ok.
  fold (url_clean url). generalize (url_clean url). intros u.
  assert (Hrest : ∀ scheme rest,
    ('(netloc, url0) ← (if Py.eqb_str (take 2 rest) (py "//")
       then let '(netloc, url0) := UrlParse.splitnetloc rest 2 in
            let open_br := Py.contains (chr "[") netloc in
            let close_br := Py.contains (chr "]") netloc in
            if open_br && negb close_br || close_br && negb open_br
            then Raise ValueError
            else if open_br && close_br && negb (UrlParse.check_bracketed_netloc netloc)
                 then Raise ValueError else Ok (netloc, url0)
       else Ok ([], rest));
     let '(url1, fragment) :=
       match Py.split_once (chr "#") url0 with
       | Some (u0, f) => (u0, f)
       | None => (url0, [])
       end in
     let '(url2, query) :=
       match Py.split_once (chr "?") url1 with
       | Some (u0, q) => (u0, q)
       | None => (url1, [])
       end in
     if UrlParse.checknetloc netloc
     then Ok (UrlParse.mkSplit scheme netloc url2 query fragment)
     else Raise ValueError)
    = ('(netloc, rest0) ← (if Py.eqb_str (take 2 rest) (py "//")
         then let '(netloc, url0) := UrlParse.splitnetloc rest 2 in
              if negb (Py.contains (chr "[") netloc && negb (Py.contains (chr "]") netloc)
                       || Py.contains (chr "]") netloc && negb (Py.contains (chr "[") netloc))
                 && negb (Py.contains (chr "[") netloc && Py.contains (chr "]") netloc
                          && negb (UrlParse.check_bracketed_netloc netloc))
              then Ok (netloc, url0) else Raise ValueError
         else Ok ([], rest));
       let '(rest1, fragment) :=
         match Py.split_once (chr "#") rest0 with
         | Some parts => parts
         | None => (rest0, [])
         end in
       let '(path, query) :=
         match Py.split_once (chr "?") rest1 with
         | Some parts => parts
         | None => (rest1, [])
         end in
       if UrlParse.checknetloc netloc
       then Ok (UrlParse.mkSplit scheme netloc path query fragment)
       else Raise ValueError)).
  { intros scheme rest. repeat (case_match; simpl; simplify_eq; try done). }
  destruct (Py.find (chr ":") u) as [[|i']|]; [apply Hrest| |apply Hrest].
  destruct (Py.is_alpha_ascii (hd 0 u)
            && forallb (λ c, Py.contains c UrlParse.scheme_chars) (take (S i') u));
    apply Hrest.
Qed.
End UrlSplit.

(** ** ASCII text stays ASCII *)

Lemma url_clean_sublist (url : list N) : url_clean url `sublist_of` url.
Proof.
  unfold url_clean. cbn.
  repeat (etrans; [apply remove_char_sublist|]).
  apply suffix_is_sublist, lstrip_suffix.
Qed.

Lemma cut_sublist (c : N) (s a b : list N) :
  cut c s = (a, b) → a `sublist_of` s ∧ b `sublist_of` s.
Proof.
  unfold cut. destruct (Py.split_once c s) as [[a' b']|] eqn:E.
  - intros [= -> ->]. apply split_once_Some in E as [-> _]. split.
    + by apply sublist_inserts_r.
    + apply sublist_inserts_l. by apply sublist_cons.
  - intros [= <- <-]. split; [done | apply sublist_nil_l].
Qed.

Lemma splitnetloc_sublist (url : list N) (start : nat) (netloc rest : list N) :
  UrlParse.splitnetloc url start = (netloc, rest) →
  netloc `sublist_of` url ∧ rest `sublist_of` url.
Proof.
  unfold UrlParse.splitnetloc. intros [= <- <-]. split.
  - etrans; [apply sublist_drop | apply sublist_take].
  - apply sublist_drop.
Qed.

Lemma splitparams_sublist (url a b : list N) :
  UrlParse.splitparams url = (a, b) → a `sublist_of` url ∧ b `sublist_of` url.
Proof.
  unfold UrlParse.splitparams.
  repeat case_match; intros [= <- <-];
    auto using sublist_take, sublist_drop, sublist_nil_l.
Qed.

Section AsciiStays.
Context `{Runtime}.

Lemma split_scheme_ascii (u scheme rest : list N) :
  ascii_text u → split_scheme u = (scheme, rest) →
  ascii_text scheme ∧ rest `sublist_of` u.
Proof.
  intros Hu. unfold split_scheme.
  destruct (Py.find (chr ":") u) as [[|i']|];
    try (intros [= <- <-]; split; [constructor | done]).
  destruct (_ && _).
  - intros [= <- <-]. split; [|apply sublist_drop].
    assert (Ht : ascii_text (take (S i') u)).
    { eapply ascii_text_sublist; [apply sublist_take | done]. }
    rewrite (lower_ascii_text _ Ht). unfold ascii_text.
    apply Forall_fmap. eapply Forall_impl; [exact Ht|]. apply lower_ascii_lt.
  - intros [= <- <-]. split; [constructor | done].
Qed.

Lemma split_authority_sublist (u netloc rest : list N) :
  split_authority u = Ok (netloc, rest) →
  netloc `sublist_of` u ∧ rest `sublist_of` u.
Proof.
  unfold split_authority. destruct (Py.eqb_str _ _).
  - destruct (UrlParse.splitnetloc u 2) as [n r] eqn:E.
    destruct (brackets_ok n); [|done]. intros [= <- <-].
    by apply splitnetloc_sublist in E.
  - intros [= <- <-]. split; [apply sublist_nil_l | done].
Qed.

Lemma urlsplit_ascii (url : list N) (r : UrlParse.SplitResult) :
  ascii_text url → UrlParse.urlsplit url = Ok r →
  ascii_text (UrlParse.s_scheme r) ∧ ascii_text (UrlParse.s_netloc r)
  ∧ ascii_text (UrlParse.s_path r) ∧ ascii_text (UrlParse.s_query r)
  ∧ ascii_text (UrlParse.s_fragment r).
Proof.
  intros Hurl. rewrite urlsplit_eq.
  assert (Hc : ascii_text (url_clean url)).
  { eapply ascii_text_sublist; [apply url_clean_sublist | done]. }
  destruct (split_scheme (url_clean url)) as [scheme rest] eqn:Es.
  destruct (split_scheme_ascii _ _ _ Hc Es) as [Hscheme Hrest%(fun h => ascii_text_sublist _ _ h Hc)].
  destruct (split_authority rest) as [[netloc rest1]|] eqn:Ea; cbn; [|done].
  destruct (split_authority_sublist _ _ _ Ea) as
    [Hn%(fun h => ascii_text_sublist _ _ h Hrest) Hr1%(fun h => ascii_text_sublist _ _ h Hrest)].
  destruct (cut (chr "#") rest1) as [rest2 fragment] eqn:Ef. cbv beta iota.
  destruct (cut_sublist _ _ _ _ Ef) as
    [Hr2%(fun h => ascii_text_sublist _ _ h Hr1) Hf%(fun h => ascii_text_sublist _ _ h Hr1)].
  destruct (cut (chr "?") rest2) as [path query] eqn:Eq. cbv beta iota.
  destruct (cut_sublist _ _ _ _ Eq) as
    [Hp%(fun h => ascii_text_sublist _ _ h Hr2) Hq%(fun h => ascii_text_sublist _ _ h Hr2)].
  destruct (UrlParse.checknetloc netloc); [|done].
  intros [= <-]. cbn. auto.
Qed.

Lemma urlparse_ascii (url : list N) (p : UrlParse.ParseResult) :
  ascii_text url → UrlParse.urlparse url = Ok p →
  ascii_text (UrlParse.scheme p) ∧ ascii_text (UrlParse.netloc p)
  ∧ ascii_text (UrlParse.path p) ∧ ascii_text (UrlParse.params p)
  ∧ ascii_text (UrlParse.query p) ∧ ascii_text (UrlParse.fragment p).
Proof.
  intros Hurl. unfold UrlParse.urlparse.
  destruct (UrlParse.urlsplit url) as [[scheme netloc path query fragment]|] eqn:E;
    cbn; [|done].
  destruct (urlsplit_ascii _ _ Hurl E) as (Hs & Hn & Hp & Hq & Hf). cbn in *.
  destruct (_ && _).
  - destruct (UrlParse.splitparams path) as [a b] eqn:Ep.
    destruct (splitparams_sublist _ _ _ Ep) as
      [Ha%(fun h => ascii_text_sublist _ _ h Hp) Hb%(fun h => ascii_text_sublist _ _ h Hp)].
    intros [= <-]. cbn. auto 10.
  - intros [= <-]. cbn. repeat split; auto. constructor.
Qed.
End AsciiStays.

(** *** [urlencode] writes ASCII *)

Lemma hexdigit_upper_ascii (n : N) : UrlParse.hexdigit_upper n < 128.
Proof.
  unfold UrlParse.hexdigit_upper.
  assert (Hall : Forall (fun c => c < 128) (py "0123456789ABCDEF")).
  { apply is_ascii_spec. vm_compute. reflexivity. }
  destruct (py "0123456789ABCDEF" !! N.to_nat n) as [c|] eqn:E.
  - rewrite (nth_lookup_Some _ _ _ _ E). by eapply (Forall_lookup_1 _ _ _ _ Hall).
  - rewrite nth_overflow; [done|]. by apply lookup_ge_None.
Qed.

Lemma always_safe_ascii (n : N) : UrlParse.always_safe n = true → n < 128.
Proof.
  unfold UrlParse.always_safe, Py.is_alpha_ascii, Py.is_upper_ascii,
    Py.is_lower_ascii, Py.is_digit_ascii.
  rewrite !orb_true_iff, !andb_true_iff, !N.leb_le, contains_spec.
  intros [[[[? ?]|[? ?]]|[? ?]]|Hin]; try lia.
  vm_compute in Hin.
  repeat (apply elem_of_cons in Hin as [-> | Hin]; [done|]).
  by apply elem_of_nil in Hin.
Qed.

Lemma quote_from_bytes_ascii (bs : list byte) (safe : list N) :
  ascii_text safe → ascii_text (UrlParse.quote_from_bytes bs safe).
Proof.
  intros Hsafe. unfold UrlParse.quote_from_bytes, ascii_text.
  induction bs as [|b bs IH]; cbn; [constructor|].
  apply Forall_app. split; [|done]. unfold UrlParse.quoter.
  destruct (orb _ _) eqn:E.
  - constructor; [|constructor]. apply orb_true_iff in E as [E|E].
    + by apply always_safe_ascii.
    + apply contains_spec in E. unfold ascii_text in Hsafe.
      rewrite Forall_forall in Hsafe. by apply Hsafe.
  - repeat constructor; auto using hexdigit_upper_ascii.
Qed.

Lemma quote_ascii (s safe q : list N) :
  ascii_text safe → UrlParse.quote s safe = Ok q → ascii_text q.
Proof.
  intros Hsafe. unfold UrlParse.quote. destruct (negb (truthy s)) eqn:E.
  - intros [= <-]. destruct s; [constructor | done].
  - destruct (Utf8.encode s) as [bs|]; cbn; [|done].
    intros [= <-]. by apply quote_from_bytes_ascii.
Qed.

Lemma replace_ascii (a b : N) (s : list N) :
  b < 128 → ascii_text s → ascii_text (Py.replace a b s).
Proof.
  intros Hb Hs. unfold Py.replace, ascii_text. apply Forall_fmap.
  eapply Forall_impl; [exact Hs|]. intros x Hx. cbn. by destruct (x =? a).
Qed.

Lemma quote_plus_ascii (s q : list N) : UrlParse.quote_plus s = Ok q → ascii_text q.
Proof.
  unfold UrlParse.quote_plus. destruct (negb _).
  - apply quote_ascii. constructor.
  - destruct (UrlParse.quote s (py " ")) as [q'|] eqn:E; cbn; [|done].
    intros [= <-]. apply replace_ascii; [done|].
    eapply quote_ascii; [|exact E]. apply is_ascii_spec; vm_compute; reflexivity.
Qed.

Lemma join_ascii (sep : list N) (parts : list (list N)) :
  ascii_text sep → Forall ascii_text parts → ascii_text (Py.join sep parts).
Proof.
  intros Hsep. induction 1 as [|p ps Hp Hps IH]; [constructor|].
  destruct ps as [|p' ps]; [done|]. cbn [Py.join].
  apply ascii_text_app. split; [done|]. apply ascii_text_app. split; [done|]. done.
Qed.

Lemma urlencode_ascii (pairs : list (list N * list N)) (q : list N) :
  UrlParse.urlencode pairs = Ok q → ascii_text q.
Proof.
  unfold UrlParse.urlencode.
  destruct (result_mapM _ pairs) as [l|] eqn:E; cbn; [|done].
  intros [= <-]. apply join_ascii; [apply is_ascii_spec; vm_compute; reflexivity|].
  revert l E. induction pairs as [|[k v] pairs IH]; intros l; cbn.
  - intros [= <-]. constructor.
  - destruct (UrlParse.quote_plus k) as [k'|] eqn:Ek; cbn; [|done].
    destruct (UrlParse.quote_plus v) as [v'|] eqn:Ev; cbn; [|done].
    destruct (result_mapM _ pairs) as [l'|]; cbn; [|done].
    intros [= <-]. constructor; [|by apply IH].
    pose proof (quote_plus_ascii _ _ Ek). pose proof (quote_plus_ascii _ _ Ev).
    unfold ascii_text in *. ascii_text_tac.
Qed.

Lemma urlunparse_ascii (c : UrlParse.ParseResult) :
  ascii_text (UrlParse.scheme c) → ascii_text (UrlParse.netloc c) →
  ascii_text (UrlParse.path c) → ascii_text (UrlParse.params c) →
  ascii_text (UrlParse.query c) → ascii_text (UrlParse.fragment c) →
  ascii_text (UrlParse.urlunparse c).
Proof.
  destruct c as [scheme netloc path params query fragment]. cbn.
  intros Hs Hn Hp Hpa Hq Hf.
  unfold UrlParse.urlunparse, UrlParse.urlunsplit, ascii_text in *.
  cbv zeta. ascii_text_tac.
Qed.

Lemma split_hd_prefix (c : N) (s : list N) : hd [] (Py.split c s) `prefix_of` s.
Proof.
  induction s as [|x s IH]; cbn; [done|].
  destruct (x =? c); cbn; [apply prefix_nil|].
  destruct (Py.split c s) as [|w ws]; cbn in *.
  - apply prefix_cons, prefix_nil.
  - by apply prefix_cons.
Qed.

(** ** [normalize_url]: the result is in lower case *)

Lemma strip_sublist (p : N → bool) (s : list N) : Py.strip p s `sublist_of` s.
Proof.
  unfold Py.strip. etrans.
  - apply prefix_is_sublist, rstrip_prefix.
  - apply suffix_is_sublist, lstrip_suffix.
Qed.

Section LowerCase.
Context `{Runtime}.

Lemma normalize_url_unfold (url : list N) (kf : bool) (new_url : list N) :
  normalize_url url kf = Ok new_url →
  ∃ p q,
    UrlParse.urlparse (Py.strip Py.isspace url) = Ok p
    ∧ sorted_query (UrlParse.query p) = Ok q
    ∧ new_url =
        let whole :=
          Py.lower
            (UrlParse.geturl
               (UrlParse.mkParse (UrlParse.scheme p) (UrlParse.netloc p)
                  (Py.rstrip (N.eqb (chr "/")) (UrlParse.path p))
                  (UrlParse.params p) q (UrlParse.fragment p))) in
        if negb kf then hd [] (Py.split (chr "#") whole) else whole.
Proof.
  unfold normalize_url.
  destruct (UrlParse.urlparse _) as [p|] eqn:Ep; cbn [mbind result_bind]; [|done].
  destruct (sorted_query _) as [q|] eqn:Eq; cbn [mbind result_bind]; [|done].
  intros Heq. exists p, q. split; [done|]. split; [done|].
  by injection Heq as <-.
Qed.

Lemma normalize_url_ascii_lower (url : list N) (kf : bool) (new_url : list N) :
  ascii_text url → normalize_url url kf = Ok new_url →
  Forall (fun c => c < 128 ∧ Py.is_upper_ascii c = false) new_url.
Proof.
  intros Hurl (p & q & Hp & Hq & ->)%normalize_url_unfold.
  assert (Hs : ascii_text (Py.strip Py.isspace url)).
  { eapply ascii_text_sublist; [apply strip_sublist | done]. }
  destruct (urlparse_ascii _ _ Hs Hp) as (Hsc & Hn & Hpa & Hpr & _ & Hf).
  apply urlencode_ascii in Hq.
  set (c := UrlParse.mkParse _ _ _ _ _ _).
  assert (Hg : ascii_text (UrlParse.geturl c)).
  { apply urlunparse_ascii; subst c; cbn; try done.
    eapply ascii_text_sublist; [|exact Hpa].
    apply prefix_is_sublist, rstrip_prefix. }
  cbv zeta. rewrite (lower_ascii_text _ Hg).
  assert (Hl : Forall (fun c => c < 128 ∧ Py.is_upper_ascii c = false)
                      (Py.lower_ascii <$> UrlParse.geturl c)).
  { apply Forall_fmap. eapply Forall_impl; [exact Hg|].
    intros x Hx. split; [by apply lower_ascii_lt | apply lower_ascii_not_upper]. }
  destruct (negb kf); [|done].
  rewrite Forall_forall in Hl |- *. intros x Hx. apply Hl.
  eapply elem_of_prefix; [exact Hx | apply split_hd_prefix].
Qed.
End LowerCase.

(** ** The order of [str] *)

Lemma str_leb_refl (a : list N) : str_leb a a = true.
Proof.
  induction a as [|x a IH]; [done|]. cbn. by rewrite N.ltb_irrefl.
Qed.

Lemma str_leb_total (a b : list N) : str_leb a b = true ∨ str_leb b a = true.
Proof.
  revert b. induction a as [|x a IH]; intros [|y b]; cbn; auto.
  destruct (N.ltb_spec x y), (N.ltb_spec y x); auto; lia.
Qed.

Lemma str_leb_trans (a b c : list N) :
  str_leb a b = true → str_leb b c = true → str_leb a c = true.
Proof.
  revert b c. induction a as [|x a IH]; intros [|y b] [|z c]; cbn; try done.
  destruct (N.ltb_spec x y), (N.ltb_spec y x), (N.ltb_spec y z), (N.ltb_spec z y),
    (N.ltb_spec x z), (N.ltb_spec z x); try done; try lia.
  apply IH.
Qed.

Lemma str_leb_antisym (a b : list N) :
  str_leb a b = true → str_leb b a = true → a = b.
Proof.
  revert b. induction a as [|x a IH]; intros [|y b]; cbn; try done.
  destruct (N.ltb_spec x y), (N.ltb_spec y x); try done; try lia.
  intros Hab Hba. f_equal; [lia | by apply IH].
Qed.

#[global] Instance str_le_refl : Reflexive str_le.
Proof. intros a. unfold str_le. by rewrite str_leb_refl. Qed.

#[global] Instance str_le_trans : Transitive str_le.
Proof.
  intros a b c. unfold str_le. rewrite !Is_true_true. apply str_leb_trans.
Qed.

#[global] Instance str_le_total : Total str_le.
Proof.
  intros a b. unfold str_le. rewrite !Is_true_true. apply str_leb_total.
Qed.

#[global] Instance str_le_antisym : AntiSymm (=) str_le.
Proof.
  intros a b. unfold str_le. rewrite !Is_true_true. apply str_leb_antisym.
Qed.

Lemma sorted_spec (l : list (list N)) :
  StronglySorted str_le (sorted l) ∧ sorted l ≡ₚ l.
Proof.
  unfold sorted. split.
  - apply StronglySorted_merge_sort; apply _.
  - apply merge_sort_Permutation.
Qed.

Lemma StronglySorted_strict (l : list (list N)) :
  StronglySorted str_le l → NoDup l → StronglySorted str_lt l.
Proof.
  induction 1 as [|x l Hl IH Hx]; intros Hnd; [constructor|].
  apply NoDup_cons in Hnd as [Hnotin Hnd]. constructor; [by apply IH|].
  rewrite Forall_forall in Hx |- *. intros y Hy. split; [by apply Hx|].
  by intros ->.
Qed.

(** ** Dictionaries *)

Lemma dict_foldl_lookup (pairs : list (list N * list N)) (d : gmap (list N) (list N))
    (k : list N) :
  foldl (fun d kv => <[kv.1 := kv.2]> d) d pairs !! k
  = match last_value pairs k with
    | Some v => Some v
    | None => d !! k
    end.
Proof.
  revert d. induction pairs as [|[k' v] pairs IH]; intros d; [done|].
  cbn [foldl last_value]. rewrite IH.
  destruct (last_value pairs k) as [v'|]; [done|]. cbn.
  case_bool_decide as Hk.
  - subst. by rewrite lookup_insert_eq.
  - by rewrite lookup_insert_ne.
Qed.

Lemma dict_lookup (pairs : list (list N * list N)) (k : list N) :
  dict pairs !! k = last_value pairs k.
Proof.
  unfold dict. rewrite dict_foldl_lookup.
  by destruct (last_value pairs k).
Qed.

Lemma search_params_lookup (query k v : list N) :
  search_params query !! k = Some v
  ↔ last_value (UrlParse.parse_qsl query) k = Some v
    ∧ Py.startswith (py "utm_") k = false.
Proof.
  unfold search_params. rewrite map_lookup_filter_Some, dict_lookup. cbn.
  destruct (Py.startswith (py "utm_") k); cbn; intuition; done.
Qed.

Lemma keys_spec (d : gmap (list N) (list N)) :
  NoDup (keys d) ∧ ∀ k, k ∈ keys d ↔ is_Some (d !! k).
Proof.
  unfold keys. split.
  - apply NoDup_fst_map_to_list.
  - intros k. rewrite list_elem_of_fmap. split.
    + intros ([k' v] & -> & Hkv%elem_of_map_to_list). eauto.
    + intros [v Hv]. exists (k, v). split; [done|]. by apply elem_of_map_to_list.
Qed.

(** ** The rebuilt query *)

Lemma sorted_pairs_keys (query : list N) :
  (sorted_pairs query).*1 = sorted (keys (search_params query)).
Proof.
  unfold sorted_pairs. rewrite <- list_fmap_compose.
  rewrite <- (list_fmap_id (sorted _)) at 2. by apply list_fmap_ext.
Qed.

Lemma sorted_pairs_elem_of (query k v : list N) :
  (k, v) ∈ sorted_pairs query ↔ search_params query !! k = Some v.
Proof.
  unfold sorted_pairs. rewrite list_elem_of_fmap. split.
  - intros (k' & [= -> ->] & Hk).
    destruct (sorted_spec (keys (search_params query))) as [_ Hperm].
    rewrite Hperm in Hk. apply keys_spec in Hk as [v Hv].
    unfold getitem. by rewrite Hv.
  - intros Hkv. exists k. split.
    + unfold getitem. by rewrite Hkv.
    + destruct (sorted_spec (keys (search_params query))) as [_ Hperm].
      rewrite Hperm. apply keys_spec. eauto.
Qed.

Lemma sorted_pairs_strictly_sorted (query : list N) :
  StronglySorted str_lt (sorted_pairs query).*1.
Proof.
  rewrite sorted_pairs_keys.
  destruct (sorted_spec (keys (search_params query))) as [Hs Hperm].
  apply StronglySorted_strict; [done|]. rewrite Hperm. apply keys_spec.
Qed.

(** ** The UTF-8 encoding *)

(** Linear arithmetic with division and remainder by constants. *)
Ltac div_mod_lia := zify; Z.to_euclidean_division_equations; lia.

Lemma utf8_bytes_bound (c : N) :
  c < 0x110000 → Forall (fun b => b < 256) (utf8_bytes c).
Proof.
  intros Hc. unfold utf8_bytes.
  destruct (N.ltb_spec c 0x80);
    [|destruct (N.ltb_spec c 0x800); [|destruct (N.ltb_spec c 0x10000)]];
    repeat (apply Forall_cons; split); try apply Forall_nil; div_mod_lia.
Qed.

Lemma encode_char_bytes (c : N) (bs : list byte) :
  Utf8.encode_char c = Ok bs →
  scalar_value c ∧ Byte.to_N <$> bs = utf8_bytes c.
Proof.
  intros Hbs. assert (Hsc : scalar_value c) by (apply encode_char_Ok; eauto).
  split; [done|].
  assert (Hc : c < 0x110000) by (destruct Hsc; lia).
  pose proof (utf8_bytes_bound c Hc) as Hb.
  revert Hbs Hb. unfold Utf8.encode_char, utf8_bytes.
  destruct (c <? 0x80); [|destruct (c <? 0x800); [|destruct (c <? 0x10000);
    [destruct (_ && _); [done|] | destruct (c <? 0x110000); [|done]]]];
    intros [= <-] Hb; cbn [fmap list_fmap];
    repeat match goal with
           | H : Forall _ (_ :: _) |- _ => apply Forall_cons in H as [? H]
           end;
    rewrite ?byte_of_to_N by done; done.
Qed.

Lemma encode_bytes (s : list N) (bs : list byte) :
  Utf8.encode s = Ok bs →
  encodable s ∧ Byte.to_N <$> bs = flat_map utf8_bytes s.
Proof.
  intros Hbs. split; [apply encode_Ok; eauto|].
  revert bs Hbs. unfold Utf8.encode.
  induction s as [|c s IH]; intros bs; cbn.
  - by intros [= <-].
  - destruct (Utf8.encode_char c) as [b|] eqn:Ec; cbn; [|done].
    destruct (result_mapM Utf8.encode_char s) as [l|]; cbn in *; [|done].
    intros [= <-]. rewrite fmap_app.
    rewrite (IH (concat l) eq_refl). f_equal.
    by apply encode_char_bytes in Ec as [_ ->].
Qed.

Lemma utf8_bytes_nonempty (c : N) : utf8_bytes c ≠ [].
Proof. unfold utf8_bytes. by repeat case_match. Qed.

(** Two scalar values in order have encodings that first differ in order. *)
Lemma utf8_bytes_mono (c1 c2 : N) :
  c1 < c2 → c2 < 0x110000 →
  ∃ p x1 x2 r1 r2,
    x1 < x2 ∧ utf8_bytes c1 = p ++ x1 :: r1 ∧ utf8_bytes c2 = p ++ x2 :: r2.
Proof.
  intros Hlt Hc2. unfold utf8_bytes.
  destruct (N.ltb_spec c1 0x80), (N.ltb_spec c2 0x80); try lia.
  { exists [], c1, c2, [], []. done. }
  { destruct (N.ltb_spec c2 0x800); [|destruct (N.ltb_spec c2 0x10000)];
      eexists [], _, _, _, _; (split; [|split; reflexivity]); div_mod_lia. }
  destruct (N.ltb_spec c1 0x800), (N.ltb_spec c2 0x800); try lia.
  { destruct (N.eq_dec (c1 / 64) (c2 / 64)) as [E|E].
    - rewrite E. eexists [_], _, _, _, _. split; [|split; reflexivity]. div_mod_lia.
    - eexists [], _, _, _, _. split; [|split; reflexivity]. div_mod_lia. }
  { destruct (N.ltb_spec c2 0x10000);
      eexists [], _, _, _, _; (split; [|split; reflexivity]); div_mod_lia. }
  destruct (N.ltb_spec c1 0x10000), (N.ltb_spec c2 0x10000); try lia.
  { destruct (N.eq_dec (c1 / 4096) (c2 / 4096)) as [E|E].
    - rewrite E. destruct (N.eq_dec ((c1 / 64) mod 64) ((c2 / 64) mod 64)) as [E'|E'].
      + rewrite E'. eexists [_; _], _, _, _, _. split; [|split; reflexivity].
        div_mod_lia.
      + eexists [_], _, _, _, _. split; [|split; reflexivity]. div_mod_lia.
    - eexists [], _, _, _, _. split; [|split; reflexivity]. div_mod_lia. }
  { eexists [], _, _, _, _. split; [|split; reflexivity]. div_mod_lia. }
  destruct (N.eq_dec (c1 / 262144) (c2 / 262144)) as [E|E].
  - rewrite E. destruct (N.eq_dec ((c1 / 4096) mod 64) ((c2 / 4096) mod 64)) as [E'|E'].
    + rewrite E'.
      destruct (N.eq_dec ((c1 / 64) mod 64) ((c2 / 64) mod 64)) as [E''|E''].
      * rewrite E''. eexists [_; _; _], _, _, _, _. split; [|split; reflexivity].
        div_mod_lia.
      * eexists [_; _], _, _, _, _. split; [|split; reflexivity]. div_mod_lia.
    + eexists [_], _, _, _, _. split; [|split; reflexivity]. div_mod_lia.
  - eexists [], _, _, _, _. split; [|split; reflexivity]. div_mod_lia.
Qed.

(** ** Code point order is byte order *)

Lemma str_lt_cons (x y : N) (a b : list N) :
  str_lt (x :: a) (y :: b) ↔ x < y ∨ (x = y ∧ str_lt a b).
Proof.
  unfold str_lt, str_le. cbn.
  destruct (N.ltb_spec x y), (N.ltb_spec y x); try lia.
  - split; [auto|]. intros _. split; [done|]. intros [= ? ?]. lia.
  - split; [intros [[] _]|intros [?|[? _]]; lia].
  - assert (x = y) as -> by lia. split.
    + intros [? Hne]. right. split; [done|]. split; [done|]. congruence.
    + intros [?|[_ [? Hne]]]; [lia|]. split; [done|]. congruence.
Qed.

Lemma str_lt_nil_l (b : list N) : str_lt [] b ↔ b ≠ [].
Proof. unfold str_lt, str_le. cbn. split; [intros [_ ?]; congruence | auto]. Qed.

Lemma str_lt_nil_r (a : list N) : ¬ str_lt a [].
Proof. unfold str_lt, str_le. destruct a; cbn; [intros [_ ?]; done | intros [[] _]]. Qed.

Lemma str_lt_cases (a b : list N) :
  str_lt a b →
  (∃ t, t ≠ [] ∧ b = a ++ t)
  ∨ (∃ p x y r r', x < y ∧ a = p ++ x :: r ∧ b = p ++ y :: r').
Proof.
  revert b. induction a as [|x a IH]; intros b Hlt.
  - left. exists b. split; [by apply str_lt_nil_l | done].
  - destruct b as [|y b]; [by apply str_lt_nil_r in Hlt|].
    apply str_lt_cons in Hlt as [Hxy|[-> Hlt]].
    + right. by exists [], x, y, a, b.
    + destruct (IH b Hlt) as [(t & Ht & ->)|(p & x & y' & r & r' & Hxy & -> & ->)].
      * left. by exists t.
      * right. by exists (y :: p), x, y', r, r'.
Qed.

Lemma str_lt_app (p a b : list N) : str_lt a b → str_lt (p ++ a) (p ++ b).
Proof.
  intros Hab. induction p as [|x p IH]; [done|].
  cbn. apply str_lt_cons. auto.
Qed.

Lemma str_lt_differ (p : list N) (x y : N) (r r' : list N) :
  x < y → str_lt (p ++ x :: r) (p ++ y :: r').
Proof. intros Hxy. apply str_lt_app, str_lt_cons. auto. Qed.

Lemma flat_map_utf8_nonempty (t : list N) : t ≠ [] → flat_map utf8_bytes t ≠ [].
Proof.
  destruct t as [|c t]; [done|]. intros _. cbn.
  pose proof (utf8_bytes_nonempty c). by destruct (utf8_bytes c).
Qed.

Lemma utf8_order (a b : list N) :
  encodable b → str_lt a b → str_lt (flat_map utf8_bytes a) (flat_map utf8_bytes b).
Proof.
  intros Hb [(t & Ht & ->)|(p & x & y & r & r' & Hxy & -> & ->)]%str_lt_cases.
  - rewrite flat_map_app. rewrite <- (app_nil_r (flat_map utf8_bytes a)) at 1.
    apply str_lt_app, str_lt_nil_l. by apply flat_map_utf8_nonempty.
  - assert (Hy : y < 0x110000).
    { apply Forall_app in Hb as [_ Hb]. apply Forall_cons in Hb as [[?|[_ ?]] _]; lia. }
    destruct (utf8_bytes_mono x y Hxy Hy) as (q & x1 & x2 & r1 & r2 & Hx & E1 & E2).
    rewrite !flat_map_app. cbn [flat_map]. rewrite E1, E2, <- !app_assoc.
    apply str_lt_app, str_lt_app. cbn. apply str_lt_cons. auto.
Qed.

Lemma encode_order (a b : list N) (ba bb : list byte) :
  Utf8.encode a = Ok ba → Utf8.encode b = Ok bb →
  str_lt a b → bytes_lt ba bb.
Proof.
  intros [_ Ha]%encode_bytes [Hb Hbb]%encode_bytes Hlt.
  unfold bytes_lt. rewrite Ha, Hbb. by apply utf8_order.
Qed.

Lemma result_mapM_Forall2 {A B} (f : A → result B) (l : list A) (l' : list B) :
  result_mapM f l = Ok l' ↔ Forall2 (fun x y => f x = Ok y) l l'.
Proof.
  revert l'. induction l as [|x l IH]; intros l'; cbn.
  - split; [intros [= <-]; constructor | by inversion 1].
  - destruct (f x) as [y|e] eqn:E; cbn.
    + destruct (result_mapM f l) as [ys|e] eqn:E'; cbn.
      * split.
        -- intros [= <-]. constructor; [done|]. by apply IH.
        -- inversion 1 as [|? y' ? ys' Hy Hys]; subst. apply IH in Hys.
           congruence.
      * split; [done|]. inversion 1 as [|? y' ? ys' Hy Hys]; subst.
        apply IH in Hys. done.
    + split; [done|]. inversion 1; congruence.
Qed.

Lemma StronglySorted_encoded (ks : list (list N)) (eks : list (list byte)) :
  Forall2 (fun k ek => Utf8.encode k = Ok ek) ks eks →
  StronglySorted str_lt ks → StronglySorted bytes_lt eks.
Proof.
  induction 1 as [|k ek ks eks Hk Hks IH]; intros Hs; [constructor|].
  apply StronglySorted_inv in Hs as [Hs Hall]. constructor; [by apply IH|].
  clear IH Hs. induction Hks as [|k' ek' ks eks Hk' _ IH]; [constructor|].
  apply Forall_cons in Hall as [Hlt Hall]. constructor; [|by apply IH].
  by eapply encode_order.
Qed.

(** ** [quote_plus] is percent-encoding *)

Lemma hexdigit_upper_not_space (n : N) : UrlParse.hexdigit_upper n ≠ 0x20.
Proof.
  unfold UrlParse.hexdigit_upper.
  assert (Hall : Forall (fun c => c ≠ 0x20) (py "0123456789ABCDEF")).
  { apply Forall_forall. intros c Hc. vm_compute in Hc.
    repeat (apply elem_of_cons in Hc as [-> | Hc]; [done|]).
    by apply elem_of_nil in Hc. }
  destruct (py "0123456789ABCDEF" !! N.to_nat n) as [c|] eqn:E.
  - rewrite (nth_lookup_Some _ _ _ _ E). by eapply (Forall_lookup_1 _ _ _ _ Hall).
  - rewrite nth_overflow; [done|]. by apply lookup_ge_None.
Qed.

Lemma always_safe_not_space (n : N) : UrlParse.always_safe n = true → n ≠ 0x20.
Proof. intros Hs ->. vm_compute in Hs. done. Qed.

Lemma quoter_space (b : byte) :
  Py.replace (chr " ") (chr "+") (UrlParse.quoter (py " ") b) = percent_encode_byte b.
Proof.
  unfold UrlParse.quoter, percent_encode_byte. cbv zeta.
  destruct (UrlParse.always_safe (Byte.to_N b)) eqn:Es; cbn [orb].
  - cbn. apply always_safe_not_space in Es.
    destruct (N.eqb_spec (Byte.to_N b) (chr " ")); [done|done].
  - change (Py.contains (Byte.to_N b) (py " ")) with ((Byte.to_N b =? 0x20) || false).
    rewrite orb_false_r. destruct (N.eqb_spec (Byte.to_N b) 0x20) as [->|Hne].
    + reflexivity.
    + cbn [Py.replace map].
      change (chr "%" =? chr " ") with false. cbv iota.
      destruct (N.eqb_spec (UrlParse.hexdigit_upper (Byte.to_N b / 16)) (chr " ")) as [E|_];
        [by apply hexdigit_upper_not_space in E|].
      destruct (N.eqb_spec (UrlParse.hexdigit_upper (Byte.to_N b mod 16)) (chr " ")) as [E|_];
        [by apply hexdigit_upper_not_space in E|].
      done.
Qed.

Lemma quoter_plain (b : byte) :
  Byte.to_N b ≠ 0x20 → UrlParse.quoter [] b = percent_encode_byte b.
Proof.
  intros Hb. unfold UrlParse.quoter, percent_encode_byte. cbv zeta.
  destruct (UrlParse.always_safe (Byte.to_N b)); cbn [orb Py.contains existsb]; [done|].
  by destruct (N.eqb_spec (Byte.to_N b) 0x20).
Qed.

Lemma utf8_bytes_space (c : N) : c < 0x110000 → 0x20 ∈ utf8_bytes c → c = 0x20.
Proof.
  intros Hc. unfold utf8_bytes.
  destruct (N.ltb_spec c 0x80); [|destruct (N.ltb_spec c 0x800);
    [|destruct (N.ltb_spec c 0x10000)]];
    intros Hin;
    repeat (apply elem_of_cons in Hin as [Hin | Hin]; [try done; div_mod_lia|]);
    by apply elem_of_nil in Hin.
Qed.

Lemma encode_no_space (s : list N) (bs : list byte) :
  Utf8.encode s = Ok bs → chr " " ∉ s → Forall (fun b => Byte.to_N b ≠ 0x20) bs.
Proof.
  intros [Hs Hbs]%encode_bytes Hsp.
  apply Forall_forall. intros b Hb Hb20.
  assert (Hin : 0x20 ∈ Byte.to_N <$> bs).
  { rewrite <- Hb20. apply list_elem_of_fmap. eauto. }
  rewrite Hbs in Hin. apply list_elem_of_In, in_flat_map in Hin as (c & Hc & Hin).
  apply list_elem_of_In in Hc, Hin.
  assert (c < 0x110000).
  { unfold encodable in Hs. rewrite Forall_forall in Hs.
    destruct (Hs c Hc) as [?|[_ ?]]; lia. }
  apply utf8_bytes_space in Hin; [|done]. subst c. done.
Qed.

Lemma quote_plus_percent_encode (s : list N) :
  UrlParse.quote_plus s = percent_encode s.
Proof.
  unfold UrlParse.quote_plus, percent_encode, UrlParse.quote, UrlParse.quote_from_bytes.
  destruct (Py.contains (chr " ") s) eqn:Esp; cbn [negb].
  - assert (truthy s = true) as ->.
    { destruct s; [done|done]. }
    cbn [negb]. destruct (Utf8.encode s) as [bs|]; cbn [mbind result_bind]; [|done].
    f_equal. induction bs as [|b bs IH]; [done|].
    cbn [flat_map]. unfold Py.replace in *. rewrite map_app, IH. f_equal.
    apply quoter_space.
  - apply contains_false in Esp. destruct s as [|c s]; [reflexivity|].
    cbn [truthy negb].
    destruct (Utf8.encode (c :: s)) as [bs|] eqn:E; cbn [mbind result_bind]; [|done].
    f_equal. pose proof (encode_no_space _ _ E Esp) as Hbs. clear E.
    induction Hbs as [|b bs Hb _ IH]; [done|].
    cbn [flat_map]. rewrite IH. f_equal. by apply quoter_plain.
Qed.

(** ** The query of the normalized URL *)

Lemma result_mapM_ext {A B} (f g : A → result B) (l : list A) :
  (∀ x, f x = g x) → result_mapM f l = result_mapM g l.
Proof. intros Hfg. induction l as [|x l IH]; cbn; [done|]. by rewrite Hfg, IH. Qed.

Lemma percent_encode_Ok (s q : list N) :
  percent_encode s = Ok q → ∃ bs, Utf8.encode s = Ok bs.
Proof. unfold percent_encode. destruct (Utf8.encode s); cbn; [eauto | done]. Qed.

Lemma urlencode_percent_encode (pairs : list (list N * list N)) :
  UrlParse.urlencode pairs
  = (l ← result_mapM (fun '(k, v) =>
                        k' ← percent_encode k; v' ← percent_encode v;
                        Ok (k' ++ py "=" ++ v'))
                     pairs;
     Ok (Py.join (py "&") l)).
Proof.
  unfold UrlParse.urlencode. f_equal. apply result_mapM_ext.
  intros [k v]. by rewrite !quote_plus_percent_encode.
Qed.

Lemma urlencode_keys_encodable (pairs : list (list N * list N)) (q : list N) :
  UrlParse.urlencode pairs = Ok q →
  ∃ eks, Forall2 (fun k ek => Utf8.encode k = Ok ek) pairs.*1 eks.
Proof.
  rewrite urlencode_percent_encode.
  destruct (result_mapM _ pairs) as [l|] eqn:E; cbn [mbind result_bind]; [|done].
  intros _. apply result_mapM_Forall2 in E. revert l E.
  induction pairs as [|[k v] pairs IH]; intros l Hl.
  - exists []. constructor.
  - inversion Hl as [|? y ? ys Hy Hys]; subst.
    destruct (IH _ Hys) as [eks Heks].
    destruct (percent_encode k) as [k'|] eqn:Ek; cbn in Hy; [|done].
    apply percent_encode_Ok in Ek as [ek Hek].
    exists (ek :: eks). by constructor.
Qed.

Example query_rebuilt_example :
  sorted_query (py "b=2&utm_source=x&a=1&b=3&c=%2F+x&d=") = Ok (py "a=1&b=3&c=%2F+x").
Proof. vm_compute. reflexivity. Qed.

(** ** More on stripping *)

Lemma leading_lstrip (p : N → bool) (s : list N) :
  Py.leading p s ++ Py.lstrip p s = s.
Proof.
  induction s as [|x s IH]; [done|]. cbn.
  destruct (p x); [|done]. cbn. by rewrite IH.
Qed.

Lemma leading_all (p : N → bool) (s : list N) :
  Forall (fun c => p c = true) (Py.leading p s).
Proof.
  induction s as [|x s IH]; cbn; [constructor|].
  destruct (p x) eqn:E; [by constructor | constructor].
Qed.

Lemma take_leading (p : N → bool) (s : list N) :
  take (length (Py.leading p s)) s = Py.leading p s.
Proof.
  rewrite <- (leading_lstrip p s) at 2. by rewrite take_app_length.
Qed.

Lemma drop_leading (p : N → bool) (s : list N) :
  drop (length (Py.leading p s)) s = Py.lstrip p s.
Proof.
  rewrite <- (leading_lstrip p s) at 2. by rewrite drop_app_length.
Qed.

Lemma lstrip_app_kept (p : N → bool) (a b : list N) :
  Forall (fun c => p c = false) b → Py.lstrip p (a ++ b) = Py.lstrip p a ++ b.
Proof.
  intros Hb. induction a as [|x a IH]; cbn.
  - destruct Hb as [|y b Hy _]; [done|]. cbn. by rewrite Hy.
  - by destruct (p x).
Qed.

Lemma leading_app_kept (p : N → bool) (a b : list N) :
  Forall (fun c => p c = false) b → Py.leading p (a ++ b) = Py.leading p a.
Proof.
  intros Hb. induction a as [|x a IH]; cbn.
  - destruct Hb as [|y b Hy _]; [done|]. cbn. by rewrite Hy.
  - destruct (p x); [by rewrite IH | done].
Qed.

Lemma rstrip_app_kept (p : N → bool) (a b : list N) :
  b ≠ [] → Forall (fun c => p c = false) b → Py.rstrip p (a ++ b) = a ++ b.
Proof.
  intros Hne Hb. apply rstrip_fixed.
  destruct b as [|y b _] using rev_ind; [done|].
  rewrite app_assoc, last_snoc.
  apply Forall_app in Hb as [_ Hb]. by apply Forall_cons in Hb as [? _].
Qed.

Lemma rstrip_eq_last (p : N → bool) (s : list N) :
  Py.rstrip p s = s →
  match last s with None => True | Some x => p x = false end.
Proof. intros <-. apply rstrip_last. Qed.

Lemma rstrip_all (p : N → bool) (s : list N) :
  Forall (fun c => p c = true) s → Py.rstrip p s = [].
Proof.
  intros Hs. exact (rstrip_app_all p [] s Hs).
Qed.

Lemma rstrip_split (p : N → bool) (s : list N) :
  ∃ b, s = Py.rstrip p s ++ b ∧ Forall (fun c => p c = true) b.
Proof.
  unfold Py.rstrip. destruct (lstrip_split p (rev s)) as (a & Ha & Hall).
  exists (rev a). split.
  - apply (f_equal (@rev N)) in Ha.
    by rewrite List.rev_involutive, List.rev_app_distr in Ha.
  - apply Forall_forall. intros c Hc. rewrite Forall_forall in Hall.
    apply Hall. apply list_elem_of_In. apply in_rev. by apply list_elem_of_In.
Qed.

(** ** [_splitnetloc] *)

Lemma find_from_0 (c : N) (s : list N) : Py.find_from c 0 s = Py.find c s.
Proof. unfold Py.find_from. rewrite drop_0. by destruct (Py.find c s). Qed.

Lemma find_cons (c x : N) (s : list N) :
  Py.find c (x :: s) = if x =? c then Some 0%nat else S <$> Py.find c s.
Proof. done. Qed.

Lemma splitnetloc_delim_0 (url : list N) :
  foldl (fun delim c =>
           match Py.find_from c 0 url with
           | Some wdelim => Nat.min delim wdelim
           | None => delim
           end)
        (length url) [chr "/"; chr "?"; chr "#"]
  = length (Py.leading in_netloc url).
Proof.
  cbn [foldl]. rewrite !find_from_0.
  induction url as [|x url IH]; [done|].
  rewrite !find_cons. cbn [Py.leading length]. unfold in_netloc at 1.
  destruct (x =? chr "/") eqn:H1; cbn [orb negb].
  { repeat case_match; simplify_eq; cbn [length]; lia. }
  destruct (x =? chr "?") eqn:H2; cbn [orb negb].
  { repeat case_match; simplify_eq; cbn [length]; lia. }
  destruct (x =? chr "#") eqn:H3; cbn [orb negb].
  { repeat case_match; simplify_eq; cbn [length]; lia. }
  cbn [length]. rewrite <- IH.
  destruct (Py.find (chr "/") url), (Py.find (chr "?") url), (Py.find (chr "#") url);
    cbn; lia.
Qed.

Lemma splitnetloc_0 (url : list N) :
  UrlParse.splitnetloc url 0 = (Py.leading in_netloc url, Py.lstrip in_netloc url).
Proof.
  unfold UrlParse.splitnetloc.
  change (py "/?#") with [chr "/"; chr "?"; chr "#"].
  rewrite splitnetloc_delim_0, drop_0.
  by rewrite take_leading, drop_leading.
Qed.

Lemma splitnetloc_delim_2 (a b : N) (t : list N) :
  foldl (fun delim c =>
           match Py.find_from c 2 (a :: b :: t) with
           | Some wdelim => Nat.min delim wdelim
           | None => delim
           end)
        (length (a :: b :: t)) [chr "/"; chr "?"; chr "#"]
  = S (S (length (Py.leading in_netloc t))).
Proof.
  rewrite <- splitnetloc_delim_0. cbn [foldl]. unfold Py.find_from.
  change (drop 2 (a :: b :: t)) with t. rewrite drop_0.
  destruct (Py.find (chr "/") t) as [i1|], (Py.find (chr "?") t) as [i2|],
    (Py.find (chr "#") t) as [i3|]; cbn [fmap option_fmap option_map length]; lia.
Qed.

Lemma splitnetloc_2 (a b : N) (t : list N) :
  UrlParse.splitnetloc (a :: b :: t) 2
  = (Py.leading in_netloc t, Py.lstrip in_netloc t).
Proof.
  unfold UrlParse.splitnetloc.
  change (py "/?#") with [chr "/"; chr "?"; chr "#"].
  rewrite splitnetloc_delim_2.
  change (take (S (S ?d)) (a :: b :: t)) with (a :: b :: take d t).
  change (drop 2 (a :: b :: ?l)) with l.
  change (drop (S (S ?d)) (a :: b :: t)) with (drop d t).
  by rewrite take_leading, drop_leading.
Qed.

(** ** Slashes at the end of a url *)

Lemma lstrip_none (p : N → bool) (s : list N) :
  Forall (fun c => p c = false) s → Py.lstrip p s = s.
Proof. destruct 1 as [|x s Hx _]; [done|]. cbn. by rewrite Hx. Qed.

Lemma leading_none (p : N → bool) (s : list N) :
  Forall (fun c => p c = false) s → Py.leading p s = [].
Proof. destruct 1 as [|x s Hx _]; [done|]. cbn. by rewrite Hx. Qed.

Lemma slashes_replicate (n : nat) : slashes (replicate n (chr "/")).
Proof. apply Forall_replicate. done. Qed.

Lemma slashes_test (p : N → bool) (b : bool) (s : list N) :
  p (chr "/") = b → slashes s → Forall (fun c => p c = b) s.
Proof. intros Hp Hs. eapply Forall_impl; [exact Hs|]. by intros c ->. Qed.

Lemma slashes_absent (c : N) (s : list N) : c ≠ chr "/" → slashes s → c ∉ s.
Proof.
  intros Hc Hs Hin. unfold slashes in Hs. rewrite Forall_forall in Hs.
  by apply Hs in Hin.
Qed.

Lemma starts_with_slashes (s : list N) :
  Py.eqb_str (take 2 s) (py "//") = true ↔ ∃ t, s = chr "/" :: chr "/" :: t.
Proof.
  rewrite eqb_str_spec. change (py "//") with [chr "/"; chr "/"]. split.
  - destruct s as [|a [|b t]]; cbn; try done. intros [= -> ->]. eauto.
  - by intros [t ->].
Qed.

Lemma strip_slashes (url s : list N) :
  slashes s → Py.rstrip Py.isspace url = url →
  Py.strip Py.isspace (url ++ s) = Py.strip Py.isspace url ++ s.
Proof.
  intros Hs Hurl. unfold Py.strip.
  assert (Hk : Forall (fun c => Py.isspace c = false) s) by by apply slashes_test.
  rewrite (lstrip_app_kept _ _ _ Hk).
  assert (Hl : Py.rstrip Py.isspace (Py.lstrip Py.isspace url) = Py.lstrip Py.isspace url).
  { apply rstrip_fixed. apply rstrip_eq_last in Hurl.
    destruct (lstrip_split Py.isspace url) as (a & Ha & _).
    destruct (Py.lstrip Py.isspace url) as [|x l] eqn:E; [done|].
    rewrite Ha, last_app in Hurl. by destruct (last (x :: l)). }
  rewrite Hl. destruct s as [|c s]; [by rewrite !app_nil_r|].
  by rewrite rstrip_app_kept.
Qed.

Lemma url_clean_slashes (u s : list N) :
  slashes s → url_clean (u ++ s) = url_clean u ++ s.
Proof.
  intros Hs. unfold url_clean.
  rewrite lstrip_app_kept by by apply slashes_test.
  change UrlParse.unsafe_url_bytes_to_remove with [0x09; 0x0D; 0x0A].
  cbn [foldl]. rewrite !remove_char_app.
  by rewrite !(remove_char_absent _ s) by by apply slashes_absent.
Qed.

Section Slashes.
Context `{Runtime}.

Lemma split_scheme_slashes (u s : list N) :
  slashes s →
  split_scheme (u ++ s) = ((split_scheme u).1, (split_scheme u).2 ++ s).
Proof.
  intros Hs. unfold split_scheme.
  rewrite find_app_absent by by apply slashes_absent.
  destruct (Py.find (chr ":") u) as [[|i]|] eqn:E; [done| |done].
  pose proof (find_lt_length _ _ _ E) as Hi.
  rewrite take_app_le by lia.
  assert (hd 0 (u ++ s) = hd 0 u) as -> by (destruct u; [cbn in Hi; lia | done]).
  destruct (_ && _); [|done]. cbn [fst snd].
  by rewrite drop_app_le by lia.
Qed.

Lemma brackets_ok_nil : brackets_ok [] = true.
Proof. reflexivity. Qed.

Lemma split_authority_slashes (rest s : list N) :
  slashes s →
  match split_authority rest with
  | Ok (n, r) =>
      ∃ r', split_authority (rest ++ s) = Ok (n, r')
            ∧ Py.rstrip (N.eqb (chr "/")) r' = Py.rstrip (N.eqb (chr "/")) r
            ∧ r' `sublist_of` rest ++ s
  | Raise e => split_authority (rest ++ s) = Raise e
  end.
Proof.
  intros Hs.
  assert (Hsl : Forall (fun c => (chr "/" =? c) = true) s) by by apply slashes_test.
  assert (Hnd : Forall (fun c => in_netloc c = false) s) by by apply slashes_test.
  unfold split_authority.
  destruct (Py.eqb_str (take 2 rest) (py "//")) eqn:E.
  - pose proof E as [t ->]%starts_with_slashes.
    change ((chr "/" :: chr "/" :: t) ++ s) with (chr "/" :: chr "/" :: (t ++ s)).
    change (Py.eqb_str (take 2 (chr "/" :: chr "/" :: (t ++ s))) (py "//")) with true.
    cbv iota. rewrite !splitnetloc_2.
    rewrite (leading_app_kept _ _ _ Hnd), (lstrip_app_kept _ _ _ Hnd).
    destruct (brackets_ok (Py.leading in_netloc t)); [|done].
    eexists. split; [done|]. split; [by apply rstrip_app_all|].
    do 2 apply sublist_cons. apply sublist_app; [|done].
    apply suffix_is_sublist, lstrip_suffix.
  - destruct (Py.eqb_str (take 2 (rest ++ s)) (py "//")) eqn:E'.
    + apply starts_with_slashes in E' as [t Ht].
      assert (Hall : slashes (rest ++ s) ∧ slashes t ∧ slashes rest).
      { destruct rest as [|a [|b rest]].
        - cbn in Ht. subst s. split; [done|]. split; [|constructor].
          by do 2 apply Forall_cons in Hs as [_ Hs].
        - cbn in Ht. injection Ht as -> ->. split; [by constructor|].
          split; [|by repeat constructor].
          by apply Forall_cons in Hs as [_ Hs].
        - cbn in Ht. injection Ht as -> -> _.
          apply eqb_str_false in E. done. }
      destruct Hall as (_ & Ht' & Hrest).
      rewrite Ht, splitnetloc_2.
      rewrite (lstrip_none in_netloc t), (leading_none in_netloc t)
        by by apply slashes_test.
      rewrite brackets_ok_nil. exists t. split; [done|]. split.
      * rewrite !rstrip_all; [done| |]; by apply slashes_test.
      * do 2 apply sublist_cons. done.
    + eexists. split; [done|]. split; [by apply rstrip_app_all | done].
Qed.
End Slashes.

Lemma cut_absent (c : N) (s : list N) : c ∉ s → cut c s = (s, []).
Proof. intros Hc. unfold cut. by rewrite split_once_None. Qed.

Lemma not_elem_of_sublist (c : N) (a b : list N) :
  a `sublist_of` b → c ∉ b → c ∉ a.
Proof. intros Hab Hb Ha. apply Hb. by eapply elem_of_sublist. Qed.

Lemma rstrip_slashes_spec (path : list N) :
  ∃ n, path = Py.rstrip (N.eqb (chr "/")) path ++ replicate n (chr "/")
       ∧ last (Py.rstrip (N.eqb (chr "/")) path) ≠ Some (chr "/").
Proof.
  destruct (rstrip_split (N.eqb (chr "/")) path) as (b & Hb & Hall).
  exists (length b). split.
  - rewrite Hb at 1. f_equal. clear Hb.
    induction Hall as [|x b Hx%N.eqb_eq _ IH]; [done|].
    cbn. by rewrite <- Hx, <- IH.
  - pose proof (rstrip_last (N.eqb (chr "/")) path) as Hl.
    destruct (last _) as [x|]; [|done].
    intros [= ->]. by rewrite N.eqb_refl in Hl.
Qed.

Section SlashesEnd.
Context `{Runtime}.

Lemma split_scheme_sublist (u : list N) : (split_scheme u).2 `sublist_of` u.
Proof.
  unfold split_scheme. destruct (Py.find (chr ":") u) as [[|i]|]; try done.
  destruct (_ && _); [apply sublist_drop | done].
Qed.

Lemma urlsplit_slashes (u s : list N) :
  slashes s → chr "?" ∉ u → chr "#" ∉ u →
  match UrlParse.urlsplit u with
  | Ok r =>
      ∃ path',
        UrlParse.urlsplit (u ++ s)
        = Ok (UrlParse.mkSplit (UrlParse.s_scheme r) (UrlParse.s_netloc r) path' [] [])
        ∧ UrlParse.s_query r = [] ∧ UrlParse.s_fragment r = []
        ∧ Py.rstrip (N.eqb (chr "/")) path'
          = Py.rstrip (N.eqb (chr "/")) (UrlParse.s_path r)
        ∧ path' `sublist_of` u ++ s ∧ UrlParse.s_path r `sublist_of` u
  | Raise e => UrlParse.urlsplit (u ++ s) = Raise e
  end.
Proof.
  intros Hs Hq Hf. rewrite !urlsplit_eq, (url_clean_slashes _ _ Hs).
  rewrite (split_scheme_slashes _ _ Hs).
  pose proof (split_scheme_sublist (url_clean u)) as Hsub.
  destruct (split_scheme (url_clean u)) as [sch rest]. cbn [fst snd] in *.
  assert (Hrest : rest `sublist_of` u).
  { etrans; [exact Hsub | apply url_clean_sublist]. }
  pose proof (split_authority_slashes rest s Hs) as Ha.
  pose proof (split_authority_sublist rest) as Hsa.
  destruct (split_authority rest) as [[n r]|e]; cbn [mbind result_bind].
  - destruct Ha as (r' & -> & Hr & Hr'). cbn [mbind result_bind].
    destruct (Hsa n r eq_refl) as [_ Hrr].
    assert (Hru : r `sublist_of` u) by (by etrans).
    assert (Hr'u : r' `sublist_of` u ++ s).
    { etrans; [exact Hr'|]. by apply sublist_app. }
    assert (Hq' : chr "?" ∉ u ++ s).
    { rewrite not_elem_of_app. split; [done | by apply slashes_absent]. }
    assert (Hf' : chr "#" ∉ u ++ s).
    { rewrite not_elem_of_app. split; [done | by apply slashes_absent]. }
    rewrite (cut_absent (chr "#") r), (cut_absent (chr "#") r')
      by (eapply not_elem_of_sublist; eauto).
    rewrite (cut_absent (chr "?") r), (cut_absent (chr "?") r')
      by (eapply not_elem_of_sublist; eauto).
    destruct (UrlParse.checknetloc n); [|done].
    exists r'. cbn. done.
  - by rewrite Ha.
Qed.

Lemma normalize_url_slashes (url s : list N) (kf : bool) :
  slashes s →
  chr "?" ∉ url → chr "#" ∉ url → chr ";" ∉ url →
  Py.rstrip Py.isspace url = url →
  normalize_url (url ++ s) kf = normalize_url url kf.
Proof.
  intros Hs Hq Hf Hp Hurl. unfold normalize_url.
  rewrite (strip_slashes _ _ Hs Hurl).
  pose proof (strip_sublist Py.isspace url) as Hsub.
  set (u := Py.strip Py.isspace url) in *.
  assert (Hq' : chr "?" ∉ u) by (eapply not_elem_of_sublist; eauto).
  assert (Hf' : chr "#" ∉ u) by (eapply not_elem_of_sublist; eauto).
  assert (Hp' : chr ";" ∉ u) by (eapply not_elem_of_sublist; eauto).
  unfold UrlParse.urlparse.
  pose proof (urlsplit_slashes u s Hs Hq' Hf') as Hsplit.
  destruct (UrlParse.urlsplit u) as [[sch n p q f]|e]; cbn [mbind result_bind].
  - destruct Hsplit as (p' & -> & Hq0 & Hf0 & Hr & Hp's & Hpu).
    cbn in Hq0, Hf0, Hr, Hpu. subst q f. cbn [mbind result_bind].
    assert (Py.contains (chr ";") p = false) as ->.
    { apply contains_false. eapply not_elem_of_sublist; eauto. }
    assert (Py.contains (chr ";") p' = false) as ->.
    { apply contains_false. eapply not_elem_of_sublist; [exact Hp's|].
      rewrite not_elem_of_app. split; [done | by apply slashes_absent]. }
    rewrite !andb_false_r. cbn [mbind result_bind UrlParse.query UrlParse.path
      UrlParse.scheme UrlParse.netloc UrlParse.params UrlParse.fragment].
    by rewrite Hr.
  - by rewrite Hsplit.
Qed.
End SlashesEnd.

Section SlashesExamples.
#[local] Existing Instance ascii_runtime.

(** C2 as stated fails: a path ending in "//" keeps no trailing slash. *)
Lemma double_slash_fully_stripped :
  normalize_url (py "http://x.com/path//") false = Ok (py "http://x.com/path")
  ∧ py "http://x.com/path" ≠ py "http://x.com/path/".
Proof. split; [vm_compute; reflexivity | vm_compute; discriminate]. Qed.
End SlashesExamples.

(** ** What [urlparse] returns *)

Lemma cut_spec (c : N) (s a b : list N) :
  cut c s = (a, b) →
  ((c ∉ s) ∧ a = s ∧ b = []) ∨ (s = a ++ c :: b ∧ (c ∉ a)).
Proof.
  unfold cut. destruct (Py.split_once c s) as [[a' b']|] eqn:E.
  - intros [= -> ->]. right. by apply split_once_Some.
  - intros [= <- <-]. left. split; [|done]. apply find_None.
    unfold Py.split_once in E. by destruct (Py.find c s).
Qed.

Lemma rooted_take (path : list N) (k : nat) : rooted path → rooted (take k path).
Proof.
  intros [->|[t ->]]; [left; by destruct k|].
  destruct k; [by left | right; eauto].
Qed.

Lemma splitparams_fst (url : list N) : ∃ k, (UrlParse.splitparams url).1 = take k url.
Proof.
  unfold UrlParse.splitparams. repeat case_match; cbn [fst]; eauto.
  exists (length url). by rewrite take_ge.
Qed.

Lemma lower_scheme_char_of (c : N) :
  Py.contains c UrlParse.scheme_chars = true →
  c < 128 ∧ lower_scheme_char (Py.lower_ascii c) = true
  ∧ (Py.is_alpha_ascii c = true → Py.is_lower_ascii (Py.lower_ascii c) = true).
Proof.
  intros Hc%contains_spec. vm_compute in Hc.
  repeat (apply elem_of_cons in Hc as [-> | Hc]; [by vm_compute|]).
  by apply elem_of_nil in Hc.
Qed.

Section Parsed.
Context `{Runtime}.

Lemma split_scheme_shape (u : list N) : scheme_shape (split_scheme u).1.
Proof.
  unfold split_scheme.
  destruct (Py.find (chr ":") u) as [[|i]|]; try by left.
  destruct (Py.is_alpha_ascii (hd 0 u)) eqn:Ea; cbn [andb]; [|by left].
  destruct (forallb _ _) eqn:Ef; [|by left]. cbn [fst]. right.
  rewrite forallb_forall in Ef.
  assert (Hall : Forall (fun c => Py.contains c UrlParse.scheme_chars = true)
                        (take (S i) u)).
  { apply Forall_forall. intros c Hc. by apply Ef, list_elem_of_In. }
  assert (Hascii : ascii_text (take (S i) u)).
  { eapply Forall_impl; [exact Hall|]. intros c Hc. by apply lower_scheme_char_of. }
  rewrite (lower_ascii_text _ Hascii). split.
  - destruct u as [|x u]; [done|]. cbn in *.
    apply Forall_cons in Hall as [Hx _]. by apply lower_scheme_char_of.
  - apply Forall_fmap. eapply Forall_impl; [exact Hall|].
    intros c Hc. by apply lower_scheme_char_of.
Qed.

Lemma split_authority_rest (u n r : list N) :
  split_authority u = Ok (n, r) → n ≠ [] →
  Forall (fun c => in_netloc c = true) n
  ∧ match r with [] => True | c :: _ => in_netloc c = false end.
Proof.
  unfold split_authority. destruct (Py.eqb_str _ _) eqn:E; [|by intros [= <- <-]].
  apply starts_with_slashes in E as [t ->]. rewrite splitnetloc_2.
  destruct (brackets_ok _); [|done]. intros [= <- <-] _.
  split; [apply leading_all | apply lstrip_head].
Qed.

Lemma urlsplit_shape (url : list N) (r : UrlParse.SplitResult) :
  UrlParse.urlsplit url = Ok r →
  scheme_shape (UrlParse.s_scheme r)
  ∧ (UrlParse.s_netloc r ≠ [] → rooted (UrlParse.s_path r)).
Proof.
  rewrite urlsplit_eq.
  pose proof (split_scheme_shape (url_clean url)) as Hsch.
  destruct (split_scheme (url_clean url)) as [sch rest]. cbn [fst] in Hsch.
  destruct (split_authority rest) as [[n r1]|] eqn:Ea; cbn [mbind result_bind]; [|done].
  destruct (cut (chr "#") r1) as [r2 f] eqn:Ef.
  destruct (cut (chr "?") r2) as [p q] eqn:Eq.
  destruct (UrlParse.checknetloc n); [|done]. intros [= <-]. cbn.
  split; [done|]. intros Hn.
  destruct (split_authority_rest _ _ _ Ea Hn) as [_ Hr1].
  assert (Hr2 : match r2 with
                | [] => True
                | c :: _ => c = chr "/" ∨ c = chr "?"
                end).
  { apply cut_spec in Ef as [(Hnot & -> & _)|[-> Hnot]].
    - destruct r1 as [|c r1]; [done|]. unfold in_netloc in Hr1.
      apply negb_false_iff in Hr1. rewrite !orb_true_iff, !N.eqb_eq in Hr1.
      destruct Hr1 as [[?|?]|?]; [by left | by right|].
      subst c. exfalso. apply Hnot. left.
    - destruct r2 as [|c r2]; [done|]. cbn in Hr1. unfold in_netloc in Hr1.
      apply negb_false_iff in Hr1. rewrite !orb_true_iff, !N.eqb_eq in Hr1.
      destruct Hr1 as [[?|?]|?]; [by left | by right|].
      subst c. exfalso. apply Hnot. left. }
  apply cut_spec in Eq as [(Hnot & -> & _)|[-> Hnot]].
  - destruct r2 as [|c r2]; [by left|]. destruct Hr2 as [->| ->]; [right; eauto|].
    exfalso. apply Hnot. left.
  - destruct p as [|c p]; [by left|]. cbn in Hr2. destruct Hr2 as [->| ->].
    + right; eauto.
    + exfalso. apply Hnot. left.
Qed.

Lemma urlparse_shape (url : list N) (p : UrlParse.ParseResult) :
  UrlParse.urlparse url = Ok p →
  scheme_shape (UrlParse.scheme p)
  ∧ (UrlParse.netloc p ≠ [] → rooted (UrlParse.path p)).
Proof.
  unfold UrlParse.urlparse.
  destruct (UrlParse.urlsplit url) as [[sch n pa q f]|] eqn:E;
    cbn [mbind result_bind]; [|done].
  apply urlsplit_shape in E as [Hs Hp]. cbn in Hs, Hp.
  destruct (_ && _).
  - destruct (splitparams_fst pa) as [k Hk].
    destruct (UrlParse.splitparams pa) as [a b]. cbn [fst] in Hk. subst a.
    intros [= <-]. cbn. split; [done|]. intros Hn. by apply rooted_take, Hp.
  - intros [= <-]. cbn. done.
Qed.
End Parsed.

(** ** Queries made of plain words *)

(** A property of every ASCII character, checked by running through them. *)
Lemma ascii_check (f : N → bool) :
  forallb f (N.of_nat <$> seq 0 128) = true → ∀ c, c < 128 → f c = true.
Proof.
  intros Hf c Hc. rewrite forallb_forall in Hf. apply Hf.
  apply list_elem_of_In, list_elem_of_fmap. exists (N.to_nat c).
  split; [by rewrite N2Nat.id|]. apply list_elem_of_In, in_seq. lia.
Qed.

Lemma plain_word_char_lt (c : N) : plain_word_char c = true → c < 128.
Proof.
  unfold plain_word_char, Py.is_lower_ascii, Py.is_digit_ascii.
  rewrite !orb_true_iff, !andb_true_iff, !N.leb_le, contains_spec.
  intros [[[? ?]|[? ?]]|Hc]; [lia | lia |].
  vm_compute in Hc.
  repeat (apply elem_of_cons in Hc as [-> | Hc]; [done|]).
  by apply elem_of_nil in Hc.
Qed.

Lemma plain_word_char_facts (c : N) :
  plain_word_char c = true →
  c < 128 ∧ UrlParse.always_safe c = true ∧ Py.lower_ascii c = c
  ∧ printable c = true
  ∧ c ≠ chr "&" ∧ c ≠ chr "=" ∧ c ≠ chr "%" ∧ c ≠ chr "+" ∧ c ≠ chr "#".
Proof.
  intros Hc. pose proof (plain_word_char_lt c Hc) as Hlt. split; [done|].
  pose proof (ascii_check
    (fun c => implb (plain_word_char c)
                (UrlParse.always_safe c && (Py.lower_ascii c =? c) && printable c
                 && negb (c =? chr "&") && negb (c =? chr "=")
                 && negb (c =? chr "%") && negb (c =? chr "+")
                 && negb (c =? chr "#")))
    ltac:(vm_compute; reflexivity) c Hlt) as Hall.
  cbv beta in Hall. rewrite Hc in Hall. cbn [implb] in Hall.
  rewrite !andb_true_iff, !negb_true_iff, !N.eqb_neq, N.eqb_eq in Hall.
  tauto.
Qed.

Lemma plain_word_ascii (s : list N) : plain_word s → ascii_text s.
Proof.
  intros Hs. eapply Forall_impl; [exact Hs|].
  intros c Hc. by apply plain_word_char_facts.
Qed.

Lemma plain_word_absent (s : list N) (c : N) :
  plain_word s → plain_word_char c = false → c ∉ s.
Proof.
  intros Hs Hc Hin. unfold plain_word in Hs. rewrite Forall_forall in Hs.
  apply Hs in Hin. congruence.
Qed.

Lemma encode_char_ascii (c : N) : c < 128 → Utf8.encode_char c = Ok [byte_of c].
Proof. intros Hc%N.ltb_lt. unfold Utf8.encode_char. by rewrite Hc. Qed.

Lemma encode_ascii (s : list N) : ascii_text s → Utf8.encode s = Ok (byte_of <$> s).
Proof.
  unfold Utf8.encode. induction 1 as [|c s Hc _ IH]; [done|].
  cbn [result_mapM]. rewrite (encode_char_ascii c Hc). cbn [mbind result_bind].
  destruct (result_mapM Utf8.encode_char s) as [l|]; cbn in *; [|done].
  by injection IH as ->.
Qed.

Lemma percent_encode_plain (s : list N) : plain_word s → percent_encode s = Ok s.
Proof.
  intros Hs. unfold percent_encode. rewrite encode_ascii by by apply plain_word_ascii.
  cbn [mbind result_bind]. f_equal.
  induction Hs as [|c s Hc _ IH]; [done|].
  apply plain_word_char_facts in Hc as (Hlt & Hsafe & _).
  rewrite fmap_cons. cbn [flat_map]. rewrite IH. unfold percent_encode_byte.
  rewrite byte_of_to_N by lia. by rewrite Hsafe.
Qed.

Lemma urlencode_plain (pairs : list (list N * list N)) :
  Forall (fun kv => plain_word kv.1 ∧ plain_word kv.2) pairs →
  UrlParse.urlencode pairs = Ok (query_text pairs).
Proof.
  intros Hp. rewrite urlencode_percent_encode. unfold query_text.
  assert (result_mapM (fun '(k, v) =>
            k' ← percent_encode k; v' ← percent_encode v; Ok (k' ++ py "=" ++ v'))
            pairs
          = Ok ((fun kv : list N * list N => kv.1 ++ py "=" ++ kv.2) <$> pairs)) as ->;
    [|done].
  induction Hp as [|[k v] pairs [Hk Hv] _ IH]; [done|].
  cbn [result_mapM]. cbn in Hk, Hv.
  rewrite (percent_encode_plain _ Hk), (percent_encode_plain _ Hv).
  cbn [mbind result_bind]. rewrite IH. done.
Qed.

(** *** Splitting what was joined *)

Lemma split_absent (c : N) (s : list N) : c ∉ s → Py.split c s = [s].
Proof.
  induction s as [|x s IH]; [done|]. intros [Hx Hs]%not_elem_of_cons.
  cbn. destruct (N.eqb_spec x c); [done|]. by rewrite IH.
Qed.

Lemma split_app (c : N) (a b : list N) :
  c ∉ a → Py.split c (a ++ c :: b) = a :: Py.split c b.
Proof.
  induction a as [|x a IH]; cbn.
  - by rewrite N.eqb_refl.
  - intros [Hx Ha]%not_elem_of_cons.
    destruct (N.eqb_spec x c); [done|]. by rewrite IH.
Qed.

Lemma split_join (c : N) (items : list (list N)) :
  items ≠ [] → Forall (fun it => c ∉ it) items →
  Py.split c (Py.join [c] items) = items.
Proof.
  intros Hne Hall. induction Hall as [|it items Hit Hall IH]; [done|].
  destruct items as [|it' items].
  - cbn. by apply split_absent.
  - cbn [Py.join]. change (it ++ [c] ++ ?r) with (it ++ c :: r).
    rewrite split_app by done. f_equal. by apply IH.
Qed.

(** *** [parse_qsl] on such text *)

Lemma unquote_plain (s : list N) : chr "%" ∉ s → UrlParse.unquote s = s.
Proof.
  intros Hs. unfold UrlParse.unquote.
  by rewrite (proj2 (contains_false _ _) Hs).
Qed.

Lemma replace_absent (a b : N) (s : list N) : a ∉ s → Py.replace a b s = s.
Proof.
  unfold Py.replace. induction s as [|x s IH]; [done|].
  intros [Hx Hs]%not_elem_of_cons. cbn.
  destruct (N.eqb_spec x a); [done|]. by rewrite IH.
Qed.

Lemma parse_qsl_query_text (pairs : list (list N * list N)) :
  Forall (fun kv => plain_word kv.1 ∧ plain_word kv.2 ∧ kv.2 ≠ []) pairs →
  UrlParse.parse_qsl (query_text pairs) = pairs.
Proof.
  intros Hp. unfold UrlParse.parse_qsl, query_text.
  destruct pairs as [|kv0 pairs0]; [done|].
  set (pairs := kv0 :: pairs0) in *.
  set (items := (fun kv : list N * list N => kv.1 ++ py "=" ++ kv.2) <$> pairs).
  assert (Hitems : Forall (fun it => chr "&" ∉ it) items).
  { subst items. apply Forall_fmap. eapply Forall_impl; [exact Hp|].
    intros [k v] (Hk & Hv & _). cbn in *. rewrite !not_elem_of_app.
    split_and!; [by apply plain_word_absent| |by apply plain_word_absent].
    by intros ?%list_elem_of_singleton. }
  assert (Htruthy : truthy (Py.join (py "&") items) = true).
  { subst items pairs. destruct kv0 as [k v]. rewrite fmap_cons.
    destruct ((fun kv : list N * list N => kv.1 ++ py "=" ++ kv.2) <$> pairs0);
      cbn [Py.join fst snd]; by destruct k. }
  rewrite Htruthy.
  change (py "&") with [chr "&"]. rewrite split_join; [|by subst items pairs|done].
  subst items. clear Hitems Htruthy. clearbody pairs. clear kv0 pairs0.
  induction Hp as [|[k v] pairs (Hk & Hv & Hne) _ IH]; [done|].
  rewrite fmap_cons. cbn [flat_map fst snd] in *. rewrite IH.
  assert (truthy (k ++ py "=" ++ v) = true) as -> by by destruct k.
  cbn [negb]. change (py "=") with [chr "="].
  change (k ++ [chr "="] ++ v) with (k ++ chr "=" :: v).
  rewrite split_once_here by by apply plain_word_absent.
  assert (truthy v = true) as -> by by destruct v.
  rewrite !replace_absent by by apply plain_word_absent.
  rewrite !unquote_plain by by apply plain_word_absent.
  done.
Qed.

(** *** Values that [parse_qsl] returns are not empty *)

Lemma scan_nonempty (bs : list N) : bs ≠ [] → Utf8.scan bs ≠ [].
Proof. destruct bs as [|b0 r0]; [done|]. intros _. cbn. by repeat case_match. Qed.

Lemma decode_replace_nonempty (bs : list byte) : bs ≠ [] → Utf8.decode_replace bs ≠ [].
Proof.
  intros Hbs. unfold Utf8.decode_replace.
  pose proof (scan_nonempty (Byte.to_N <$> bs)) as Hs.
  destruct (Utf8.scan _); [|done]. exfalso. apply Hs; [|done]. by destruct bs.
Qed.

Lemma split_nonempty (c : N) (s : list N) : Py.split c s ≠ [].
Proof.
  destruct s as [|x s]; [done|]. cbn. destruct (x =? c); [done|].
  by destruct (Py.split c s).
Qed.

Lemma unquote_item_nonempty (item : list N) : UrlParse.unquote_item item ≠ [].
Proof. unfold UrlParse.unquote_item. by repeat case_match. Qed.

Lemma unquote_to_bytes_nonempty (bs : list byte) :
  bs ≠ [] → UrlParse.unquote_to_bytes bs ≠ [].
Proof.
  intros Hbs. unfold UrlParse.unquote_to_bytes.
  destruct bs as [|b bs]; [done|]. rewrite fmap_cons. cbn [Py.split].
  destruct (Byte.to_N b =? chr "%").
  - pose proof (split_nonempty (chr "%") (Byte.to_N <$> bs)) as Hs.
    destruct (Py.split _ _) as [|it items]; [done|].
    rewrite fmap_cons. cbn [concat app].
    pose proof (unquote_item_nonempty it). by destruct (UrlParse.unquote_item it).
  - by destruct (Py.split _ _).
Qed.

Lemma unquote_runs_nonempty (run s : list N) :
  run ≠ [] ∨ s ≠ [] → UrlParse.unquote_runs run s ≠ [].
Proof.
  revert run. induction s as [|c s IH]; intros run Hne; cbn.
  - destruct Hne as [Hne|]; [|done].
    apply decode_replace_nonempty, unquote_to_bytes_nonempty. by destruct run.
  - destruct (c <? 128).
    + apply IH. left. by destruct run.
    + by destruct (Utf8.decode_replace _).
Qed.

Lemma unquote_nonempty (s : list N) : s ≠ [] → UrlParse.unquote s ≠ [].
Proof.
  intros Hs. unfold UrlParse.unquote. destruct (negb _); [done|].
  apply unquote_runs_nonempty. by right.
Qed.

Lemma parse_qsl_values_nonempty (qs k v : list N) :
  (k, v) ∈ UrlParse.parse_qsl qs → v ≠ [].
Proof.
  unfold UrlParse.parse_qsl.
  intros Hin%list_elem_of_In. apply in_flat_map in Hin as (nv & _ & Hin).
  destruct (negb (truthy nv)); [done|].
  destruct (Py.split_once (chr "=") nv) as [[nv0 nv1]|]; [|done].
  destruct (truthy nv1) eqn:E; [|done].
  destruct Hin as [[= <- <-]|[]].
  apply unquote_nonempty. unfold Py.replace. by destruct nv1.
Qed.

(** *** A rebuilt query of plain words is rebuilt into itself *)

Lemma last_value_elem_of (pairs : list (list N * list N)) (k v : list N) :
  last_value pairs k = Some v → (k, v) ∈ pairs.
Proof.
  induction pairs as [|[k' v'] pairs IH]; cbn; [done|].
  destruct (last_value pairs k) as [w|].
  - intros [= ->]. right. by apply IH.
  - case_bool_decide; [|done]. intros [= ->]. subst. left.
Qed.

Lemma last_value_NoDup (pairs : list (list N * list N)) (k v : list N) :
  NoDup pairs.*1 → (k, v) ∈ pairs → last_value pairs k = Some v.
Proof.
  induction pairs as [|[k' v'] pairs IH]; cbn; [by intros _ ?%elem_of_nil|].
  intros [Hk' Hnd]%NoDup_cons [[= -> ->]|Hin]%elem_of_cons.
  - destruct (last_value pairs k') as [w|] eqn:E.
    + apply last_value_elem_of in E. exfalso. apply Hk'.
      apply list_elem_of_fmap. by exists (k', w).
    + by rewrite bool_decide_eq_true_2.
  - by rewrite (IH Hnd Hin).
Qed.

Lemma sorted_pairs_NoDup (query : list N) : NoDup (sorted_pairs query).*1.
Proof.
  rewrite sorted_pairs_keys.
  destruct (sorted_spec (keys (search_params query))) as [_ Hperm].
  rewrite Hperm. apply keys_spec.
Qed.

Lemma sorted_pairs_from_parse (query k v : list N) :
  (k, v) ∈ sorted_pairs query →
  (k, v) ∈ UrlParse.parse_qsl query ∧ Py.startswith (py "utm_") k = false.
Proof.
  rewrite sorted_pairs_elem_of, search_params_lookup.
  intros [Hl Hu]. split; [by apply last_value_elem_of | done].
Qed.

Lemma sorted_pairs_plain (query : list N) :
  Forall (fun kv => plain_word kv.1 ∧ plain_word kv.2) (UrlParse.parse_qsl query) →
  Forall (fun kv => plain_word kv.1 ∧ plain_word kv.2 ∧ kv.2 ≠ []) (sorted_pairs query).
Proof.
  intros Hp. apply Forall_forall. intros [k v] Hkv.
  apply sorted_pairs_from_parse in Hkv as [Hkv _].
  rewrite Forall_forall in Hp. destruct (Hp _ Hkv) as [Hk Hv].
  split_and!; [done | done|]. by eapply parse_qsl_values_nonempty.
Qed.

Lemma search_params_query_text (query : list N) :
  Forall (fun kv => plain_word kv.1 ∧ plain_word kv.2) (UrlParse.parse_qsl query) →
  search_params (query_text (sorted_pairs query)) = search_params query.
Proof.
  intros Hp. apply map_eq. intros k. apply option_eq. intros v.
  rewrite search_params_lookup.
  rewrite parse_qsl_query_text by by apply sorted_pairs_plain.
  rewrite <- sorted_pairs_elem_of. split.
  - intros [Hl _]. by apply last_value_elem_of.
  - intros Hkv. split.
    + apply last_value_NoDup; [apply sorted_pairs_NoDup | done].
    + by apply sorted_pairs_from_parse in Hkv as [_ ?].
Qed.

Lemma sorted_pairs_ext (q1 q2 : list N) :
  search_params q1 = search_params q2 → sorted_pairs q1 = sorted_pairs q2.
Proof. intros Heq. unfold sorted_pairs. by rewrite Heq. Qed.

Lemma join_Forall (P : N → Prop) (sep : list N) (parts : list (list N)) :
  Forall P sep → Forall (Forall P) parts → Forall P (Py.join sep parts).
Proof.
  intros Hsep. induction 1 as [|p ps Hp Hps IH]; [constructor|].
  destruct ps as [|p' ps]; [done|]. cbn [Py.join].
  rewrite !Forall_app. split_and!; done.
Qed.

Lemma query_text_chars (P : N → Prop) (pairs : list (list N * list N)) :
  P (chr "&") → P (chr "=") →
  Forall (fun kv => Forall P kv.1 ∧ Forall P kv.2) pairs →
  Forall P (query_text pairs).
Proof.
  intros Hamp Heq Hp. unfold query_text. apply join_Forall.
  - change (py "&") with [chr "&"]. by repeat constructor.
  - apply Forall_fmap. eapply Forall_impl; [exact Hp|].
    intros [k v] [Hk Hv]. cbn in *. change (py "=") with [chr "="].
    rewrite !Forall_app. split_and!; [done| |done]. by repeat constructor.
Qed.

Lemma sorted_query_plain (query sq : list N) :
  Forall (fun kv => plain_word kv.1 ∧ plain_word kv.2) (UrlParse.parse_qsl query) →
  sorted_query query = Ok sq →
  sorted_query sq = Ok sq
  ∧ Forall (fun c => printable c = true ∧ Py.lower_ascii c = c ∧ c ≠ chr "#") sq.
Proof.
  intros Hp Hsq.
  pose proof (sorted_pairs_plain _ Hp) as Hplain.
  assert (Hplain' : Forall (fun kv => plain_word kv.1 ∧ plain_word kv.2)
                           (sorted_pairs query)).
  { eapply Forall_impl; [exact Hplain|]. intros kv (? & ? & _). done. }
  unfold sorted_query in Hsq. rewrite (urlencode_plain _ Hplain') in Hsq.
  injection Hsq as <-. split.
  - unfold sorted_query.
    rewrite (sorted_pairs_ext _ query (search_params_query_text _ Hp)).
    by apply urlencode_plain.
  - apply query_text_chars; [by vm_compute | by vm_compute|].
    eapply Forall_impl; [exact Hplain'|]. intros [k v] [Hk Hv]. cbn in *.
    split; (eapply Forall_impl; [eassumption|]);
      intros c Hc; apply plain_word_char_facts in Hc; tauto.
Qed.

(** ** Classes of characters *)

Lemma class_check (cls fact : N → bool) :
  (∀ c, cls c = true → c < 128) →
  forallb (fun c => implb (cls c) (fact c)) (N.of_nat <$> seq 0 128) = true →
  ∀ c, cls c = true → fact c = true.
Proof.
  intros Hlt Hall c Hc. pose proof (ascii_check _ Hall c (Hlt c Hc)) as Hf.
  cbv beta in Hf. by rewrite Hc in Hf.
Qed.

Lemma printable_lt (c : N) : printable c = true → c < 128.
Proof. unfold printable. rewrite andb_true_iff, !N.leb_le. lia. Qed.

Lemma plain_netloc_char_lt (c : N) : plain_netloc_char c = true → c < 128.
Proof. unfold plain_netloc_char. intros [? _]%andb_true_iff. by apply printable_lt. Qed.

Lemma plain_path_char_lt (c : N) : plain_path_char c = true → c < 128.
Proof. unfold plain_path_char. intros [? _]%andb_true_iff. by apply printable_lt. Qed.

Lemma lower_scheme_char_lt (c : N) : lower_scheme_char c = true → c < 128.
Proof.
  unfold lower_scheme_char, Py.is_lower_ascii, Py.is_digit_ascii.
  rewrite !orb_true_iff, !andb_true_iff, !N.leb_le, contains_spec.
  intros [[[? ?]|[? ?]]|Hc]; [lia | lia |].
  vm_compute in Hc.
  repeat (apply elem_of_cons in Hc as [-> | Hc]; [done|]).
  by apply elem_of_nil in Hc.
Qed.

Lemma printable_facts (c : N) :
  printable c = true →
  Py.isspace c = false ∧ UrlParse.c0_control_or_space c = false
  ∧ c ≠ 0x09 ∧ c ≠ 0x0D ∧ c ≠ 0x0A ∧ printable (Py.lower_ascii c) = true.
Proof.
  intros Hc.
  pose proof (class_check printable
    (fun c => negb (Py.isspace c) && negb (UrlParse.c0_control_or_space c)
              && negb (c =? 0x09) && negb (c =? 0x0D) && negb (c =? 0x0A)
              && printable (Py.lower_ascii c))
    printable_lt ltac:(vm_compute; reflexivity) c Hc) as Hall.
  cbv beta in Hall.
  rewrite !andb_true_iff, !negb_true_iff, !N.eqb_neq in Hall. tauto.
Qed.

Lemma plain_netloc_char_facts (c : N) :
  plain_netloc_char c = true →
  printable c = true ∧ in_netloc c = true ∧ c ≠ chr "[" ∧ c ≠ chr "]"
  ∧ c ≠ chr "#" ∧ plain_netloc_char (Py.lower_ascii c) = true.
Proof.
  intros Hc.
  pose proof (class_check plain_netloc_char
    (fun c => printable c && in_netloc c && negb (c =? chr "[")
              && negb (c =? chr "]") && negb (c =? chr "#")
              && plain_netloc_char (Py.lower_ascii c))
    plain_netloc_char_lt ltac:(vm_compute; reflexivity) c Hc) as Hall.
  cbv beta in Hall.
  rewrite !andb_true_iff, !negb_true_iff, !N.eqb_neq in Hall. tauto.
Qed.

Lemma plain_path_char_facts (c : N) :
  plain_path_char c = true →
  printable c = true ∧ c ≠ chr "?" ∧ c ≠ chr "#" ∧ c ≠ chr ";"
  ∧ plain_path_char (Py.lower_ascii c) = true
  ∧ ((chr "/" =? Py.lower_ascii c) = (chr "/" =? c)).
Proof.
  intros Hc.
  pose proof (class_check plain_path_char
    (fun c => printable c && negb (c =? chr "?") && negb (c =? chr "#")
              && negb (c =? chr ";") && plain_path_char (Py.lower_ascii c)
              && eqb (chr "/" =? Py.lower_ascii c) (chr "/" =? c))
    plain_path_char_lt ltac:(vm_compute; reflexivity) c Hc) as Hall.
  cbv beta in Hall.
  rewrite !andb_true_iff, !negb_true_iff, !N.eqb_neq, eqb_true_iff in Hall. tauto.
Qed.

Lemma lower_scheme_char_facts (c : N) :
  lower_scheme_char c = true →
  printable c = true ∧ c ≠ chr ":" ∧ c ≠ chr "#" ∧ c ≠ chr "/"
  ∧ Py.contains c UrlParse.scheme_chars = true ∧ Py.lower_ascii c = c
  ∧ (Py.is_lower_ascii c = true → Py.is_alpha_ascii c = true).
Proof.
  intros Hc.
  pose proof (class_check lower_scheme_char
    (fun c => printable c && negb (c =? chr ":") && negb (c =? chr "#")
              && negb (c =? chr "/")
              && Py.contains c UrlParse.scheme_chars && (Py.lower_ascii c =? c)
              && implb (Py.is_lower_ascii c) (Py.is_alpha_ascii c))
    lower_scheme_char_lt ltac:(vm_compute; reflexivity) c Hc) as Hall.
  cbv beta in Hall.
  rewrite !andb_true_iff, !negb_true_iff, !N.eqb_neq, N.eqb_eq in Hall.
  destruct Hall as ((((((? & ?) & ?) & ?) & ?) & ?) & Himp).
  split_and!; try done. intros Hl. by rewrite Hl in Himp.
Qed.

(** ** The text of a URL with an authority *)

Lemma truthy_fmap {A B} (f : A → B) (l : list A) : truthy (f <$> l) = truthy l.
Proof. by destruct l. Qed.

Lemma truthy_false {A} (l : list A) : truthy l = false ↔ l = [].
Proof. by destruct l. Qed.

Lemma geturl_assemble (sch n p q f : list N) :
  n ≠ [] → rooted p →
  UrlParse.geturl (UrlParse.mkParse sch n p [] q f) = assemble sch n p q f.
Proof.
  intros Hn Hp. unfold UrlParse.geturl, UrlParse.urlunparse, UrlParse.urlunsplit, assemble.
  cbn [truthy]. rewrite (truthy_true n Hn). cbn [orb].
  assert ((if truthy p && negb (Py.eqb_str (take 1 p) (py "/"))
           then py "/" ++ p else p) = p) as ->.
  { destruct Hp as [->|[t ->]]; [done|]. cbn [truthy take andb].
    replace (Py.eqb_str [chr "/"] (py "/")) with true; [done|].
    symmetry. by apply eqb_str_spec. }
  destruct (truthy sch), (truthy q), (truthy f);
    rewrite <- ?app_assoc, ?app_nil_r; reflexivity.
Qed.

Lemma lower_assemble (sch n p q f : list N) :
  Py.lower_ascii <$> assemble sch n p q f
  = assemble (Py.lower_ascii <$> sch) (Py.lower_ascii <$> n) (Py.lower_ascii <$> p)
             (Py.lower_ascii <$> q) (Py.lower_ascii <$> f).
Proof.
  unfold assemble. rewrite !truthy_fmap.
  destruct (truthy sch), (truthy q), (truthy f); by rewrite !fmap_app.
Qed.

Lemma assemble_cut_fragment (sch n p q f : list N) :
  chr "#" ∉ sch → chr "#" ∉ n → chr "#" ∉ p → chr "#" ∉ q →
  hd [] (Py.split (chr "#") (assemble sch n p q f)) = assemble sch n p q [].
Proof.
  intros Hs Hn Hp Hq.
  assert (Hhead : chr "#" ∉ assemble sch n p q []).
  { unfold assemble. cbn [truthy]. rewrite !not_elem_of_app.
    split_and!; try done.
    - destruct (truthy sch); [|apply not_elem_of_nil].
      rewrite not_elem_of_app. split; [done|]. by vm_compute; intros ?%list_elem_of_singleton.
    - by vm_compute; intros [?|[?|?%elem_of_nil]%elem_of_cons]%elem_of_cons.
    - destruct (truthy q); [|apply not_elem_of_nil].
      rewrite not_elem_of_app. split; [|done]. by vm_compute; intros ?%list_elem_of_singleton.
    - apply not_elem_of_nil. }
  destruct f as [|c f].
  - by rewrite split_absent.
  - replace (assemble sch n p q (c :: f))
      with (assemble sch n p q [] ++ chr "#" :: c :: f).
    + by rewrite split_app.
    + unfold assemble. cbn [truthy]. rewrite !app_nil_r, <- !app_assoc. reflexivity.
Qed.

(** ** Parsing the text of a URL with an authority *)

Lemma leading_app_stop (p : N → bool) (a b : list N) :
  Forall (fun c => p c = true) a →
  match b with [] => True | c :: _ => p c = false end →
  Py.leading p (a ++ b) = a ∧ Py.lstrip p (a ++ b) = b.
Proof.
  intros Ha Hb. induction Ha as [|x a Hx _ IH]; cbn.
  - destruct b as [|c b]; [done|]. cbn. by rewrite Hb.
  - rewrite Hx. destruct IH as [-> ->]. done.
Qed.

Lemma strip_none (p : N → bool) (s : list N) :
  Forall (fun c => p c = false) s → Py.strip p s = s.
Proof.
  intros Hs. unfold Py.strip. rewrite (lstrip_none _ _ Hs).
  apply rstrip_fixed. destruct s as [|x s _] using rev_ind; [done|].
  rewrite last_snoc. apply Forall_app in Hs as [_ Hs].
  by apply Forall_cons in Hs as [? _].
Qed.

Lemma url_clean_printable (s : list N) :
  Forall (fun c => printable c = true) s → url_clean s = s.
Proof.
  intros Hs. unfold url_clean.
  rewrite lstrip_none.
  - change UrlParse.unsafe_url_bytes_to_remove with [0x09; 0x0D; 0x0A].
    cbn [foldl].
    assert (Habs : ∀ c, printable c = false → c ∉ s).
    { intros c Hc Hin. rewrite Forall_forall in Hs. apply Hs in Hin. congruence. }
    rewrite (remove_char_absent 0x09 s) by by apply Habs.
    rewrite (remove_char_absent 0x0D s) by by apply Habs.
    by rewrite (remove_char_absent 0x0A s) by by apply Habs.
  - eapply Forall_impl; [exact Hs|]. intros c Hc. by apply printable_facts.
Qed.

Lemma Forall_absent (P : N → Prop) (c : N) (s : list N) :
  Forall P s → ¬ P c → c ∉ s.
Proof. intros Hs Hc Hin. rewrite Forall_forall in Hs. by apply Hc, Hs. Qed.

Section Reparse.
Context `{Runtime}.
Variables sch n p q f : list N.
Hypothesis Hsch : scheme_shape sch.
Hypothesis Hn : n ≠ [].
Hypothesis Hnc : Forall (fun c => plain_netloc_char c = true) n.
Hypothesis Hp : rooted p.
Hypothesis Hpc : Forall (fun c => plain_path_char c = true) p.
Hypothesis Hqc : Forall (fun c => printable c = true ∧ c ≠ chr "#") q.
Hypothesis Hfc : Forall (fun c => printable c = true) f.

(** What follows the authority. *)
Let tail : list N :=
  p ++ (if truthy q then py "?" ++ q else []) ++ (if truthy f then py "#" ++ f else []).

Lemma assemble_eq :
  assemble sch n p q f
  = (if truthy sch then sch ++ py ":" else []) ++ chr "/" :: chr "/" :: n ++ tail.
Proof. reflexivity. Qed.

Lemma scheme_printable : Forall (fun c => printable c = true) sch.
Proof.
  destruct Hsch as [->|[_ Hall]]; [constructor|].
  eapply Forall_impl; [exact Hall|]. intros c Hc. by apply lower_scheme_char_facts.
Qed.

Lemma assemble_printable : Forall (fun c => printable c = true) (assemble sch n p q f).
Proof.
  unfold assemble. rewrite !Forall_app. split_and!.
  - destruct (truthy sch); [|constructor]. rewrite Forall_app.
    split; [apply scheme_printable | by repeat constructor].
  - by repeat constructor.
  - eapply Forall_impl; [exact Hnc|]. intros c Hc. by apply plain_netloc_char_facts.
  - eapply Forall_impl; [exact Hpc|]. intros c Hc. by apply plain_path_char_facts.
  - destruct (truthy q); [|constructor]. rewrite Forall_app.
    split; [by repeat constructor|].
    eapply Forall_impl; [exact Hqc|]. by intros c [? _].
  - destruct (truthy f); [|constructor]. rewrite Forall_app.
    split; [by repeat constructor | done].
Qed.

Lemma split_scheme_assemble :
  split_scheme (assemble sch n p q f) = (sch, chr "/" :: chr "/" :: n ++ tail).
Proof.
  rewrite assemble_eq. unfold split_scheme.
  destruct Hsch as [->|[Hhd Hall]].
  - cbn [truthy app].
    destruct (Py.find _ _) as [[|i]|]; [done| |done].
    replace (Py.is_alpha_ascii (hd 0 (chr "/" :: chr "/" :: n ++ tail))) with false
      by reflexivity.
    done.
  - destruct sch as [|c0 sch0] eqn:Esch; [done|]. rewrite <- Esch in *.
    assert (truthy sch = true) as -> by by rewrite Esch.
    change (py ":") with [chr ":"]. rewrite <- app_assoc.
    change ([chr ":"] ++ ?r) with (chr ":" :: r).
    assert (Hcolon : chr ":" ∉ sch).
    { eapply Forall_absent; [exact Hall|]. intros Hc.
      apply lower_scheme_char_facts in Hc. tauto. }
    rewrite (find_app_here _ _ _ Hcolon).
    assert (length sch = S (length sch0)) as Hlen by by rewrite Esch.
    rewrite Hlen, <- Hlen. rewrite take_app_length.
    assert (Py.is_alpha_ascii (hd 0 (sch ++ chr ":" :: chr "/" :: chr "/" :: n ++ tail))
            = true) as ->.
    { rewrite Esch in Hhd, Hall |- *. cbn in Hhd |- *.
      apply Forall_cons in Hall as [Hc0 _].
      by apply lower_scheme_char_facts in Hc0 as (_ & _ & _ & _ & _ & _ & ->). }
    assert (forallb (fun c => Py.contains c UrlParse.scheme_chars) sch = true) as ->.
    { apply forallb_forall. intros c Hc%list_elem_of_In.
      rewrite Forall_forall in Hall. by apply lower_scheme_char_facts, Hall. }
    cbn [andb]. f_equal.
    + assert (Hascii : ascii_text sch).
      { eapply Forall_impl; [exact Hall|]. apply lower_scheme_char_lt. }
      rewrite (lower_ascii_text _ Hascii).
      clear -Hall. induction Hall as [|c s Hc _ IH]; [done|].
      rewrite fmap_cons, IH. f_equal. by apply lower_scheme_char_facts.
    + rewrite cons_middle, app_assoc.
      replace (S (length sch)) with (length (sch ++ [chr ":"]))
        by (rewrite length_app; cbn; lia).
      by rewrite drop_app_length.
Qed.

Lemma tail_head :
  match tail with [] => True | c :: _ => in_netloc c = false end.
Proof.
  unfold tail. destruct Hp as [->|[t ->]]; [|done]. cbn [app].
  destruct (truthy q); [done|]. cbn [app]. by destruct (truthy f).
Qed.

Lemma netloc_brackets_ok : brackets_ok n = true.
Proof.
  unfold brackets_ok.
  assert (Py.contains (chr "[") n = false) as ->.
  { apply contains_false. eapply Forall_absent; [exact Hnc|].
    intros Hc. apply plain_netloc_char_facts in Hc. tauto. }
  assert (Py.contains (chr "]") n = false) as ->.
  { apply contains_false. eapply Forall_absent; [exact Hnc|].
    intros Hc. apply plain_netloc_char_facts in Hc. tauto. }
  done.
Qed.

Lemma split_authority_assemble :
  split_authority (chr "/" :: chr "/" :: n ++ tail) = Ok (n, tail).
Proof.
  unfold split_authority.
  replace (Py.eqb_str (take 2 (chr "/" :: chr "/" :: n ++ tail)) (py "//")) with true
    by (symmetry; by apply eqb_str_spec).
  rewrite splitnetloc_2.
  destruct (leading_app_stop in_netloc n tail) as [-> ->].
  - eapply Forall_impl; [exact Hnc|]. intros c Hc. by apply plain_netloc_char_facts.
  - apply tail_head.
  - by rewrite netloc_brackets_ok.
Qed.

Lemma cut_tail_fragment :
  cut (chr "#") tail = (p ++ (if truthy q then py "?" ++ q else []), f).
Proof.
  assert (Hnot : chr "#" ∉ p ++ (if truthy q then py "?" ++ q else [])).
  { rewrite not_elem_of_app. split.
    - eapply Forall_absent; [exact Hpc|]. intros Hc.
      apply plain_path_char_facts in Hc. tauto.
    - destruct (truthy q); [|apply not_elem_of_nil].
      change (py "?") with [chr "?"]. rewrite not_elem_of_app. split.
      + by intros ?%list_elem_of_singleton.
      + eapply Forall_absent; [exact Hqc|]. intros [_ ?]. done. }
  unfold tail. rewrite app_assoc. destruct f as [|c f'].
  - cbn [truthy]. rewrite app_nil_r. by apply cut_absent.
  - cbn [truthy]. change (py "#" ++ c :: f') with (chr "#" :: c :: f').
    unfold cut. by rewrite split_once_here.
Qed.

Lemma cut_tail_query :
  cut (chr "?") (p ++ (if truthy q then py "?" ++ q else [])) = (p, q).
Proof.
  assert (Hnot : chr "?" ∉ p).
  { eapply Forall_absent; [exact Hpc|]. intros Hc.
    apply plain_path_char_facts in Hc. tauto. }
  destruct q as [|c q'].
  - cbn [truthy]. rewrite app_nil_r. by apply cut_absent.
  - cbn [truthy]. change (py "?" ++ c :: q') with (chr "?" :: c :: q').
    unfold cut. by rewrite split_once_here.
Qed.

Lemma checknetloc_plain : UrlParse.checknetloc n = true.
Proof.
  unfold UrlParse.checknetloc.
  assert (Py.is_ascii n = true) as ->; [|by rewrite orb_true_r].
  apply is_ascii_spec. eapply Forall_impl; [exact Hnc|].
  apply plain_netloc_char_lt.
Qed.

Lemma urlsplit_assemble :
  UrlParse.urlsplit (assemble sch n p q f) = Ok (UrlParse.mkSplit sch n p q f).
Proof.
  rewrite urlsplit_eq, (url_clean_printable _ assemble_printable).
  rewrite split_scheme_assemble, split_authority_assemble.
  cbn [mbind result_bind]. rewrite cut_tail_fragment, cut_tail_query.
  by rewrite checknetloc_plain.
Qed.

Lemma urlparse_assemble :
  UrlParse.urlparse (assemble sch n p q f) = Ok (UrlParse.mkParse sch n p [] q f).
Proof.
  unfold UrlParse.urlparse. rewrite urlsplit_assemble. cbn [mbind result_bind].
  assert (Py.contains (chr ";") p = false) as ->.
  { apply contains_false. eapply Forall_absent; [exact Hpc|]. intros Hc.
    apply plain_path_char_facts in Hc. tauto. }
  by rewrite andb_false_r.
Qed.

Hypothesis Hq : sorted_query q = Ok q.
Hypothesis Hlast : last p ≠ Some (chr "/").
Hypothesis Hln : Py.lower_ascii <$> n = n.
Hypothesis Hlp : Py.lower_ascii <$> p = p.
Hypothesis Hlq : Py.lower_ascii <$> q = q.
Hypothesis Hlf : Py.lower_ascii <$> f = f.

Lemma scheme_lower : Py.lower_ascii <$> sch = sch.
Proof.
  destruct Hsch as [->|[_ Hall]]; [done|].
  clear -Hall. induction Hall as [|c s Hc _ IH]; [done|].
  rewrite fmap_cons, IH. f_equal. by apply lower_scheme_char_facts.
Qed.

Lemma normalize_url_assemble (kf : bool) :
  normalize_url (assemble sch n p q f) kf
  = Ok (assemble sch n p q (if kf then f else [])).
Proof.
  unfold normalize_url.
  rewrite strip_none.
  2:{ eapply Forall_impl; [exact assemble_printable|].
      intros c Hc. by apply printable_facts. }
  rewrite urlparse_assemble. cbn [mbind result_bind UrlParse.query]. rewrite Hq.
  cbn [mbind result_bind UrlParse.scheme UrlParse.netloc UrlParse.path
       UrlParse.params UrlParse.fragment].
  rewrite rstrip_fixed.
  2:{ destruct (last p) as [x|] eqn:E; [|done].
      destruct (N.eqb_spec (chr "/") x) as [<-|]; [done | done]. }
  rewrite (geturl_assemble _ _ _ _ _ Hn Hp).
  rewrite lower_ascii_text.
  2:{ eapply Forall_impl; [exact assemble_printable|]. apply printable_lt. }
  rewrite lower_assemble, scheme_lower, Hln, Hlp, Hlq, Hlf.
  f_equal. destruct kf; cbn [negb]; [done|].
  apply assemble_cut_fragment.
  - destruct Hsch as [->|[_ Hall]]; [apply not_elem_of_nil|].
    eapply Forall_absent; [exact Hall|]. intros Hc.
    apply lower_scheme_char_facts in Hc. tauto.
  - eapply Forall_absent; [exact Hnc|]. intros Hc.
    apply plain_netloc_char_facts in Hc. tauto.
  - eapply Forall_absent; [exact Hpc|]. intros Hc.
    apply plain_path_char_facts in Hc. tauto.
  - eapply Forall_absent; [exact Hqc|]. intros [_ ?]. done.
Qed.
End Reparse.

(** ** [normalize_url] applied twice *)

Lemma rooted_prefix (a b : list N) : a `prefix_of` b → rooted b → rooted a.
Proof.
  intros [k ->] [Hb|[t Hb]].
  - apply app_eq_nil in Hb as [-> _]. by left.
  - destruct a as [|c a]; [by left|]. injection Hb as -> _. right. eauto.
Qed.

Lemma rooted_lower (s : list N) : rooted s → rooted (Py.lower_ascii <$> s).
Proof. intros [->|[t ->]]; [by left | right; eauto]. Qed.

Lemma lower_fmap_idemp (s : list N) :
  Py.lower_ascii <$> (Py.lower_ascii <$> s) = Py.lower_ascii <$> s.
Proof.
  rewrite <- list_fmap_compose. apply list_fmap_ext. intros _ c _.
  apply lower_ascii_idemp.
Qed.

Lemma Forall_lower (cls : N → bool) (s : list N) :
  (∀ c, cls c = true → cls (Py.lower_ascii c) = true) →
  Forall (fun c => cls c = true) s →
  Forall (fun c => cls c = true) (Py.lower_ascii <$> s).
Proof.
  intros Hcls Hs. apply Forall_fmap. eapply Forall_impl; [exact Hs|]. apply Hcls.
Qed.

Lemma Forall_prefix (P : N → Prop) (a b : list N) :
  a `prefix_of` b → Forall P b → Forall P a.
Proof. intros [k ->] Hb. by apply Forall_app in Hb as [? _]. Qed.

Lemma last_lower_slash (s : list N) :
  Forall (fun c => plain_path_char c = true) s →
  last s ≠ Some (chr "/") → last (Py.lower_ascii <$> s) ≠ Some (chr "/").
Proof.
  intros Hs Hl. rewrite fmap_last. destruct (last s) as [x|] eqn:E; [|done].
  cbn. intros [= Hx].
  assert (Hin : x ∈ s).
  { apply last_Some in E as [l' ->]. apply elem_of_app. right. left. }
  rewrite Forall_forall in Hs. apply Hs, plain_path_char_facts in Hin.
  destruct Hin as (_ & _ & _ & _ & _ & Heq).
  rewrite Hx, N.eqb_refl in Heq. symmetry in Heq. apply N.eqb_eq in Heq.
  by subst x.
Qed.

Section Idempotence.
Context `{Runtime}.

(** C3 (as amended).  [normalize_url] applied to its own output returns
    that output, for either value of [keep_url_fragment], on every url
    that parses with a non-empty authority, whose authority, path and
    fragment are printable ASCII without space, the authority without
    brackets and the path without ';' and parameters, and whose decoded
    query keys and values are made of lower-case letters, digits, '-',
    '.', '_' and '~'. *)
Theorem normalize_url_idempotent_on_plain_urls (url : list N) (kf : bool)
    (p : UrlParse.ParseResult) (v : list N) :
  UrlParse.urlparse (Py.strip Py.isspace url) = Ok p →
  UrlParse.netloc p ≠ [] →
  Forall (fun c => plain_netloc_char c = true) (UrlParse.netloc p) →
  Forall (fun c => plain_path_char c = true) (UrlParse.path p) →
  UrlParse.params p = [] →
  Forall (fun c => printable c = true) (UrlParse.fragment p) →
  Forall (fun kv => plain_word kv.1 ∧ plain_word kv.2)
         (UrlParse.parse_qsl (UrlParse.query p)) →
  normalize_url url kf = Ok v →
  normalize_url v kf = Ok v.
Proof.
  intros Hparse Hn Hnc Hpc Hparams Hfc Hwords Hv.
  apply normalize_url_unfold in Hv as (p0 & sq & Hp0 & Hsq & ->).
  rewrite Hparse in Hp0. injection Hp0 as <-.
  destruct (urlparse_shape _ _ Hparse) as [Hsch Hrooted].
  specialize (Hrooted Hn).
  destruct (sorted_query_plain _ _ Hwords Hsq) as [Hfix Hsqc].
  set (sch := UrlParse.scheme p) in *. set (n := UrlParse.netloc p) in *.
  set (f := UrlParse.fragment p) in *.
  set (pa := Py.rstrip (N.eqb (chr "/")) (UrlParse.path p)).
  assert (Hpa_prefix : pa `prefix_of` UrlParse.path p) by apply rstrip_prefix.
  assert (Hpa_rooted : rooted pa) by by eapply rooted_prefix.
  assert (Hpa_c : Forall (fun c => plain_path_char c = true) pa)
    by by eapply Forall_prefix.
  assert (Hpa_last : last pa ≠ Some (chr "/")).
  { pose proof (rstrip_last (N.eqb (chr "/")) (UrlParse.path p)) as Hl.
    fold pa in Hl. destruct (last pa) as [x|]; [|done].
    intros [= ->]. by rewrite N.eqb_refl in Hl. }
  assert (Hsq1 : Forall (fun c => printable c = true ∧ c ≠ chr "#") sq).
  { eapply Forall_impl; [exact Hsqc|]. intros c (? & _ & ?). done. }
  assert (Hsq2 : Py.lower_ascii <$> sq = sq).
  { clear -Hsqc. induction Hsqc as [|c s (_ & Hc & _) _ IH]; [done|].
    by rewrite fmap_cons, IH, Hc. }
  rewrite Hparams, (geturl_assemble _ _ _ _ _ Hn Hpa_rooted).
  cbv zeta.
  rewrite lower_ascii_text.
  2:{ eapply Forall_impl; [apply (assemble_printable sch n pa sq f); done|].
      apply printable_lt. }
  rewrite lower_assemble, (scheme_lower _ Hsch), Hsq2.
  set (n' := Py.lower_ascii <$> n). set (pa' := Py.lower_ascii <$> pa).
  set (f' := Py.lower_ascii <$> f).
  assert (Hn' : n' ≠ []) by (subst n'; by destruct n).
  assert (Hn'c : Forall (fun c => plain_netloc_char c = true) n').
  { apply Forall_lower; [|done]. intros c Hc. by apply plain_netloc_char_facts. }
  assert (Hpa'c : Forall (fun c => plain_path_char c = true) pa').
  { apply Forall_lower; [|done]. intros c Hc. by apply plain_path_char_facts. }
  assert (Hf'c : Forall (fun c => printable c = true) f').
  { apply Forall_lower; [|done]. intros c Hc. by apply printable_facts. }
  assert (Hpa'_rooted : rooted pa') by by apply rooted_lower.
  assert (Hpa'_last : last pa' ≠ Some (chr "/")) by by apply last_lower_slash.
  assert (Hshape : ∀ F, Forall (fun c => printable c = true) F →
                        Py.lower_ascii <$> F = F →
            normalize_url (assemble sch n' pa' sq F) kf
            = Ok (assemble sch n' pa' sq (if kf then F else []))).
  { intros F HF HlF.
    apply normalize_url_assemble; try done; apply lower_fmap_idemp. }
  destruct kf; cbn [negb].
  - apply (Hshape f' Hf'c), lower_fmap_idemp.
  - rewrite assemble_cut_fragment.
    + apply (Hshape []); [constructor | done].
    + destruct Hsch as [->|[_ Hall]]; [apply not_elem_of_nil|].
      eapply Forall_absent; [exact Hall|]. intros Hc.
      apply lower_scheme_char_facts in Hc. tauto.
    + eapply Forall_absent; [exact Hn'c|]. intros Hc.
      apply plain_netloc_char_facts in Hc. tauto.
    + eapply Forall_absent; [exact Hpa'c|]. intros Hc.
      apply plain_path_char_facts in Hc. tauto.
    + eapply Forall_absent; [exact Hsq1|]. intros [_ ?]. done.
Qed.
End Idempotence.

Section IdempotenceExamples.
#[local] Existing Instance ascii_runtime.

(** C3 as stated fails: two keys that differ in case only are both kept
    by the first pass, which lower-cases them afterwards, and merged by
    the second. *)
Lemma normalize_url_not_idempotent :
  normalize_url (py "http://x.com/?A=1&a=2") false = Ok (py "http://x.com?a=1&a=2")
  ∧ normalize_url (py "http://x.com?a=1&a=2") false = Ok (py "http://x.com?a=2")
  ∧ py "http://x.com?a=2" ≠ py "http://x.com?a=1&a=2".
Proof.
  split; [vm_compute; reflexivity|].
  split; [vm_compute; reflexivity | vm_compute; discriminate].
Qed.

Lemma normalize_url_idempotent_on_plain_urls_witness :
  normalize_url (py "https://example.com/page?a=1&b=2#top") true
  = Ok (py "https://example.com/page?a=1&b=2#top").
Proof.
  apply (normalize_url_idempotent_on_plain_urls
           (py "HTTPS://Example.com/Page/?b=2&utm_source=x&a=1#Top") true
           (UrlParse.mkParse (py "https") (py "Example.com") (py "/Page/") []
              (py "b=2&utm_source=x&a=1") (py "Top"))).
  - vm_compute. reflexivity.
  - vm_compute. discriminate.
  - apply Forall_forall. intros c Hc. vm_compute in Hc.
    repeat (apply elem_of_cons in Hc as [-> | Hc]; [by vm_compute|]).
    by apply elem_of_nil in Hc.
  - apply Forall_forall. intros c Hc. vm_compute in Hc.
    repeat (apply elem_of_cons in Hc as [-> | Hc]; [by vm_compute|]).
    by apply elem_of_nil in Hc.
  - reflexivity.
  - apply Forall_forall. intros c Hc. vm_compute in Hc.
    repeat (apply elem_of_cons in Hc as [-> | Hc]; [by vm_compute|]).
    by apply elem_of_nil in Hc.
  - apply Forall_forall. intros [k v] Hkv. vm_compute in Hkv.
    repeat (apply elem_of_cons in Hkv as [Hkv' | Hkv];
            [injection Hkv' as -> ->; split; repeat constructor|]).
    by apply elem_of_nil in Hkv.
  - vm_compute. reflexivity.
Defined.
End IdempotenceExamples.

(** ** More on [unique_key_to_request_id] *)

Lemma bounded_check (k : nat) (f : N → bool) :
  forallb f (N.of_nat <$> seq 0 k) = true → ∀ c, c < N.of_nat k → f c = true.
Proof.
  intros Hall c Hc. rewrite forallb_forall in Hall. apply Hall.
  apply list_elem_of_In, list_elem_of_fmap. exists (N.to_nat c). split; [lia|].
  apply list_elem_of_In, in_seq. lia.
Qed.

Lemma b64_digit_class (n : N) :
  n < 64 →
  alnum (Base64.digit n) || (Base64.digit n =? chr "+") || (Base64.digit n =? chr "/")
  = true.
Proof.
  revert n.
  apply (bounded_check 64
           (fun n => alnum (Base64.digit n) || (Base64.digit n =? chr "+")
                     || (Base64.digit n =? chr "/"))).
  vm_compute. reflexivity.
Qed.

Lemma b64_digit_kept (n : N) (c : N) :
  n < 64 → c = Base64.digit n →
  c ≠ chr "+" ∧ c ≠ chr "/" ∧ c ≠ chr "=" → alnum c = true.
Proof.
  intros Hn -> (Hplus & Hslash & _). pose proof (b64_digit_class n Hn) as Hc.
  apply orb_true_iff in Hc as [Hc|Hc]; [|apply N.eqb_eq in Hc; done].
  apply orb_true_iff in Hc as [Hc|Hc]; [done | apply N.eqb_eq in Hc; done].
Qed.

Lemma encodeN_kept_alnum (l : list N) :
  Forall (fun b => b < 256) l → Forall (fun c => alnum c = true)
                                        (strip_url_unsafe (Base64.encodeN l)).
Proof.
  remember (length l) as n eqn:Hn. revert l Hn.
  induction n as [n IH] using lt_wf_ind. intros l Hn Hl.
  apply Forall_forall. intros x Hx.
  unfold strip_url_unsafe in Hx. apply list_elem_of_filter in Hx as [Hkeep Hx].
  destruct l as [|a [|b [|c rest]]]; cbn [Base64.encodeN] in Hx.
  - by apply elem_of_nil in Hx.
  - apply Forall_cons in Hl as [Ha _].
    repeat (apply elem_of_cons in Hx as [Hx|Hx]);
      [eapply b64_digit_kept; [|exact Hx|done]; div_mod_lia
      |eapply b64_digit_kept; [|exact Hx|done]; div_mod_lia
      |subst x; tauto | subst x; tauto | by apply elem_of_nil in Hx].
  - apply Forall_cons in Hl as [Ha Hl]. apply Forall_cons in Hl as [Hb _].
    repeat (apply elem_of_cons in Hx as [Hx|Hx]);
      [eapply b64_digit_kept; [|exact Hx|done]; div_mod_lia
      |eapply b64_digit_kept; [|exact Hx|done]; div_mod_lia
      |eapply b64_digit_kept; [|exact Hx|done]; div_mod_lia
      |subst x; tauto | by apply elem_of_nil in Hx].
  - apply Forall_cons in Hl as [Ha Hl]. apply Forall_cons in Hl as [Hb Hl].
    apply Forall_cons in Hl as [Hc Hl].
    do 4 (apply elem_of_cons in Hx as [Hx|Hx];
          [eapply b64_digit_kept; [|exact Hx|done]; div_mod_lia|]).
    assert (Hrest : Forall (fun c => alnum c = true)
                           (strip_url_unsafe (Base64.encodeN rest))).
    { apply (IH (length rest)); [simpl in Hn; lia | done | done]. }
    rewrite Forall_forall in Hrest. apply Hrest.
    unfold strip_url_unsafe. by apply list_elem_of_filter.
Qed.

Lemma available_chars_alnum (kb : list byte) :
  Forall (fun c => alnum c = true) (available_chars kb).
Proof. apply encodeN_kept_alnum, to_N_lt_256. Qed.

Lemma encode_raises (s : list N) (e : exception) :
  Utf8.encode s = Raise e → e = UnicodeEncodeError.
Proof.
  unfold Utf8.encode. induction s as [|c s IH]; cbn; [done|].
  destruct (Utf8.encode_char c) as [bs|e'] eqn:Ec; cbn.
  - destruct (result_mapM Utf8.encode_char s) as [l|e'']; cbn in *; [done|].
    intros [= <-]. by apply IH.
  - intros [= <-]. unfold Utf8.encode_char in Ec.
    repeat match type of Ec with
           | (if ?b then _ else _) = _ => destruct b
           end; congruence.
Qed.

Lemma request_id_Ok (unique_key : list N) (n : Z) (id : list N) :
  unique_key_to_request_id unique_key n = Ok id →
  ∃ kb, Utf8.encode unique_key = Ok kb ∧ id = Py.slice_to n (available_chars kb).
Proof.
  intros Hid. destruct (Utf8.encode unique_key) as [kb|e] eqn:Ekb.
  - exists kb. split; [done|]. rewrite (request_id_eq _ kb n Ekb) in Hid. congruence.
  - unfold unique_key_to_request_id in Hid. by rewrite Ekb in Hid.
Qed.

(** X1.  Whatever the key and the requested length, a request ID that
    [unique_key_to_request_id] returns is made of ASCII letters and digits
    only. *)
Theorem request_id_alphanumeric (unique_key : list N) (request_id_length : Z)
    (id : list N) :
  unique_key_to_request_id unique_key request_id_length = Ok id →
  Forall (fun c => alnum c = true) id.
Proof.
  intros (kb & _ & ->)%request_id_Ok.
  pose proof (available_chars_alnum kb) as Hall.
  rewrite Forall_forall in Hall |- *. intros c Hc. apply Hall.
  eapply elem_of_prefix; [exact Hc | apply slice_to_sublist].
Qed.

Lemma request_id_alphanumeric_witness :
  Forall (fun c => alnum c = true) (py "zJDDgYCInD").
Proof.
  apply (request_id_alphanumeric (py "http://example.com/a?b=1") 10).
  vm_compute. reflexivity.
Defined.

Lemma slice_to_all {A} (n : Z) (s : list A) :
  (Z.of_nat (length s) ≤ n)%Z → Py.slice_to n s = s.
Proof.
  intros Hn. unfold Py.slice_to. destruct (Z.leb_spec 0 n); [|lia].
  apply take_ge. lia.
Qed.

Lemma request_id_full (unique_key : list N) (full : list N) :
  unique_key_to_request_id unique_key 43 = Ok full →
  ∃ kb, Utf8.encode unique_key = Ok kb ∧ full = available_chars kb.
Proof.
  intros (kb & Hkb & ->)%request_id_Ok. exists kb. split; [done|].
  apply slice_to_all. pose proof (available_chars_length kb). lia.
Qed.

(** X2.  [request_id_length] is not checked at the lower end: when the key
    has a request ID at all, the length 0 gives the empty ID, and a negative
    length [-k] gives the longest ID (the one of length 43 or more) without
    its last [k] characters, or without all of them when it has fewer; no
    error is raised. *)
Theorem request_id_zero_or_negative_length (unique_key : list N) (full : list N) :
  unique_key_to_request_id unique_key 43 = Ok full →
  unique_key_to_request_id unique_key 0 = Ok []
  ∧ ∀ k : nat, (0 < k)%nat →
      ∃ id dropped,
        unique_key_to_request_id unique_key (- Z.of_nat k) = Ok id
        ∧ full = id ++ dropped
        ∧ length dropped = Nat.min k (length full).
Proof.
  intros (kb & Hkb & ->)%request_id_full. split.
  - by rewrite (request_id_eq _ kb 0 Hkb).
  - intros k Hk. set (avail := available_chars kb).
    exists (take (length avail - k) avail), (drop (length avail - k) avail).
    split; [|split].
    + rewrite (request_id_eq _ kb _ Hkb). fold avail. unfold Py.slice_to.
      destruct (Z.leb_spec 0 (- Z.of_nat k)); [lia|].
      do 2 f_equal. lia.
    + by rewrite take_drop.
    + rewrite length_drop. lia.
Qed.

Lemma request_id_zero_or_negative_length_witness :
  unique_key_to_request_id (py "http://example.com") 0 = Ok []
  ∧ ∀ k : nat, (0 < k)%nat →
      ∃ id dropped,
        unique_key_to_request_id (py "http://example.com") (- Z.of_nat k) = Ok id
        ∧ py "8OamqXBCpPHxyH9ffUQxWy2FLC31x5kcxmJBv3By0cQ" = id ++ dropped
        ∧ length dropped
          = Nat.min k (length (py "8OamqXBCpPHxyH9ffUQxWy2FLC31x5kcxmJBv3By0cQ")).
Proof.
  apply (request_id_zero_or_negative_length (py "http://example.com")).
  vm_compute. reflexivity.
Defined.

(** X3.  Request IDs of different lengths agree: for [0 <= n <= m], the
    ID of length [n] is the first [n] characters of the ID of length [m],
    when that one has as many, and the whole of it otherwise. *)
Theorem request_id_is_prefix_of_longer (unique_key : list N) (n m : Z)
    (longer : list N) :
  (0 ≤ n ≤ m)%Z →
  unique_key_to_request_id unique_key m = Ok longer →
  unique_key_to_request_id unique_key n = Ok (take (Z.to_nat n) longer).
Proof.
  intros Hnm (kb & Hkb & ->)%request_id_Ok.
  rewrite (request_id_eq _ kb n Hkb). unfold Py.slice_to.
  destruct (Z.leb_spec 0 n); [|lia]. destruct (Z.leb_spec 0 m); [|lia].
  rewrite take_take. do 2 f_equal. lia.
Qed.

Lemma request_id_is_prefix_of_longer_witness :
  unique_key_to_request_id (py "http://example.com") 15
  = Ok (take (Z.to_nat 15) (py "8OamqXBCpPHxyH9ffUQxWy2FLC31x5kcxmJBv3By0cQ")).
Proof.
  apply (request_id_is_prefix_of_longer (py "http://example.com") 15 43).
  - lia.
  - vm_compute. reflexivity.
Defined.

(** X4.  [unique_key_to_request_id] raises for the keys that UTF-8 cannot
    encode (a lone surrogate) and for no other, whatever the requested
    length, and the exception is then [UnicodeEncodeError]. *)
Theorem request_id_raises_iff_not_encodable (unique_key : list N)
    (request_id_length : Z) (e : exception) :
  unique_key_to_request_id unique_key request_id_length = Raise e
  ↔ e = UnicodeEncodeError ∧ ¬ encodable unique_key.
Proof.
  destruct (Utf8.encode unique_key) as [kb|e'] eqn:Ekb.
  - rewrite (request_id_eq _ kb _ Ekb). split; [done|].
    intros [_ Hne]. destruct Hne. apply encode_Ok. eauto.
  - pose proof (encode_raises _ _ Ekb) as ->.
    unfold unique_key_to_request_id. rewrite Ekb. cbn. split.
    + intros [= <-]. split; [done|]. intros [bs Hbs]%encode_Ok. congruence.
    + by intros [-> _].
Qed.

Lemma request_id_raises_iff_not_encodable_witness :
  unique_key_to_request_id [0x61; 0xDC00] 15 = Raise UnicodeEncodeError.
Proof.
  apply (request_id_raises_iff_not_encodable [0x61; 0xDC00] 15 UnicodeEncodeError).
  split; [reflexivity|]. intros Henc.
  apply Forall_cons in Henc as [_ Henc]. apply Forall_cons in Henc as [Hc _].
  unfold scalar_value in Hc. lia.
Defined.

(** ** More on [compute_unique_key] *)

Lemma Ok_inj {A} (a b : A) : Ok a = Ok b → a = b.
Proof. congruence. Qed.

Lemma join_cons (sep x : list N) (xs : list (list N)) :
  Py.join sep (x :: xs) = x ++ join_tail sep xs.
Proof. destruct xs; cbn; by rewrite ?app_nil_r. Qed.

Lemma whitelisted_entries_ext (hs hs' : gmap (list N) (list N)) (wl : list (list N)) :
  (∀ name, name ∈ wl → hs !! name = hs' !! name) →
  whitelisted_entries hs wl = whitelisted_entries hs' wl.
Proof.
  induction wl as [|n rest IH]; intros Hagree; [done|]. cbn.
  rewrite <- (Hagree n) by left.
  rewrite IH; [done|]. intros name Hname. apply Hagree. by right.
Qed.

(** *** One header value as a variable *)

Section OneHeader.
Variable hs : gmap (list N) (list N).
Variable name : list N.

Let entries (v : list N) (wl : list (list N)) : list (list N) :=
  whitelisted_entries (<[name := v]> hs) wl.

Lemma entries_nil_indep (v v' : list N) (wl : list (list N)) :
  entries v wl = [] → entries v' wl = [].
Proof.
  unfold entries. induction wl as [|n rest IH]; [done|]. cbn.
  destruct (decide (n = name)) as [->|Hn].
  - by rewrite !lookup_insert_eq.
  - rewrite !lookup_insert_ne by done. destruct (hs !! n); [done | exact IH].
Qed.

Lemma entries_present (v : list N) (wl : list (list N)) :
  name ∈ wl → entries v wl ≠ [].
Proof.
  unfold entries. induction wl as [|n rest IH]; intros Hin.
  - by apply elem_of_nil in Hin.
  - cbn. destruct (decide (n = name)) as [->|Hn].
    + by rewrite lookup_insert_eq.
    + rewrite lookup_insert_ne by done.
      apply elem_of_cons in Hin as [Hin|Hin]; [congruence|].
      destruct (hs !! n); [done | by apply IH].
Qed.

(** The length of the joined entries is affine in the length of the value. *)
Lemma entries_length (sep : list N) (wl : list (list N)) :
  ∃ a c : nat, ∀ v, length (Py.join sep (entries v wl)) = (a + c * length v)%nat.
Proof.
  induction wl as [|n rest (a & c & IH)].
  - exists 0%nat, 0%nat. done.
  - assert (Htail : ∃ a' c' : nat, ∀ v,
               length (join_tail sep (entries v rest)) = (a' + c' * length v)%nat).
    { destruct (entries [] rest) as [|e0 es0] eqn:E0.
      - exists 0%nat, 0%nat. intros v.
        by rewrite (entries_nil_indep [] v rest E0).
      - exists (length sep + a)%nat, c. intros v.
        destruct (entries v rest) as [|e es] eqn:E.
        + apply (entries_nil_indep v []) in E. congruence.
        + cbn [join_tail]. rewrite length_app, <- E, IH. lia. }
    destruct Htail as (a' & c' & Htail).
    destruct (decide (n = name)) as [->|Hn].
    + exists (length name + 1 + a')%nat, (S c'). intros v.
      unfold entries. cbn [whitelisted_entries]. rewrite lookup_insert_eq.
      rewrite join_cons. fold (entries v rest).
      rewrite !length_app, Htail.
      change (length (py ":")) with 1%nat. lia.
    + destruct (hs !! n) as [u|] eqn:Eu.
      * exists (length (n ++ py ":" ++ u) + a')%nat, c'. intros v.
        unfold entries. cbn [whitelisted_entries].
        rewrite lookup_insert_ne, Eu by done.
        rewrite join_cons. fold (entries v rest).
        rewrite length_app, Htail. lia.
      * exists a, c. intros v. unfold entries. cbn [whitelisted_entries].
        rewrite lookup_insert_ne, Eu by done. apply IH.
Qed.

Lemma entries_inj (sep : list N) (wl : list (list N)) (v v' : list N) :
  name ∈ wl →
  Py.join sep (entries v wl) = Py.join sep (entries v' wl) → v = v'.
Proof.
  induction wl as [|n rest IH]; intros Hin Heq.
  - by apply elem_of_nil in Hin.
  - unfold entries in Heq. cbn [whitelisted_entries] in Heq.
    destruct (decide (n = name)) as [->|Hn].
    + rewrite !lookup_insert_eq, !join_cons in Heq.
      fold (entries v rest) in Heq. fold (entries v' rest) in Heq.
      rewrite <- !app_assoc in Heq. apply app_inv_head in Heq.
      cbn [app] in Heq. injection Heq as Heq.
      assert (Hlen : length v = length v').
      { destruct (entries [] rest) as [|e0 es0] eqn:E0.
        - rewrite (entries_nil_indep [] v rest E0),
            (entries_nil_indep [] v' rest E0) in Heq.
          by rewrite !app_nil_r in Heq; subst.
        - destruct (entries_length sep rest) as (a & c & Hl).
          apply (f_equal length) in Heq. rewrite !length_app in Heq.
          destruct (entries v rest) as [|e es] eqn:E.
          { apply (entries_nil_indep v []) in E. congruence. }
          destruct (entries v' rest) as [|e' es'] eqn:E'.
          { apply (entries_nil_indep v' []) in E'. congruence. }
          cbn [join_tail] in Heq. rewrite !length_app in Heq.
          rewrite <- E, <- E', !Hl in Heq. nia. }
      by apply app_inj_1 in Heq as [Heq _].
    + rewrite !lookup_insert_ne in Heq by done.
      apply elem_of_cons in Hin as [Hin|Hin]; [congruence|].
      destruct (hs !! n) as [u|].
      * rewrite !join_cons in Heq. apply app_inv_head in Heq.
        fold (entries v rest) in Heq. fold (entries v' rest) in Heq.
        pose proof (entries_present v rest Hin) as Hv.
        pose proof (entries_present v' rest Hin) as Hv'.
        destruct (entries v rest) as [|e es] eqn:E; [done|].
        destruct (entries v' rest) as [|e' es'] eqn:E'; [done|].
        cbn [join_tail] in Heq. apply app_inv_head in Heq.
        apply IH; [done|]. exact Heq.
      * by apply IH.
Qed.
End OneHeader.

Lemma encode_truthy (s : list N) (bs : list byte) :
  Utf8.encode s = Ok bs → truthy bs = truthy s.
Proof.
  intros Hbs. destruct s as [|c s]; [by injection Hbs as <-|].
  apply encode_bytes in Hbs as [_ Hbs]. destruct bs as [|b bs]; [|done].
  cbn in Hbs. symmetry in Hbs. apply app_eq_nil in Hbs as [Hc _].
  by apply utf8_bytes_nonempty in Hc.
Qed.

Lemma upper_ascii_idemp (c : N) : Py.upper_ascii (Py.upper_ascii c) = Py.upper_ascii c.
Proof.
  unfold Py.upper_ascii. destruct (Py.is_lower_ascii c) eqn:E; [|by rewrite E].
  unfold Py.is_lower_ascii in *. apply andb_true_iff in E as [E1%N.leb_le E2%N.leb_le].
  destruct (N.leb_spec 0x61 (c - 32)); [lia | done].
Qed.

Lemma upper_ascii_lt (c : N) : c < 128 → Py.upper_ascii c < 128.
Proof.
  unfold Py.upper_ascii, Py.is_lower_ascii. intros Hc.
  destruct (N.leb_spec 0x61 c), (N.leb_spec c 0x7A); cbn [andb]; lia.
Qed.

Section UniqueKeyMore.
Context `{Runtime} `{ShortHash}.

Lemma upper_ascii_text (s : list N) :
  ascii_text s → Py.upper s = Py.upper_ascii <$> s.
Proof.
  unfold Py.upper. induction 1 as [|c s Hc _ IH]; [done|]. cbn.
  destruct (N.ltb_spec c 128); [|lia]. cbn. by rewrite IH.
Qed.

Lemma upper_idemp (s : list N) : ascii_text s → Py.upper (Py.upper s) = Py.upper s.
Proof.
  intros Hs. rewrite (upper_ascii_text s Hs). rewrite upper_ascii_text.
  - rewrite <- list_fmap_compose. apply list_fmap_ext. intros _ c _.
    apply upper_ascii_idemp.
  - apply Forall_fmap. eapply Forall_impl; [exact Hs|]. apply upper_ascii_lt.
Qed.

(** X5.  Headers outside the whitelist do not enter the key: two
    non-empty [headers] that agree on every whitelisted name (same value,
    or both without the name) give the same key. *)
Theorem non_whitelisted_headers_ignored (url method : list N)
    (payload : option HttpPayload) (kf ext : bool)
    (hs hs' : gmap (list N) (list N)) (wl : list (list N)) :
  hs ≠ ∅ → hs' ≠ ∅ →
  (∀ name, name ∈ wl → hs !! name = hs' !! name) →
  compute_unique_key url method payload kf ext (Some hs) (Some wl)
  = compute_unique_key url method payload kf ext (Some hs') (Some wl).
Proof.
  intros Hhs Hhs' Hagree. rewrite !compute_unique_key_eq.
  unfold header_segment.
  rewrite (dict_truthy_true _ Hhs), (dict_truthy_true _ Hhs'), !header_parts_spec.
  by rewrite (whitelisted_entries_ext hs hs' wl Hagree).
Qed.

(** X6.  The value of a whitelisted header enters the key: giving a
    whitelisted name another value, all else unchanged, gives another
    key. *)
Theorem whitelisted_header_value_changes_key (url method : list N)
    (payload : option HttpPayload) (kf ext : bool)
    (hs : gmap (list N) (list N)) (wl : list (list N))
    (name v v' key : list N) :
  name ∈ wl → v ≠ v' →
  compute_unique_key url method payload kf ext (Some (<[name := v]> hs)) (Some wl)
  = Ok key →
  compute_unique_key url method payload kf ext (Some (<[name := v']> hs)) (Some wl)
  ≠ Ok key.
Proof.
  intros Hin Hv. rewrite !compute_unique_key_eq.
  assert (Hwl : wl ≠ []) by (intros ->; by apply elem_of_nil in Hin).
  rewrite !header_segment_present by (done || apply insert_non_empty).
  destruct (extended_key _ _ _ _) as [ek|e]; cbn [mbind result_bind]; [|done].
  intros <-%Ok_inj Heq%Ok_inj. do 2 apply app_inv_head in Heq.
  apply entries_inj in Heq; [congruence | done].
Qed.

(** X7.  A text payload and the bytes of its UTF-8 encoding give the
    same key. *)
Theorem text_payload_keyed_as_its_utf8_bytes (url method : list N) (s : list N)
    (bs : list byte) (kf ext : bool)
    (headers : option (gmap (list N) (list N))) (wl : option (list (list N))) :
  Utf8.encode s = Ok bs →
  compute_unique_key url method (Some (PayloadStr s)) kf ext headers wl
  = compute_unique_key url method (Some (PayloadBytes bs)) kf ext headers wl.
Proof.
  intros Hbs. rewrite !compute_unique_key_eq. unfold extended_key. cbn.
  by rewrite Hbs, (encode_truthy s bs Hbs).
Qed.

(** X8.  In extended mode the payload enters the key through the short
    hash of its bytes only (the bytes payload itself, the UTF-8 encoding
    of a text payload): two non-empty payloads give the same key exactly
    when [compute_short_hash] gives their bytes the same hash. *)
Theorem payloads_told_apart_by_short_hash (url method : list N)
    (payload payload' : HttpPayload) (bs bs' : list byte) (kf : bool)
    (headers : option (gmap (list N) (list N))) (wl : option (list (list N))) :
  payload_bytes payload bs → payload_bytes payload' bs' →
  bs ≠ [] → bs' ≠ [] →
  compute_unique_key url method (Some payload) kf true headers wl
  = compute_unique_key url method (Some payload') kf true headers wl
  ↔ compute_short_hash bs = compute_short_hash bs'.
Proof.
  intros Hp Hp' Hbs Hbs'.
  assert (Hkey : ∀ p b, payload_bytes p b → b ≠ [] →
            compute_unique_key url method (Some p) kf true headers wl
            = Ok ((Py.upper method ++ py "(" ++ compute_short_hash b
                     ++ py "):" ++ normalized_or_raw url kf)
                  ++ header_segment headers wl)).
  { intros p b Hpb Hb. rewrite compute_unique_key_eq. unfold extended_key.
    destruct Hpb as [b|s b Hs]; cbn [andb payload_truthy payload_in_bytes].
    - by rewrite (truthy_true _ Hb).
    - rewrite <- (encode_truthy s b Hs), (truthy_true _ Hb), Hs. reflexivity. }
  rewrite (Hkey _ _ Hp Hbs), (Hkey _ _ Hp' Hbs'). split.
  - intros Heq%Ok_inj. apply app_inv_tail in Heq.
    do 2 apply app_inv_head in Heq. by apply app_inv_tail in Heq.
  - by intros ->.
Qed.

(** X9.  [compute_unique_key] raises in one case only: in extended mode,
    on a text payload that UTF-8 cannot encode (a lone surrogate); the
    exception is [UnicodeEncodeError].  No url, method, header or bytes
    payload makes it raise. *)
Theorem unique_key_raises_iff_payload_not_encodable (url method : list N)
    (payload : option HttpPayload) (kf ext : bool)
    (headers : option (gmap (list N) (list N))) (wl : option (list (list N)))
    (e : exception) :
  compute_unique_key url method payload kf ext headers wl = Raise e
  ↔ e = UnicodeEncodeError ∧ ext = true
    ∧ ∃ s, payload = Some (PayloadStr s) ∧ ¬ encodable s.
Proof.
  rewrite compute_unique_key_eq. unfold extended_key. split.
  - destruct ext; cbn; [|done].
    destruct payload as [[s|b]|]; cbn; [| by destruct (truthy b) | done].
    destruct (truthy s); cbn; [|done].
    destruct (Utf8.encode s) as [bs|e'] eqn:Es; cbn; [done|].
    intros [= <-]. split; [by eapply encode_raises|]. split; [done|].
    exists s. split; [done|]. intros [bs Hbs]%encode_Ok. congruence.
  - intros (-> & -> & s & -> & Hs). cbn [andb payload_truthy payload_in_bytes].
    destruct (Utf8.encode s) as [bs|e'] eqn:Es.
    + destruct Hs. apply encode_Ok. eauto.
    + pose proof (encode_raises _ _ Es) as ->.
      destruct s as [|c s]; [discriminate Es | reflexivity].
Qed.

(** X10.  An empty [headers] or an empty [whitelisted_headers] count as
    absent: nothing is appended to the key base, not even the '|'. *)
Theorem empty_headers_or_whitelist_add_nothing (url method : list N)
    (payload : option HttpPayload) (kf ext : bool)
    (hs : gmap (list N) (list N)) (wl : list (list N)) :
  compute_unique_key url method payload kf ext (Some ∅) (Some wl)
  = compute_unique_key url method payload kf ext None None
  ∧ compute_unique_key url method payload kf ext (Some hs) (Some [])
    = compute_unique_key url method payload kf ext None None.
Proof.
  rewrite !compute_unique_key_eq. unfold header_segment, dict_truthy.
  split.
  - by rewrite bool_decide_eq_false_2 by (intros Hne; by apply Hne).
  - cbn [truthy]. by rewrite andb_false_r.
Qed.

(** X11.  The case of the method does not matter: an ASCII method and
    its upper-case form give the same key, in every mode. *)
Theorem method_case_ignored (url method : list N)
    (payload : option HttpPayload) (kf ext : bool)
    (headers : option (gmap (list N) (list N))) (wl : option (list (list N))) :
  ascii_text method →
  compute_unique_key url (Py.upper method) payload kf ext headers wl
  = compute_unique_key url method payload kf ext headers wl.
Proof.
  intros Hm. rewrite !compute_unique_key_eq. by rewrite (upper_idemp method Hm).
Qed.

(** X12.  The two functions compose on ASCII urls: the key that
    [compute_unique_key] gives an ASCII url under the default arguments is
    ASCII text, whether the url could be normalized or not, and
    [unique_key_to_request_id] turns it into a request ID without raising,
    whatever the length asked for. *)
Theorem ascii_url_has_key_and_request_id (url : list N) (request_id_length : Z) :
  ascii_text url →
  ∃ key id,
    compute_unique_key_default url = Ok key
    ∧ ascii_text key
    ∧ unique_key_to_request_id key request_id_length = Ok id.
Proof.
  intros Hurl. unfold compute_unique_key_default.
  rewrite compute_unique_key_eq. cbn. rewrite app_nil_r.
  assert (Hkey : ascii_text (normalized_or_raw url false)).
  { unfold normalized_or_raw.
    destruct (normalize_url url false) as [v|e] eqn:Ev; [|done].
    eapply Forall_impl; [exact (normalize_url_ascii_lower url false v Hurl Ev)|].
    by intros c [Hc _]. }
  exists (normalized_or_raw url false).
  eexists. split; [done|]. split; [done|].
  apply request_id_eq, encode_ascii, Hkey.
Qed.
End UniqueKeyMore.

Section UniqueKeyMoreExamples.
#[local] Existing Instance ascii_runtime.
#[local] Existing Instance sample_short_hash.

Lemma non_whitelisted_headers_ignored_witness :
  compute_unique_key (py "http://x.com/a") (py "GET") None false false
    (Some (<[py "accept" := py "text/html"]> {[py "cookie" := py "1"]}))
    (Some [py "accept"])
  = compute_unique_key (py "http://x.com/a") (py "GET") None false false
      (Some {[py "accept" := py "text/html"]}) (Some [py "accept"]).
Proof.
  apply (non_whitelisted_headers_ignored (py "http://x.com/a") (py "GET") None
           false false).
  - apply insert_non_empty.
  - apply map_non_empty_singleton.
  - intros name ->%list_elem_of_singleton.
    by rewrite lookup_insert_eq, lookup_singleton_eq.
Defined.

Lemma whitelisted_header_value_changes_key_witness :
  compute_unique_key (py "http://x.com/a") (py "GET") None false false
    (Some (<[py "accept" := py "text/plain"]> ∅)) (Some [py "accept"])
  ≠ Ok (py "http://x.com/a|accept:text/html").
Proof.
  apply (whitelisted_header_value_changes_key (py "http://x.com/a") (py "GET") None
           false false ∅ [py "accept"] (py "accept") (py "text/html")
           (py "text/plain")).
  - apply list_elem_of_singleton. reflexivity.
  - vm_compute. discriminate.
  - vm_compute. reflexivity.
Defined.

Lemma text_payload_keyed_as_its_utf8_bytes_witness :
  compute_unique_key (py "http://x.com/a") (py "POST") (Some (PayloadStr (py "a=1")))
    false true None None
  = compute_unique_key (py "http://x.com/a") (py "POST")
      (Some (PayloadBytes (byte_of <$> py "a=1"))) false true None None.
Proof.
  apply (text_payload_keyed_as_its_utf8_bytes (py "http://x.com/a") (py "POST")
           (py "a=1") (byte_of <$> py "a=1") false true None None).
  vm_compute. reflexivity.
Defined.

Lemma payloads_told_apart_by_short_hash_witness :
  compute_unique_key (py "http://x.com/a") (py "POST")
    (Some (PayloadBytes ["a"%byte])) false true None None
  ≠ compute_unique_key (py "http://x.com/a") (py "POST")
      (Some (PayloadStr (py "b"))) false true None None.
Proof.
  intros Heq.
  apply (payloads_told_apart_by_short_hash (py "http://x.com/a") (py "POST")
           (PayloadBytes ["a"%byte]) (PayloadStr (py "b"))
           ["a"%byte] ["b"%byte] false None None) in Heq.
  - vm_compute in Heq. discriminate Heq.
  - constructor.
  - constructor. vm_compute. reflexivity.
  - discriminate.
  - discriminate.
Defined.

Lemma unique_key_raises_iff_payload_not_encodable_witness :
  compute_unique_key (py "http://x.com/a") (py "POST") (Some (PayloadStr [0xD800]))
    false true None None
  = Raise UnicodeEncodeError.
Proof.
  apply (unique_key_raises_iff_payload_not_encodable (py "http://x.com/a") (py "POST")
           (Some (PayloadStr [0xD800])) false true None None UnicodeEncodeError).
  split; [reflexivity|]. split; [reflexivity|].
  exists [0xD800]. split; [reflexivity|].
  intros Henc. apply Forall_cons in Henc as [Hc _].
  unfold scalar_value in Hc. lia.
Defined.

Lemma method_case_ignored_witness :
  compute_unique_key (py "http://x.com/a") (Py.upper (py "post"))
    (Some (PayloadBytes ["a"%byte])) false true None None
  = compute_unique_key (py "http://x.com/a") (py "post")
      (Some (PayloadBytes ["a"%byte])) false true None None.
Proof.
  apply (method_case_ignored (py "http://x.com/a") (py "post")).
  apply is_ascii_spec. vm_compute. reflexivity.
Defined.

Lemma ascii_url_has_key_and_request_id_witness :
  ∃ key id,
    compute_unique_key_default (py "HTTP://Example.com/?b=2&a=1") = Ok key
    ∧ ascii_text key
    ∧ unique_key_to_request_id key 15 = Ok id.
Proof.
  apply (ascii_url_has_key_and_request_id (py "HTTP://Example.com/?b=2&a=1") 15).
  apply is_ascii_spec. vm_compute. reflexivity.
Defined.
End UniqueKeyMoreExamples.

(** ** More on [normalize_url] *)

Lemma split_hd_spec (c : N) (s : list N) :
  (c ∉ hd [] (Py.split c s))
  ∧ (hd [] (Py.split c s) = s ∨ ∃ rest, s = hd [] (Py.split c s) ++ c :: rest).
Proof.
  induction s as [|x s [IH1 IH2]]; cbn [Py.split].
  - split; [apply not_elem_of_nil | by left].
  - destruct (N.eqb_spec x c) as [->|Hx]; cbn [hd].
    + split; [apply not_elem_of_nil | right; by exists s].
    + pose proof (split_nonempty c s) as Hne.
      destruct (Py.split c s) as [|w ws]; [done|]. cbn [hd] in *. split.
      * apply not_elem_of_cons. split; [congruence | done].
      * destruct IH2 as [->|[rest ->]]; [by left|]. right. by exists rest.
Qed.

Lemma lstrip_nil_all (p : N → bool) (s : list N) :
  Py.lstrip p s = [] → Forall (fun c => p c = true) s.
Proof.
  intros Hs. destruct (lstrip_split p s) as (a & Ha & Hall).
  rewrite Hs, app_nil_r in Ha. by subst a.
Qed.

Lemma strip_app_all (p : N → bool) (a s b : list N) :
  Forall (fun c => p c = true) a → Forall (fun c => p c = true) b →
  Py.strip p (a ++ s ++ b) = Py.strip p s.
Proof.
  intros Ha Hb. unfold Py.strip. rewrite (lstrip_app_all p a _ Ha).
  destruct (Py.lstrip p s) as [|x t] eqn:E.
  - rewrite lstrip_all; [done|]. apply Forall_app. split; [|done].
    by apply lstrip_nil_all.
  - rewrite lstrip_app_keep by (by rewrite E). rewrite E.
    by apply rstrip_app_all.
Qed.

Section NormalizeMore.
Context `{Runtime}.

(** X13.  Without [keep_url_fragment] the result holds no '#': it is
    the result with [keep_url_fragment], cut before its first '#'. *)
Theorem fragment_cut_unless_kept (url : list N) (new_url : list N) :
  normalize_url url false = Ok new_url →
  (chr "#" ∉ new_url)
  ∧ ∃ kept, normalize_url url true = Ok kept
            ∧ (kept = new_url ∨ ∃ tail, kept = new_url ++ chr "#" :: tail).
Proof.
  unfold normalize_url.
  destruct (UrlParse.urlparse _) as [p|]; cbn [mbind result_bind]; [|done].
  destruct (sorted_query _) as [q|]; cbn [mbind result_bind negb]; [|done].
  intros <-%Ok_inj.
  match goal with
  | |- (_ ∉ hd [] (Py.split _ ?whole)) ∧ _ =>
      destruct (split_hd_spec (chr "#") whole) as [Hno Hcut]
  end.
  split; [done|]. eexists. split; [done|].
  destruct Hcut as [Hcut|[tail Hcut]]; [by left | right; by exists tail].
Qed.

(** X14.  White space around the url is ignored: a url with white space
    before and after it has the result of the url alone, an exception
    included. *)
Theorem surrounding_whitespace_ignored (before url after : list N) (kf : bool) :
  Forall (fun c => Py.isspace c = true) before →
  Forall (fun c => Py.isspace c = true) after →
  normalize_url (before ++ url ++ after) kf = normalize_url url kf.
Proof.
  intros Hb Ha. unfold normalize_url. by rewrite (strip_app_all _ _ _ _ Hb Ha).
Qed.
End NormalizeMore.

Section NormalizeMoreExamples.
#[local] Existing Instance ascii_runtime.

Lemma fragment_cut_unless_kept_witness :
  (chr "#" ∉ py "http://x.com/a?b=1")
  ∧ ∃ kept, normalize_url (py "http://x.com/a?b=1#Top") true = Ok kept
            ∧ (kept = py "http://x.com/a?b=1"
               ∨ ∃ tail, kept = py "http://x.com/a?b=1" ++ chr "#" :: tail).
Proof.
  apply (fragment_cut_unless_kept (py "http://x.com/a?b=1#Top")).
  vm_compute. reflexivity.
Defined.

Lemma surrounding_whitespace_ignored_witness :
  normalize_url ([0x20; 0x09] ++ py "http://x.com/a" ++ [0x0A; 0x3000]) false
  = normalize_url (py "http://x.com/a") false.
Proof.
  apply (surrounding_whitespace_ignored [0x20; 0x09] (py "http://x.com/a")
           [0x0A; 0x3000] false).
  - repeat constructor.
  - repeat constructor.
Defined.
End NormalizeMoreExamples.

(** ** A query or a fragment at the end of a url *)

Lemma find_app_Some (c : N) (a b : list N) (i : nat) :
  Py.find c a = Some i → Py.find c (a ++ b) = Some i.
Proof.
  revert i. induction a as [|x a IH]; intros i; cbn; [done|].
  destruct (x =? c); [done|].
  destruct (Py.find c a) as [j|]; cbn; [|done].
  intros [= <-]. by rewrite (IH j).
Qed.

Lemma leading_lstrip_app_stop (p : N → bool) (a : list N) (d : N) (r : list N) :
  p d = false →
  Py.leading p (a ++ d :: r) = Py.leading p a
  ∧ Py.lstrip p (a ++ d :: r) = Py.lstrip p a ++ d :: r.
Proof.
  intros Hd. induction a as [|x a [IH1 IH2]]; cbn.
  - by rewrite Hd.
  - destruct (p x); [by rewrite IH1 | done].
Qed.

Lemma strip_tail (p : N → bool) (base t : list N) :
  t ≠ [] → Forall (fun c => p c = false) t →
  Py.strip p (base ++ t) = Py.lstrip p base ++ t.
Proof.
  intros Hne Ht. unfold Py.strip. rewrite (lstrip_app_kept _ _ _ Ht).
  by apply rstrip_app_kept.
Qed.

Lemma strip_rstrip_fixed (p : N → bool) (s : list N) :
  Py.rstrip p s = s → Py.strip p s = Py.lstrip p s.
Proof.
  intros Hs. unfold Py.strip. apply rstrip_fixed. apply rstrip_eq_last in Hs.
  destruct (lstrip_split p s) as (a & Ha & _).
  destruct (Py.lstrip p s) as [|x l] eqn:E; [done|].
  rewrite Ha, last_app in Hs. by destruct (last (x :: l)).
Qed.

Lemma url_clean_tail (u t : list N) :
  Forall (fun c => printable c = true) t → url_clean (u ++ t) = url_clean u ++ t.
Proof.
  intros Ht. unfold url_clean.
  rewrite lstrip_app_kept.
  2:{ eapply Forall_impl; [exact Ht|]. intros c Hc. by apply printable_facts. }
  change UrlParse.unsafe_url_bytes_to_remove with [0x09; 0x0D; 0x0A].
  cbn [foldl]. rewrite !remove_char_app.
  assert (Habs : ∀ c, printable c = false → c ∉ t).
  { intros c Hc Hin. rewrite Forall_forall in Ht. apply Ht in Hin. congruence. }
  by rewrite !(remove_char_absent _ t) by by apply Habs.
Qed.

Lemma colon_after (u : list N) (d : N) (r a b : list N) :
  chr ":" ∉ u → d ≠ chr ":" → u ++ d :: r = a ++ chr ":" :: b → d ∈ a.
Proof.
  revert a. induction u as [|x u IH]; intros a Hu Hd Heq.
  - destruct a as [|y a]; cbn in Heq; [by injection Heq | injection Heq as <- _; left].
  - apply not_elem_of_cons in Hu as [Hx Hu].
    destruct a as [|y a]; cbn in Heq; [injection Heq as -> _; done|].
    injection Heq as <- Heq. right. by eapply IH.
Qed.

Lemma in_netloc_false (d : N) :
  in_netloc d = false → d = chr "/" ∨ d = chr "?" ∨ d = chr "#".
Proof.
  unfold in_netloc. intros Hd. apply negb_false_iff in Hd.
  apply orb_true_iff in Hd as [Hd|Hd]; [|apply N.eqb_eq in Hd; tauto].
  apply orb_true_iff in Hd as [Hd|Hd]; apply N.eqb_eq in Hd; tauto.
Qed.

Section Tail.
Context `{Runtime}.

Lemma split_scheme_tail (u : list N) (d : N) (r : list N) :
  in_netloc d = false →
  split_scheme (u ++ d :: r) = ((split_scheme u).1, (split_scheme u).2 ++ d :: r).
Proof.
  intros Hd%in_netloc_false.
  assert (Hd1 : d ≠ chr ":") by (destruct Hd as [-> | [-> | ->]]; discriminate).
  assert (Hd2 : Py.contains d UrlParse.scheme_chars = false)
    by (destruct Hd as [-> | [-> | ->]]; reflexivity).
  unfold split_scheme.
  destruct (Py.find (chr ":") u) as [i|] eqn:E.
  - rewrite (find_app_Some _ _ _ _ E). destruct i as [|i]; [done|].
    pose proof (find_lt_length _ _ _ E) as Hi.
    rewrite take_app_le by lia.
    assert (hd 0 (u ++ d :: r) = hd 0 u) as -> by (destruct u; [cbn in Hi; lia | done]).
    destruct (_ && _); [|done]. cbn [fst snd].
    by rewrite drop_app_le by lia.
  - apply find_None in E. cbn [fst snd].
    destruct (Py.find (chr ":") (u ++ d :: r)) as [[|i]|] eqn:E'; [done| |done].
    apply find_Some in E' as (a & b & Heq & _ & Hlen).
    assert (Hin : d ∈ a) by by eapply colon_after.
    assert (forallb (fun c => Py.contains c UrlParse.scheme_chars)
                    (take (S i) (u ++ d :: r)) = false) as ->.
    { rewrite Heq, <- Hlen, take_app_length.
      destruct (forallb _ a) eqn:Ea; [|done].
      rewrite forallb_forall in Ea. apply list_elem_of_In, Ea in Hin. congruence. }
    by rewrite andb_false_r.
Qed.

Lemma split_authority_tail (rest : list N) (d : N) (r : list N) :
  d = chr "?" ∨ d = chr "#" →
  split_authority (rest ++ d :: r)
  = ('(n, r0) ← split_authority rest; Ok (n, r0 ++ d :: r)).
Proof.
  intros Hd.
  assert (Hd1 : in_netloc d = false) by (destruct Hd as [-> | ->]; reflexivity).
  assert (Hd2 : d ≠ chr "/") by (destruct Hd as [-> | ->]; discriminate).
  unfold split_authority.
  destruct (Py.eqb_str (take 2 rest) (py "//")) eqn:E.
  - pose proof E as [t ->]%starts_with_slashes.
    change ((chr "/" :: chr "/" :: t) ++ d :: r) with (chr "/" :: chr "/" :: (t ++ d :: r)).
    change (Py.eqb_str (take 2 (chr "/" :: chr "/" :: (t ++ d :: r))) (py "//"))
      with true.
    cbv iota. rewrite !splitnetloc_2.
    destruct (leading_lstrip_app_stop in_netloc t d r Hd1) as [-> ->].
    by destruct (brackets_ok (Py.leading in_netloc t)).
  - assert (Py.eqb_str (take 2 (rest ++ d :: r)) (py "//") = false) as ->; [|done].
    apply eqb_str_false. apply eqb_str_false in E.
    change (py "//") with [chr "/"; chr "/"] in *.
    destruct rest as [|x [|y rest]]; cbn [take app] in *.
    + intros Heq. injection Heq as Heq _. done.
    + intros Heq. injection Heq as _ Heq. done.
    + done.
Qed.

Lemma split_rest_sublist (u sch rest n r0 : list N) :
  split_scheme u = (sch, rest) → split_authority rest = Ok (n, r0) →
  r0 `sublist_of` u.
Proof.
  intros Hs Ha. destruct (split_authority_sublist _ _ _ Ha) as [_ Hr].
  etrans; [exact Hr|]. pose proof (split_scheme_sublist u) as Hsub.
  by rewrite Hs in Hsub.
Qed.

(** [urlsplit] of a url followed by '?' and a query. *)
Lemma urlsplit_query (base q : list N) :
  chr "?" ∉ base → chr "#" ∉ base →
  Forall (fun c => printable c = true) q → chr "#" ∉ q →
  UrlParse.urlsplit (Py.strip Py.isspace (base ++ chr "?" :: q))
  = (r ← UrlParse.urlsplit (Py.lstrip Py.isspace base);
     Ok (UrlParse.mkSplit (UrlParse.s_scheme r) (UrlParse.s_netloc r)
           (UrlParse.s_path r) q [])).
Proof.
  intros Hq Hf Hpr Hqf.
  assert (Ht : Forall (fun c => printable c = true) (chr "?" :: q))
    by (by constructor).
  rewrite strip_tail; [|done|].
  2:{ eapply Forall_impl; [exact Ht|]. intros c Hc. by apply printable_facts. }
  set (b := Py.lstrip Py.isspace base).
  assert (Hb : b `sublist_of` base) by apply suffix_is_sublist, lstrip_suffix.
  rewrite !urlsplit_eq, (url_clean_tail _ _ Ht), split_scheme_tail by reflexivity.
  destruct (split_scheme (url_clean b)) as [sch rest] eqn:Es. cbn [fst snd].
  rewrite split_authority_tail by by left.
  destruct (split_authority rest) as [[n r0]|e] eqn:Ea; cbn [mbind result_bind];
    [|done].
  assert (Hr0 : r0 `sublist_of` base).
  { etrans; [by eapply split_rest_sublist|]. etrans; [apply url_clean_sublist|done]. }
  assert (Hq0 : chr "?" ∉ r0) by (eapply not_elem_of_sublist; eauto).
  assert (Hf0 : chr "#" ∉ r0) by (eapply not_elem_of_sublist; eauto).
  rewrite (cut_absent (chr "#") (r0 ++ chr "?" :: q)).
  2:{ rewrite not_elem_of_app, not_elem_of_cons. done. }
  rewrite (cut_absent (chr "#") r0 Hf0), (cut_absent (chr "?") r0 Hq0).
  unfold cut at 1. rewrite (split_once_here _ _ _ Hq0).
  by destruct (UrlParse.checknetloc n).
Qed.

(** [urlsplit] of a url followed by '#' and a fragment. *)
Lemma urlsplit_fragment (base f : list N) :
  chr "#" ∉ base → Forall (fun c => printable c = true) f →
  UrlParse.urlsplit (Py.strip Py.isspace (base ++ chr "#" :: f))
  = (r ← UrlParse.urlsplit (Py.lstrip Py.isspace base);
     Ok (UrlParse.mkSplit (UrlParse.s_scheme r) (UrlParse.s_netloc r)
           (UrlParse.s_path r) (UrlParse.s_query r) f)).
Proof.
  intros Hf Hpr.
  assert (Ht : Forall (fun c => printable c = true) (chr "#" :: f))
    by (by constructor).
  rewrite strip_tail; [|done|].
  2:{ eapply Forall_impl; [exact Ht|]. intros c Hc. by apply printable_facts. }
  set (b := Py.lstrip Py.isspace base).
  assert (Hb : b `sublist_of` base) by apply suffix_is_sublist, lstrip_suffix.
  rewrite !urlsplit_eq, (url_clean_tail _ _ Ht), split_scheme_tail by reflexivity.
  destruct (split_scheme (url_clean b)) as [sch rest] eqn:Es. cbn [fst snd].
  rewrite split_authority_tail by by right.
  destruct (split_authority rest) as [[n r0]|e] eqn:Ea; cbn [mbind result_bind];
    [|done].
  assert (Hr0 : r0 `sublist_of` base).
  { etrans; [by eapply split_rest_sublist|]. etrans; [apply url_clean_sublist|done]. }
  assert (Hf0 : chr "#" ∉ r0) by (eapply not_elem_of_sublist; eauto).
  rewrite (cut_absent (chr "#") r0 Hf0).
  unfold cut at 1. rewrite (split_once_here _ _ _ Hf0).
  destruct (cut (chr "?") r0) as [pa qu].
  by destruct (UrlParse.checknetloc n).
Qed.
End Tail.

(** ** The segments of a query *)

Lemma parse_qsl_items (qs : list N) :
  UrlParse.parse_qsl qs = flat_map parse_item (Py.split (chr "&") qs).
Proof. destruct qs; reflexivity. Qed.

Lemma split_app_sep (c : N) (a b : list N) :
  Py.split c (a ++ c :: b) = Py.split c a ++ Py.split c b.
Proof.
  induction a as [|x a IH]; cbn [app Py.split].
  - by rewrite N.eqb_refl.
  - destruct (x =? c); [by rewrite IH|].
    rewrite IH. pose proof (split_nonempty c a) as Hne.
    by destruct (Py.split c a).
Qed.

Lemma parse_qsl_amp (a b : list N) :
  UrlParse.parse_qsl (a ++ chr "&" :: b) = UrlParse.parse_qsl a ++ UrlParse.parse_qsl b.
Proof. by rewrite !parse_qsl_items, split_app_sep, flat_map_app. Qed.

Lemma parse_qsl_join (segs : list (list N)) :
  UrlParse.parse_qsl (Py.join (py "&") segs) = flat_map UrlParse.parse_qsl segs.
Proof.
  induction segs as [|s segs IH]; [done|].
  destruct segs as [|s' segs].
  - cbn. by rewrite app_nil_r.
  - change (Py.join (py "&") (s :: s' :: segs))
      with (s ++ chr "&" :: Py.join (py "&") (s' :: segs)).
    rewrite parse_qsl_amp, IH. done.
Qed.

Lemma last_value_app (a b : list (list N * list N)) (k : list N) :
  last_value (a ++ b) k
  = match last_value b k with
    | Some v => Some v
    | None => last_value a k
    end.
Proof.
  induction a as [|[k' v'] a IH]; cbn.
  - by destruct (last_value b k).
  - rewrite IH. by destruct (last_value b k).
Qed.

Lemma last_value_None (pairs : list (list N * list N)) (k : list N) :
  last_value pairs k = None ↔ k ∉ pairs.*1.
Proof.
  induction pairs as [|[k' v'] pairs IH]; cbn.
  - split; [intros _; apply not_elem_of_nil | done].
  - rewrite not_elem_of_cons, <- IH.
    destruct (last_value pairs k); [split; [done | by intros [_ ?]]|].
    case_bool_decide as Hk; (split; [|intros [? ?]]; congruence || (split; congruence)).
Qed.

Lemma search_params_same_last_values (q1 q2 : list N) :
  (∀ k, Py.startswith (py "utm_") k = false →
        last_value (UrlParse.parse_qsl q1) k = last_value (UrlParse.parse_qsl q2) k) →
  search_params q1 = search_params q2.
Proof.
  intros Hsame. apply map_eq. intros k. apply option_eq. intros v.
  rewrite !search_params_lookup. split; intros [Hl Hu]; (split; [|done]).
  - by rewrite <- Hsame.
  - by rewrite Hsame.
Qed.

Lemma sorted_query_same_last_values (q1 q2 : list N) :
  (∀ k, Py.startswith (py "utm_") k = false →
        last_value (UrlParse.parse_qsl q1) k = last_value (UrlParse.parse_qsl q2) k) →
  sorted_query q1 = sorted_query q2.
Proof.
  intros Hsame. unfold sorted_query.
  by rewrite (sorted_pairs_ext q1 q2 (search_params_same_last_values _ _ Hsame)).
Qed.

(** A segment all of whose keys are tracking keys or are given again by a
    later segment leaves no trace in the rebuilt query. *)
Lemma sorted_query_drop_segment (xs : list (list N)) (s : list N) (ys : list (list N)) :
  (∀ k, k ∈ (UrlParse.parse_qsl s).*1 →
        Py.startswith (py "utm_") k = true
        ∨ k ∈ (flat_map UrlParse.parse_qsl ys).*1) →
  sorted_query (Py.join (py "&") (xs ++ s :: ys))
  = sorted_query (Py.join (py "&") (xs ++ ys)).
Proof.
  intros Hdrop. apply sorted_query_same_last_values. intros k Hk.
  rewrite !parse_qsl_join, !flat_map_app. cbn [flat_map].
  rewrite !last_value_app.
  destruct (last_value (flat_map UrlParse.parse_qsl ys) k) as [v|] eqn:Eys; [done|].
  assert (last_value (UrlParse.parse_qsl s) k = None) as ->; [|done].
  apply last_value_None. intros Hin. apply Hdrop in Hin as [Hin|Hin]; [congruence|].
  by apply last_value_None in Eys.
Qed.

Lemma sorted_query_permuted (segs segs' : list (list N)) :
  segs ≡ₚ segs' →
  NoDup (flat_map UrlParse.parse_qsl segs).*1 →
  sorted_query (Py.join (py "&") segs) = sorted_query (Py.join (py "&") segs').
Proof.
  intros Hperm Hnd. apply sorted_query_same_last_values. intros k _.
  rewrite !parse_qsl_join.
  assert (Hp : flat_map UrlParse.parse_qsl segs ≡ₚ flat_map UrlParse.parse_qsl segs').
  { clear Hnd. induction Hperm; cbn [flat_map].
    - done.
    - by apply Permutation_app_head.
    - rewrite !app_assoc. apply Permutation_app_tail, Permutation_app_comm.
    - by etrans. }
  assert (Hnd' : NoDup (flat_map UrlParse.parse_qsl segs').*1) by by rewrite <- Hp.
  apply option_eq. intros v. split; intros Hv%last_value_elem_of.
  - apply last_value_NoDup; [done|]. by rewrite <- Hp.
  - apply last_value_NoDup; [done|]. by rewrite Hp.
Qed.

Lemma plain_query_join (segs : list (list N)) :
  Forall plain_query segs → plain_query (Py.join (py "&") segs).
Proof.
  intros Hs. apply join_Forall; [|done]. by repeat constructor.
Qed.

Lemma plain_query_parts (q : list N) :
  plain_query q → Forall (fun c => printable c = true) q ∧ chr "#" ∉ q.
Proof.
  intros Hq. split.
  - eapply Forall_impl; [exact Hq|]. by intros c [? _].
  - eapply Forall_absent; [exact Hq|]. by intros [_ ?].
Qed.

(** *** What single segments parse to *)

Lemma parse_qsl_one (s : list N) : chr "&" ∉ s → UrlParse.parse_qsl s = parse_item s.
Proof.
  intros Hs. rewrite parse_qsl_items, (split_absent _ _ Hs). cbn. apply app_nil_r.
Qed.

Lemma parse_item_blank (k : list N) :
  chr "=" ∉ k → parse_item k = [] ∧ parse_item (k ++ py "=") = [].
Proof.
  intros Hk. unfold parse_item. split.
  - destruct (truthy k); [|done]. cbn [negb]. by rewrite (split_once_None _ _ Hk).
  - change (k ++ py "=") with (k ++ chr "=" :: []).
    rewrite (split_once_here _ _ _ Hk). by destruct (negb _).
Qed.

Lemma parse_item_pair (k v : list N) :
  chr "=" ∉ k → v ≠ [] →
  parse_item (k ++ py "=" ++ v)
  = [(UrlParse.unquote (Py.replace (chr "+") (chr " ") k),
      UrlParse.unquote (Py.replace (chr "+") (chr " ") v))].
Proof.
  intros Hk Hv. unfold parse_item.
  change (k ++ py "=" ++ v) with (k ++ chr "=" :: v).
  rewrite (split_once_here _ _ _ Hk).
  assert (truthy (k ++ chr "=" :: v) = true) as -> by by destruct k.
  cbn [negb]. by destruct v.
Qed.

Lemma parse_item_keys (k v : list N) :
  chr "=" ∉ k →
  ∀ key, key ∈ (parse_item (k ++ py "=" ++ v)).*1 →
         key = UrlParse.unquote (Py.replace (chr "+") (chr " ") k).
Proof.
  intros Hk key. destruct v as [|c v].
  - rewrite app_nil_r. rewrite (proj2 (parse_item_blank k Hk)).
    by intros ?%elem_of_nil.
  - rewrite (parse_item_pair k (c :: v) Hk) by done. cbn.
    by intros ->%list_elem_of_singleton.
Qed.

Section Segments.
Context `{Runtime}.

Lemma normalize_url_rebuilt (url : list N) (kf : bool) :
  normalize_url url kf
  = (p ← UrlParse.urlparse (Py.strip Py.isspace url);
     sq ← sorted_query (UrlParse.query p);
     Ok (rebuilt_url p sq kf)).
Proof. reflexivity. Qed.

Lemma urlparse_query (base q : list N) :
  chr "?" ∉ base → chr "#" ∉ base → plain_query q →
  UrlParse.urlparse (Py.strip Py.isspace (base ++ chr "?" :: q))
  = (p ← UrlParse.urlparse (Py.lstrip Py.isspace base);
     Ok (UrlParse.mkParse (UrlParse.scheme p) (UrlParse.netloc p) (UrlParse.path p)
           (UrlParse.params p) q [])).
Proof.
  intros Hq Hf [Hpr Hqf]%plain_query_parts. unfold UrlParse.urlparse.
  rewrite (urlsplit_query base q Hq Hf Hpr Hqf).
  destruct (UrlParse.urlsplit _) as [[sch n pa qu fr]|e]; cbn [mbind result_bind];
    [|done].
  cbn [UrlParse.s_scheme UrlParse.s_netloc UrlParse.s_path].
  destruct (_ && _); [|done]. by destruct (UrlParse.splitparams pa).
Qed.

Lemma normalize_url_query (base q : list N) (kf : bool) :
  chr "?" ∉ base → chr "#" ∉ base → plain_query q →
  normalize_url (base ++ chr "?" :: q) kf
  = (p ← UrlParse.urlparse (Py.lstrip Py.isspace base);
     sq ← sorted_query q;
     Ok (rebuilt_url
           (UrlParse.mkParse (UrlParse.scheme p) (UrlParse.netloc p) (UrlParse.path p)
              (UrlParse.params p) q [])
           sq kf)).
Proof.
  intros Hq Hf Hpq. rewrite normalize_url_rebuilt, (urlparse_query _ _ Hq Hf Hpq).
  by destruct (UrlParse.urlparse _).
Qed.

Lemma normalize_url_same_sorted_query (base q1 q2 : list N) (kf : bool) :
  chr "?" ∉ base → chr "#" ∉ base → plain_query q1 → plain_query q2 →
  sorted_query q1 = sorted_query q2 →
  normalize_url (base ++ py "?" ++ q1) kf = normalize_url (base ++ py "?" ++ q2) kf.
Proof.
  intros Hq Hf H1 H2 Hsame.
  change (py "?" ++ q1) with (chr "?" :: q1). change (py "?" ++ q2) with (chr "?" :: q2).
  rewrite !normalize_url_query by done. rewrite Hsame.
  destruct (UrlParse.urlparse _) as [p|]; cbn [mbind result_bind]; [|done].
  by destruct (sorted_query q2).
Qed.

Lemma normalize_url_drop_segment (base : list N) (xs : list (list N)) (s : list N)
    (ys : list (list N)) (kf : bool) :
  chr "?" ∉ base → chr "#" ∉ base → Forall plain_query (xs ++ s :: ys) →
  (∀ k, k ∈ (UrlParse.parse_qsl s).*1 →
        Py.startswith (py "utm_") k = true
        ∨ k ∈ (flat_map UrlParse.parse_qsl ys).*1) →
  normalize_url (base ++ py "?" ++ Py.join (py "&") (xs ++ s :: ys)) kf
  = normalize_url (base ++ py "?" ++ Py.join (py "&") (xs ++ ys)) kf.
Proof.
  intros Hq Hf Hall Hdrop. apply normalize_url_same_sorted_query; try done.
  - by apply plain_query_join.
  - apply plain_query_join. apply Forall_app in Hall as [Hx Hy].
    apply Forall_cons in Hy as [_ Hy]. by apply Forall_app.
  - by apply sorted_query_drop_segment.
Qed.

(** X15.  The order of the query parameters does not matter: two urls
    that differ in the order of the '&'-separated segments of their query
    have the same result, when no key occurs twice. *)
Theorem query_parameter_order_ignored (base : list N) (segs segs' : list (list N))
    (kf : bool) :
  chr "?" ∉ base → chr "#" ∉ base → Forall plain_query segs →
  segs ≡ₚ segs' →
  NoDup (flat_map UrlParse.parse_qsl segs).*1 →
  normalize_url (base ++ py "?" ++ Py.join (py "&") segs) kf
  = normalize_url (base ++ py "?" ++ Py.join (py "&") segs') kf.
Proof.
  intros Hq Hf Hall Hperm Hnd. apply normalize_url_same_sorted_query; try done.
  - by apply plain_query_join.
  - apply plain_query_join. by rewrite <- Hperm.
  - by apply sorted_query_permuted.
Qed.

(** X16.  A tracking parameter leaves no trace: a query segment
    [utm_...=value], wherever it stands in the query, can be taken out of
    the url without changing the result. *)
Theorem tracking_parameter_ignored (base : list N) (xs : list (list N))
    (k v : list N) (ys : list (list N)) (kf : bool) :
  chr "?" ∉ base → chr "#" ∉ base →
  Forall plain_query (xs ++ (py "utm_" ++ k ++ py "=" ++ v) :: ys) →
  chr "&" ∉ k ++ v → chr "=" ∉ k → chr "%" ∉ k → chr "+" ∉ k →
  normalize_url
    (base ++ py "?" ++ Py.join (py "&") (xs ++ (py "utm_" ++ k ++ py "=" ++ v) :: ys)) kf
  = normalize_url (base ++ py "?" ++ Py.join (py "&") (xs ++ ys)) kf.
Proof.
  intros Hq Hf Hall Hamp Heq Hpc Hpl. apply normalize_url_drop_segment; try done.
  apply not_elem_of_app in Hamp as [Hak Hav].
  assert (Hk : ∀ c, c ∉ k → c ∉ py "utm_" → c ∉ py "utm_" ++ k).
  { intros c ? ?. by apply not_elem_of_app. }
  assert (Hlit : ∀ c, Py.contains c (py "utm_") = false → c ∉ py "utm_").
  { intros c. apply contains_false. }
  intros key Hkey. left.
  rewrite parse_qsl_one in Hkey.
  2:{ rewrite !not_elem_of_app. split; [by apply Hlit|]. split; [done|].
      split; [by apply contains_false | done]. }
  rewrite app_assoc in Hkey. apply parse_item_keys in Hkey.
  2:{ apply Hk; [done | by apply Hlit]. }
  rewrite replace_absent in Hkey by (apply Hk; [done | by apply Hlit]).
  rewrite unquote_plain in Hkey by (apply Hk; [done | by apply Hlit]).
  by subst key.
Qed.

(** X17.  A query segment without a value leaves no trace: a segment
    without '=' or with nothing after its '=' can be taken out of the url
    without changing the result. *)
Theorem blank_parameter_ignored (base : list N) (xs : list (list N))
    (k : list N) (ys : list (list N)) (kf : bool) :
  chr "?" ∉ base → chr "#" ∉ base →
  Forall plain_query (xs ++ k :: ys) → chr "&" ∉ k → chr "=" ∉ k →
  normalize_url (base ++ py "?" ++ Py.join (py "&") (xs ++ k :: ys)) kf
  = normalize_url (base ++ py "?" ++ Py.join (py "&") (xs ++ ys)) kf
  ∧ normalize_url (base ++ py "?" ++ Py.join (py "&") (xs ++ (k ++ py "=") :: ys)) kf
    = normalize_url (base ++ py "?" ++ Py.join (py "&") (xs ++ ys)) kf.
Proof.
  intros Hq Hf Hall Hamp Heq.
  destruct (parse_item_blank k Heq) as [Hk1 Hk2]. split.
  - apply normalize_url_drop_segment; try done.
    intros key Hkey. rewrite parse_qsl_one, Hk1 in Hkey by done.
    by apply elem_of_nil in Hkey.
  - apply normalize_url_drop_segment; try done.
    + apply Forall_app in Hall as [Hx Hy]. apply Forall_cons in Hy as [Hk Hy].
      apply Forall_app. split; [done|]. constructor; [|done].
      apply Forall_app. split; [done|]. by repeat constructor.
    + intros key Hkey. rewrite parse_qsl_one, Hk2 in Hkey.
      * by apply elem_of_nil in Hkey.
      * apply not_elem_of_app. split; [done|].
        by intros ?%list_elem_of_singleton.
Qed.

(** X18.  Of two segments with the same key the later one wins: a
    segment [key=value] followed, anywhere later in the query, by a
    segment [key=other] with a non-empty value can be taken out of the
    url without changing the result. *)
Theorem earlier_duplicate_ignored (base : list N) (xs : list (list N))
    (k v : list N) (ys : list (list N)) (v' : list N) (zs : list (list N))
    (kf : bool) :
  chr "?" ∉ base → chr "#" ∉ base →
  Forall plain_query (xs ++ (k ++ py "=" ++ v) :: ys ++ (k ++ py "=" ++ v') :: zs) →
  chr "&" ∉ k ++ v ++ v' → chr "=" ∉ k → v' ≠ [] →
  normalize_url
    (base ++ py "?"
       ++ Py.join (py "&") (xs ++ (k ++ py "=" ++ v) :: ys ++ (k ++ py "=" ++ v') :: zs))
    kf
  = normalize_url
      (base ++ py "?" ++ Py.join (py "&") (xs ++ ys ++ (k ++ py "=" ++ v') :: zs)) kf.
Proof.
  intros Hq Hf Hall Hamp Heq Hv'. apply normalize_url_drop_segment; try done.
  apply not_elem_of_app in Hamp as [Hak Hamp].
  apply not_elem_of_app in Hamp as [Hav Hav'].
  assert (Hseg : ∀ w, chr "&" ∉ w → chr "&" ∉ k ++ py "=" ++ w).
  { intros w Hw. rewrite !not_elem_of_app. split; [done|]. split; [|done].
    by intros ?%list_elem_of_singleton. }
  intros key Hkey. right.
  rewrite parse_qsl_one in Hkey by by apply Hseg.
  apply parse_item_keys in Hkey; [|done]. subst key.
  rewrite flat_map_app, fmap_app. apply elem_of_app. right.
  cbn [flat_map]. rewrite fmap_app. apply elem_of_app. left.
  rewrite parse_qsl_one by by apply Hseg.
  rewrite parse_item_pair by done. cbn. left.
Qed.

(** X19.  A query that holds nothing to keep is the same as no query:
    when every key of the query is a tracking key (the empty query, a
    query of blank or "utm_" parameters), the url with '?' and this query
    has the result of the url without them. *)
Theorem query_of_nothing_kept_ignored (base q : list N) (kf : bool) :
  chr "?" ∉ base → chr "#" ∉ base → Py.rstrip Py.isspace base = base →
  plain_query q →
  (∀ k, k ∈ (UrlParse.parse_qsl q).*1 → Py.startswith (py "utm_") k = true) →
  normalize_url (base ++ py "?" ++ q) kf = normalize_url base kf.
Proof.
  intros Hq Hf Hb Hpq Hutm.
  change (py "?" ++ q) with (chr "?" :: q).
  rewrite (normalize_url_query _ _ _ Hq Hf Hpq), normalize_url_rebuilt.
  rewrite (strip_rstrip_fixed _ _ Hb).
  assert (Hsq : sorted_query q = sorted_query []).
  { apply sorted_query_same_last_values. intros k Hk.
    change (UrlParse.parse_qsl []) with (@nil (list N * list N)). cbn [last_value].
    apply last_value_None. intros Hin%Hutm. congruence. }
  rewrite Hsq.
  set (b := Py.lstrip Py.isspace base).
  assert (Hbs : b `sublist_of` base) by apply suffix_is_sublist, lstrip_suffix.
  unfold UrlParse.urlparse. rewrite urlsplit_eq.
  pose proof (split_scheme_sublist (url_clean b)) as Hsub.
  destruct (split_scheme (url_clean b)) as [sch rest] eqn:Es. cbn [snd] in Hsub.
  destruct (split_authority rest) as [[n r0]|e] eqn:Ea; cbn [mbind result_bind];
    [|done].
  assert (Hr0 : r0 `sublist_of` base).
  { etrans; [by eapply split_rest_sublist|]. etrans; [apply url_clean_sublist|done]. }
  rewrite (cut_absent (chr "#") r0) by (eapply not_elem_of_sublist; eauto).
  rewrite (cut_absent (chr "?") r0) by (eapply not_elem_of_sublist; eauto).
  destruct (UrlParse.checknetloc n); cbn [mbind result_bind]; [|done].
  destruct (_ && _); [|done]. by destruct (UrlParse.splitparams r0).
Qed.
End Segments.

Lemma plain_query_check (q : list N) :
  forallb (fun c => printable c && negb (c =? chr "#")) q = true → plain_query q.
Proof.
  intros Hall. apply Forall_forall. intros c Hc%list_elem_of_In.
  rewrite forallb_forall in Hall. apply Hall in Hc.
  apply andb_true_iff in Hc as [Hp Hh]. split; [done|].
  apply negb_true_iff in Hh. by apply N.eqb_neq.
Qed.

Lemma plain_queries_check (segs : list (list N)) :
  forallb (forallb (fun c => printable c && negb (c =? chr "#"))) segs = true →
  Forall plain_query segs.
Proof.
  intros Hall. apply Forall_forall. intros s Hs%list_elem_of_In.
  rewrite forallb_forall in Hall. by apply plain_query_check, Hall.
Qed.

Section SegmentsExamples.
#[local] Existing Instance ascii_runtime.

Lemma query_parameter_order_ignored_witness :
  normalize_url (py "http://x.com/a" ++ py "?" ++ Py.join (py "&") [py "b=2"; py "a=1"])
    false
  = normalize_url
      (py "http://x.com/a" ++ py "?" ++ Py.join (py "&") [py "a=1"; py "b=2"]) false.
Proof.
  apply (query_parameter_order_ignored (py "http://x.com/a")
           [py "b=2"; py "a=1"] [py "a=1"; py "b=2"] false).
  - apply contains_false. vm_compute. reflexivity.
  - apply contains_false. vm_compute. reflexivity.
  - apply plain_queries_check. vm_compute. reflexivity.
  - apply perm_swap.
  - apply (bool_decide_unpack _). vm_compute. exact I.
Defined.

Lemma tracking_parameter_ignored_witness :
  normalize_url
    (py "http://x.com/" ++ py "?"
       ++ Py.join (py "&") ([] ++ (py "utm_" ++ py "source" ++ py "=" ++ py "foo")
                               :: [py "a=1"])) false
  = normalize_url (py "http://x.com/" ++ py "?" ++ Py.join (py "&") ([] ++ [py "a=1"]))
      false.
Proof.
  apply (tracking_parameter_ignored (py "http://x.com/") [] (py "source") (py "foo")
           [py "a=1"] false).
  - apply contains_false. vm_compute. reflexivity.
  - apply contains_false. vm_compute. reflexivity.
  - apply plain_queries_check. vm_compute. reflexivity.
  - apply contains_false. vm_compute. reflexivity.
  - apply contains_false. vm_compute. reflexivity.
  - apply contains_false. vm_compute. reflexivity.
  - apply contains_false. vm_compute. reflexivity.
Defined.

Lemma blank_parameter_ignored_witness :
  normalize_url
    (py "http://x.com/a" ++ py "?" ++ Py.join (py "&") ([py "a=1"] ++ py "flag" :: []))
    false
  = normalize_url (py "http://x.com/a" ++ py "?" ++ Py.join (py "&") ([py "a=1"] ++ []))
      false
  ∧ normalize_url
      (py "http://x.com/a" ++ py "?"
         ++ Py.join (py "&") ([py "a=1"] ++ (py "flag" ++ py "=") :: [])) false
    = normalize_url (py "http://x.com/a" ++ py "?" ++ Py.join (py "&") ([py "a=1"] ++ []))
        false.
Proof.
  apply (blank_parameter_ignored (py "http://x.com/a") [py "a=1"] (py "flag") [] false).
  - apply contains_false. vm_compute. reflexivity.
  - apply contains_false. vm_compute. reflexivity.
  - apply plain_queries_check. vm_compute. reflexivity.
  - apply contains_false. vm_compute. reflexivity.
  - apply contains_false. vm_compute. reflexivity.
Defined.

Lemma earlier_duplicate_ignored_witness :
  normalize_url
    (py "http://x.com/a" ++ py "?"
       ++ Py.join (py "&") ([] ++ (py "a" ++ py "=" ++ py "1")
                               :: [py "b=2"] ++ (py "a" ++ py "=" ++ py "3") :: []))
    false
  = normalize_url
      (py "http://x.com/a" ++ py "?"
         ++ Py.join (py "&") ([] ++ [py "b=2"] ++ (py "a" ++ py "=" ++ py "3") :: []))
      false.
Proof.
  apply (earlier_duplicate_ignored (py "http://x.com/a") [] (py "a") (py "1")
           [py "b=2"] (py "3") [] false).
  - apply contains_false. vm_compute. reflexivity.
  - apply contains_false. vm_compute. reflexivity.
  - apply plain_queries_check. vm_compute. reflexivity.
  - apply contains_false. vm_compute. reflexivity.
  - apply contains_false. vm_compute. reflexivity.
  - discriminate.
Defined.

Lemma query_of_nothing_kept_ignored_witness :
  normalize_url (py "http://x.com/a" ++ py "?" ++ py "utm_source=foo&b=") true
  = normalize_url (py "http://x.com/a") true.
Proof.
  apply (query_of_nothing_kept_ignored (py "http://x.com/a") (py "utm_source=foo&b=")
           true).
  - apply contains_false. vm_compute. reflexivity.
  - apply contains_false. vm_compute. reflexivity.
  - vm_compute. reflexivity.
  - apply plain_query_check. vm_compute. reflexivity.
  - intros k Hk. vm_compute in Hk.
    apply list_elem_of_singleton in Hk. subst k. vm_compute. reflexivity.
Defined.
End SegmentsExamples.

(** ** The fragment of a url *)

Lemma lower_ascii_hash (c : N) : Py.lower_ascii c = chr "#" → c = chr "#".
Proof.
  unfold Py.lower_ascii. destruct (Py.is_upper_ascii c) eqn:E; [|done].
  unfold Py.is_upper_ascii in E. apply andb_true_iff in E as [E1%N.leb_le E2%N.leb_le].
  change (chr "#") with 35. lia.
Qed.

Lemma lower_fmap_no_hash (s : list N) :
  chr "#" ∉ s → chr "#" ∉ Py.lower_ascii <$> s.
Proof.
  intros Hs [c [Hc Hin]]%list_elem_of_fmap. symmetry in Hc.
  apply lower_ascii_hash in Hc. by subst c.
Qed.

Lemma percent_encode_byte_no_hash (b : byte) : chr "#" ∉ percent_encode_byte b.
Proof.
  apply contains_false. unfold percent_encode_byte.
  pose proof (Byte.to_N_bounded b) as Hb.
  generalize dependent (Byte.to_N b). intros n Hn.
  assert (Hc : negb (Py.contains (chr "#")
               (if UrlParse.always_safe n then [n]
                else if n =? 0x20 then py "+"
                else [chr "%"; UrlParse.hexdigit_upper (n / 16);
                      UrlParse.hexdigit_upper (n mod 16)])) = true).
  { revert n Hn. intros n Hn.
    apply (bounded_check 256
             (fun n => negb (Py.contains (chr "#")
                 (if UrlParse.always_safe n then [n]
                  else if n =? 0x20 then py "+"
                  else [chr "%"; UrlParse.hexdigit_upper (n / 16);
                        UrlParse.hexdigit_upper (n mod 16)])))).
    - vm_compute. reflexivity.
    - change (N.of_nat 256) with 256. lia. }
  by apply negb_true_iff in Hc.
Qed.

Lemma percent_encode_no_hash (s q : list N) : percent_encode s = Ok q → chr "#" ∉ q.
Proof.
  unfold percent_encode. destruct (Utf8.encode s) as [bs|]; cbn; [|done].
  intros [= <-]. induction bs as [|b bs IH]; cbn; [apply not_elem_of_nil|].
  apply not_elem_of_app. split; [apply percent_encode_byte_no_hash | done].
Qed.

Lemma join_no_char (c : N) (sep : list N) (parts : list (list N)) :
  c ∉ sep → Forall (fun p => c ∉ p) parts → c ∉ Py.join sep parts.
Proof.
  intros Hsep Hparts.
  assert (Hall : Forall (fun x => x ≠ c) (Py.join sep parts)).
  { apply join_Forall.
    - apply Forall_forall. intros x Hx ->. done.
    - eapply Forall_impl; [exact Hparts|]. intros p Hp.
      apply Forall_forall. intros x Hx ->. done. }
  intros Hin. rewrite Forall_forall in Hall. by apply Hall in Hin.
Qed.

Lemma urlencode_no_hash (pairs : list (list N * list N)) (q : list N) :
  UrlParse.urlencode pairs = Ok q → chr "#" ∉ q.
Proof.
  rewrite urlencode_percent_encode.
  destruct (result_mapM _ pairs) as [l|] eqn:El; cbn; [|done].
  intros [= <-]. apply join_no_char; [by apply contains_false|].
  apply result_mapM_Forall2 in El. clear -El.
  induction El as [|[k v] y pairs l Hy _ IH]; constructor; [|done].
  destruct (percent_encode k) as [k'|] eqn:Ek; cbn in Hy; [|done].
  destruct (percent_encode v) as [v'|] eqn:Ev; cbn in Hy; [|done].
  apply Ok_inj in Hy. subst y. rewrite !not_elem_of_app. split; [|split].
  - by eapply percent_encode_no_hash.
  - by apply contains_false.
  - by eapply percent_encode_no_hash.
Qed.

Lemma geturl_fragment (sch n pa params q f : list N) :
  UrlParse.geturl (UrlParse.mkParse sch n pa params q f)
  = UrlParse.geturl (UrlParse.mkParse sch n pa params q [])
      ++ (if truthy f then py "#" ++ f else []).
Proof.
  unfold UrlParse.geturl, UrlParse.urlunparse, UrlParse.urlunsplit. cbv zeta.
  cbn [truthy]. destruct (truthy f); [done | by rewrite app_nil_r].
Qed.

Lemma geturl_no_char (c : N) (sch n pa params q : list N) :
  Py.contains c (py ":/?;") = false →
  c ∉ sch → c ∉ n → c ∉ pa → c ∉ params → c ∉ q →
  c ∉ UrlParse.geturl (UrlParse.mkParse sch n pa params q []).
Proof.
  intros Hc Hs Hn Hp Hpr Hq.
  assert (H1 : c ∉ py ":") by (intros ->%list_elem_of_singleton; discriminate Hc).
  assert (H2 : c ∉ py "/") by (intros ->%list_elem_of_singleton; discriminate Hc).
  assert (H3 : c ∉ py "?") by (intros ->%list_elem_of_singleton; discriminate Hc).
  assert (H4 : c ∉ py ";") by (intros ->%list_elem_of_singleton; discriminate Hc).
  assert (H5 : c ∉ py "//").
  { change (py "//") with (py "/" ++ py "/"). by apply not_elem_of_app. }
  unfold UrlParse.geturl, UrlParse.urlunparse, UrlParse.urlunsplit. cbv zeta.
  cbn [truthy].
  repeat first
    [ assumption
    | apply not_elem_of_nil
    | match goal with |- _ ∉ (if ?b then _ else _) => destruct b end
    | apply not_elem_of_app; split ].
Qed.

Section Fragment.
Context `{Runtime}.

Lemma urlparse_sublist (u : list N) (p : UrlParse.ParseResult) :
  UrlParse.urlparse u = Ok p →
  UrlParse.netloc p `sublist_of` u ∧ UrlParse.path p `sublist_of` u
  ∧ UrlParse.params p `sublist_of` u ∧ UrlParse.query p `sublist_of` u
  ∧ UrlParse.fragment p `sublist_of` u.
Proof.
  unfold UrlParse.urlparse. rewrite urlsplit_eq.
  pose proof (split_scheme_sublist (url_clean u)) as Hsub.
  destruct (split_scheme (url_clean u)) as [sch rest]. cbn [snd] in Hsub.
  assert (Hrest : rest `sublist_of` u) by (etrans; [done | apply url_clean_sublist]).
  destruct (split_authority rest) as [[n r0]|] eqn:Ea; cbn [mbind result_bind]; [|done].
  destruct (split_authority_sublist _ _ _ Ea) as [Hn Hr0].
  destruct (cut (chr "#") r0) as [r1 f] eqn:Ef.
  destruct (cut_sublist _ _ _ _ Ef) as [Hr1 Hf].
  destruct (cut (chr "?") r1) as [pa q] eqn:Eq.
  destruct (cut_sublist _ _ _ _ Eq) as [Hpa Hq].
  destruct (UrlParse.checknetloc n); cbn [mbind result_bind]; [|done].
  assert (Hpa' : pa `sublist_of` u) by (by repeat (etrans; [eassumption|])).
  destruct (_ && _).
  - destruct (UrlParse.splitparams pa) as [a b] eqn:Ep.
    destruct (splitparams_sublist _ _ _ Ep) as [Ha Hb].
    intros [= <-]. cbn. repeat split; repeat (etrans; [eassumption|]); done.
  - intros [= <-]. cbn. repeat split; repeat (etrans; [eassumption|]); try done.
    apply sublist_nil_l.
Qed.

Lemma urlparse_no_fragment (u : list N) (p : UrlParse.ParseResult) :
  chr "#" ∉ u → UrlParse.urlparse u = Ok p → UrlParse.fragment p = [].
Proof.
  intros Hu. unfold UrlParse.urlparse. rewrite urlsplit_eq.
  pose proof (split_scheme_sublist (url_clean u)) as Hsub.
  destruct (split_scheme (url_clean u)) as [sch rest] eqn:Es. cbn [snd] in Hsub.
  destruct (split_authority rest) as [[n r0]|] eqn:Ea; cbn [mbind result_bind]; [|done].
  assert (Hr0 : r0 `sublist_of` u).
  { etrans; [by eapply split_rest_sublist | apply url_clean_sublist]. }
  rewrite (cut_absent (chr "#") r0) by (eapply not_elem_of_sublist; eauto).
  destruct (cut (chr "?") r0) as [pa q].
  destruct (UrlParse.checknetloc n); cbn [mbind result_bind]; [|done].
  destruct (_ && _); [destruct (UrlParse.splitparams pa)|]; by intros [= <-].
Qed.

Lemma urlparse_fragment (base f : list N) :
  chr "#" ∉ base → Forall (fun c => printable c = true) f →
  UrlParse.urlparse (Py.strip Py.isspace (base ++ chr "#" :: f))
  = (p ← UrlParse.urlparse (Py.lstrip Py.isspace base);
     Ok (UrlParse.mkParse (UrlParse.scheme p) (UrlParse.netloc p) (UrlParse.path p)
           (UrlParse.params p) (UrlParse.query p) f)).
Proof.
  intros Hf Hpr. unfold UrlParse.urlparse. rewrite (urlsplit_fragment base f Hf Hpr).
  destruct (UrlParse.urlsplit _) as [[sch n pa qu fr]|e]; cbn [mbind result_bind];
    [|done].
  cbn [UrlParse.s_scheme UrlParse.s_netloc UrlParse.s_path UrlParse.s_query].
  destruct (_ && _); [|done]. by destruct (UrlParse.splitparams pa).
Qed.

(** The text before the fragment, for an ASCII url without '#'. *)
Lemma whole_no_hash (u sq : list N) (p : UrlParse.ParseResult) :
  chr "#" ∉ u → UrlParse.urlparse u = Ok p → sorted_query (UrlParse.query p) = Ok sq →
  chr "#" ∉ UrlParse.geturl
              (UrlParse.mkParse (UrlParse.scheme p) (UrlParse.netloc p)
                 (Py.rstrip (N.eqb (chr "/")) (UrlParse.path p))
                 (UrlParse.params p) sq []).
Proof.
  intros Hu Hp Hsq.
  destruct (urlparse_sublist _ _ Hp) as (Hn & Hpa & Hpr & _ & _).
  destruct (urlparse_shape _ _ Hp) as [Hsch _].
  apply geturl_no_char.
  - reflexivity.
  - destruct Hsch as [->|[_ Hall]]; [apply not_elem_of_nil|].
    eapply Forall_absent; [exact Hall|]. intros Hc.
    apply lower_scheme_char_facts in Hc. tauto.
  - eapply not_elem_of_sublist; eauto.
  - eapply not_elem_of_sublist; [|exact Hu].
    etrans; [|exact Hpa]. apply prefix_is_sublist, rstrip_prefix.
  - eapply not_elem_of_sublist; eauto.
  - by eapply urlencode_no_hash.
Qed.

Lemma whole_ascii (u sq f : list N) (p : UrlParse.ParseResult) :
  ascii_text u → ascii_text f →
  UrlParse.urlparse u = Ok p → sorted_query (UrlParse.query p) = Ok sq →
  ascii_text (UrlParse.geturl
                (UrlParse.mkParse (UrlParse.scheme p) (UrlParse.netloc p)
                   (Py.rstrip (N.eqb (chr "/")) (UrlParse.path p))
                   (UrlParse.params p) sq f)).
Proof.
  intros Hu Hf Hp Hsq.
  destruct (urlparse_ascii _ _ Hu Hp) as (Hs & Hn & Hpa & Hpr & _ & _).
  apply urlunparse_ascii; cbn; try done.
  - eapply ascii_text_sublist; [|exact Hpa]. apply prefix_is_sublist, rstrip_prefix.
  - by eapply urlencode_ascii.
Qed.

(** The result on an ASCII url without '#', whatever the flag. *)
Lemma normalize_url_no_hash (url : list N) (kf : bool) :
  ascii_text url → chr "#" ∉ url →
  normalize_url url kf
  = (p ← UrlParse.urlparse (Py.strip Py.isspace url);
     sq ← sorted_query (UrlParse.query p);
     Ok (Py.lower_ascii <$>
           UrlParse.geturl
             (UrlParse.mkParse (UrlParse.scheme p) (UrlParse.netloc p)
                (Py.rstrip (N.eqb (chr "/")) (UrlParse.path p))
                (UrlParse.params p) sq []))).
Proof.
  intros Ha Hh. rewrite normalize_url_rebuilt.
  assert (Hs : Py.strip Py.isspace url `sublist_of` url) by apply strip_sublist.
  destruct (UrlParse.urlparse _) as [p|] eqn:Ep; cbn [mbind result_bind]; [|done].
  destruct (sorted_query _) as [sq|] eqn:Esq; cbn [mbind result_bind]; [|done].
  f_equal. unfold rebuilt_url.
  rewrite (urlparse_no_fragment _ _ (not_elem_of_sublist _ _ _ Hs Hh) Ep).
  rewrite lower_ascii_text.
  2:{ eapply whole_ascii; [|constructor|exact Ep|exact Esq].
      by eapply ascii_text_sublist. }
  destruct kf; cbn [negb]; [done|].
  rewrite split_absent; [done|].
  apply lower_fmap_no_hash. eapply whole_no_hash; [|exact Ep|exact Esq].
  by eapply not_elem_of_sublist.
Qed.

(** X20.  On an ASCII url without '#', [keep_url_fragment] makes no
    difference. *)
Theorem keep_flag_idle_without_fragment (url : list N) :
  ascii_text url → chr "#" ∉ url →
  normalize_url url true = normalize_url url false.
Proof. intros Ha Hh. by rewrite !normalize_url_no_hash. Qed.

(** X21.  A fragment added to an ASCII url is dropped, or kept in lower
    case at the end of the result: without [keep_url_fragment] the url
    followed by '#' and a fragment has the result of the url alone; with
    it, that result followed by '#' and the fragment in lower case (by
    nothing when the fragment is empty). *)
Theorem fragment_dropped_or_appended (base f : list N) :
  ascii_text base → chr "#" ∉ base → Py.rstrip Py.isspace base = base →
  Forall (fun c => printable c = true) f →
  normalize_url (base ++ py "#" ++ f) false = normalize_url base false
  ∧ ∀ new_url, normalize_url base true = Ok new_url →
      normalize_url (base ++ py "#" ++ f) true
      = Ok (new_url ++ (if truthy f then py "#" ++ (Py.lower_ascii <$> f) else [])).
Proof.
  intros Ha Hh Hb Hf.
  change (py "#" ++ f) with (chr "#" :: f).
  assert (Hfa : ascii_text f).
  { eapply Forall_impl; [exact Hf|]. apply printable_lt. }
  assert (Hcommon : ∀ kf,
    normalize_url (base ++ chr "#" :: f) kf
    = (p ← UrlParse.urlparse (Py.strip Py.isspace base);
       sq ← sorted_query (UrlParse.query p);
       Ok (let whole :=
             Py.lower_ascii <$>
               UrlParse.geturl
                 (UrlParse.mkParse (UrlParse.scheme p) (UrlParse.netloc p)
                    (Py.rstrip (N.eqb (chr "/")) (UrlParse.path p))
                    (UrlParse.params p) sq []) in
           if kf
           then whole ++ (if truthy f then py "#" ++ (Py.lower_ascii <$> f) else [])
           else whole))).
  { intros kf. rewrite normalize_url_rebuilt, (urlparse_fragment _ _ Hh Hf).
    rewrite (strip_rstrip_fixed _ _ Hb).
    assert (Hl : Py.lstrip Py.isspace base `sublist_of` base)
      by apply suffix_is_sublist, lstrip_suffix.
    destruct (UrlParse.urlparse _) as [p|] eqn:Ep; cbn [mbind result_bind]; [|done].
    cbn [UrlParse.query].
    destruct (sorted_query _) as [sq|] eqn:Esq; cbn [mbind result_bind]; [|done].
    f_equal. unfold rebuilt_url.
    cbn [UrlParse.scheme UrlParse.netloc UrlParse.path UrlParse.params
         UrlParse.fragment].
    assert (Hal : ascii_text (Py.lstrip Py.isspace base))
      by by eapply ascii_text_sublist.
    rewrite lower_ascii_text by (by eapply whole_ascii).
    rewrite geturl_fragment, fmap_app. cbv zeta.
    assert (Hno : chr "#" ∉ Py.lower_ascii <$>
                    UrlParse.geturl
                      (UrlParse.mkParse (UrlParse.scheme p) (UrlParse.netloc p)
                         (Py.rstrip (N.eqb (chr "/")) (UrlParse.path p))
                         (UrlParse.params p) sq [])).
    { apply lower_fmap_no_hash. eapply whole_no_hash; [|exact Ep|exact Esq].
      by eapply not_elem_of_sublist. }
    destruct kf; cbn [negb].
    - by destruct f.
    - destruct f as [|c f]; cbn [truthy].
      + rewrite app_nil_r. by rewrite split_absent.
      + change (Py.lower_ascii <$> py "#" ++ c :: f)
          with (chr "#" :: (Py.lower_ascii <$> c :: f)).
        by rewrite split_app. }
  assert (Hbase : ∀ kf,
    normalize_url base kf
    = (p ← UrlParse.urlparse (Py.strip Py.isspace base);
       sq ← sorted_query (UrlParse.query p);
       Ok (Py.lower_ascii <$>
             UrlParse.geturl
               (UrlParse.mkParse (UrlParse.scheme p) (UrlParse.netloc p)
                  (Py.rstrip (N.eqb (chr "/")) (UrlParse.path p))
                  (UrlParse.params p) sq [])))).
  { intros kf. by apply normalize_url_no_hash. }
  split.
  - by rewrite Hcommon, Hbase.
  - intros new_url. rewrite Hcommon, Hbase.
    destruct (UrlParse.urlparse _) as [p|]; cbn [mbind result_bind]; [|done].
    destruct (sorted_query _) as [sq|]; cbn [mbind result_bind]; [|done].
    by intros <-%Ok_inj.
Qed.
End Fragment.

Section FragmentExamples.
#[local] Existing Instance ascii_runtime.

Lemma keep_flag_idle_without_fragment_witness :
  normalize_url (py "HTTP://x.com/A/?b=1") true
  = normalize_url (py "HTTP://x.com/A/?b=1") false.
Proof.
  apply (keep_flag_idle_without_fragment (py "HTTP://x.com/A/?b=1")).
  - apply is_ascii_spec. vm_compute. reflexivity.
  - apply contains_false. vm_compute. reflexivity.
Defined.

Lemma fragment_dropped_or_appended_witness :
  normalize_url (py "http://x.com/" ++ py "#" ++ py "Frag") false
  = normalize_url (py "http://x.com/") false
  ∧ ∀ new_url, normalize_url (py "http://x.com/") true = Ok new_url →
      normalize_url (py "http://x.com/" ++ py "#" ++ py "Frag") true
      = Ok (new_url ++ (if truthy (py "Frag")
                        then py "#" ++ (Py.lower_ascii <$> py "Frag") else [])).
Proof.
  apply (fragment_dropped_or_appended (py "http://x.com/") (py "Frag")).
  - apply is_ascii_spec. vm_compute. reflexivity.
  - apply contains_false. vm_compute. reflexivity.
  - vm_compute. reflexivity.
  - apply Forall_forall. intros c Hc. vm_compute in Hc.
    repeat (apply elem_of_cons in Hc as [-> | Hc]; [by vm_compute|]).
    by apply elem_of_nil in Hc.
Defined.
End FragmentExamples.

(** ** The result of [normalize_url] on plain urls *)

Section NormalForm.
Context `{Runtime}.

(** X22.  On a url that parses with a non-empty authority, whose
    authority, path and fragment are printable ASCII without space (the
    authority without brackets, the path without ';'), and whose decoded
    query keys and values are plain words, the result is
    [scheme://authority/path?query#fragment] with the authority, the path
    and the fragment in lower case, the path without its trailing slashes,
    the query rebuilt as [key=value&...] from the sorted pairs, and the
    fragment present only with [keep_url_fragment]. *)
Theorem normal_form_of_plain_urls (url : list N) (kf : bool)
    (p : UrlParse.ParseResult) :
  UrlParse.urlparse (Py.strip Py.isspace url) = Ok p →
  UrlParse.netloc p ≠ [] →
  Forall (fun c => plain_netloc_char c = true) (UrlParse.netloc p) →
  Forall (fun c => plain_path_char c = true) (UrlParse.path p) →
  UrlParse.params p = [] →
  Forall (fun c => printable c = true) (UrlParse.fragment p) →
  Forall (fun kv => plain_word kv.1 ∧ plain_word kv.2)
         (UrlParse.parse_qsl (UrlParse.query p)) →
  normalize_url url kf
  = Ok (assemble (UrlParse.scheme p)
          (Py.lower_ascii <$> UrlParse.netloc p)
          (Py.lower_ascii <$> Py.rstrip (N.eqb (chr "/")) (UrlParse.path p))
          (query_text (sorted_pairs (UrlParse.query p)))
          (if kf then Py.lower_ascii <$> UrlParse.fragment p else [])).
Proof.
  intros Hparse Hn Hnc Hpc Hparams Hfc Hwords.
  rewrite normalize_url_rebuilt, Hparse. cbn [mbind result_bind].
  pose proof (sorted_pairs_plain _ Hwords) as Hplain.
  assert (Hplain' : Forall (fun kv => plain_word kv.1 ∧ plain_word kv.2)
                           (sorted_pairs (UrlParse.query p))).
  { eapply Forall_impl; [exact Hplain|]. intros kv (? & ? & _). done. }
  assert (Hsq : sorted_query (UrlParse.query p)
                = Ok (query_text (sorted_pairs (UrlParse.query p))))
    by by apply urlencode_plain.
  rewrite Hsq. cbn [mbind result_bind]. f_equal.
  destruct (sorted_query_plain _ _ Hwords Hsq) as [_ Hsqc].
  destruct (urlparse_shape _ _ Hparse) as [Hsch Hrooted].
  specialize (Hrooted Hn).
  set (sq := query_text (sorted_pairs (UrlParse.query p))) in *.
  set (pa := Py.rstrip (N.eqb (chr "/")) (UrlParse.path p)).
  assert (Hpa_prefix : pa `prefix_of` UrlParse.path p) by apply rstrip_prefix.
  assert (Hpa_rooted : rooted pa) by by eapply rooted_prefix.
  assert (Hpa_c : Forall (fun c => plain_path_char c = true) pa)
    by by eapply Forall_prefix.
  assert (Hsq1 : Forall (fun c => printable c = true ∧ c ≠ chr "#") sq).
  { eapply Forall_impl; [exact Hsqc|]. intros c (? & _ & ?). done. }
  assert (Hsq2 : Py.lower_ascii <$> sq = sq).
  { clear -Hsqc. induction Hsqc as [|c s (_ & Hc & _) _ IH]; [done|].
    by rewrite fmap_cons, IH, Hc. }
  unfold rebuilt_url. rewrite Hparams, (geturl_assemble _ _ _ _ _ Hn Hpa_rooted).
  cbv zeta. rewrite lower_ascii_text.
  2:{ eapply Forall_impl;
        [apply (assemble_printable (UrlParse.scheme p) (UrlParse.netloc p) pa sq
                  (UrlParse.fragment p)); done|].
      apply printable_lt. }
  rewrite lower_assemble, (scheme_lower _ Hsch), Hsq2.
  destruct kf; cbn [negb]; [done|].
  apply assemble_cut_fragment.
  - destruct Hsch as [->|[_ Hall]]; [apply not_elem_of_nil|].
    eapply Forall_absent; [exact Hall|]. intros Hc.
    apply lower_scheme_char_facts in Hc. tauto.
  - apply lower_fmap_no_hash. eapply Forall_absent; [exact Hnc|]. intros Hc.
    apply plain_netloc_char_facts in Hc. tauto.
  - apply lower_fmap_no_hash. eapply Forall_absent; [exact Hpa_c|]. intros Hc.
    apply plain_path_char_facts in Hc. tauto.
  - eapply Forall_absent; [exact Hsq1|]. intros [_ ?]. done.
Qed.
End NormalForm.

(** ** When [normalize_url] raises *)

Lemma scan_scalar (bs : list N) :
  Forall (fun it => match it with
                    | Utf8.Char c => scalar_value c
                    | Utf8.Malformed => True
                    end)
         (Utf8.scan bs).
Proof.
  remember (length bs) as n eqn:Hn. revert bs Hn.
  induction n as [n IH] using lt_wf_ind. intros bs Hn.
  assert (Hrec : ∀ r, (length r < length bs)%nat →
            Forall (fun it => match it with
                              | Utf8.Char c => scalar_value c
                              | Utf8.Malformed => True
                              end) (Utf8.scan r)).
  { intros r Hr. apply (IH (length r)); [lia | done]. }
  clear IH. destruct bs as [|b0 r0]; [constructor|]. cbn [Utf8.scan].
  unfold Utf8.second_of3, Utf8.second_of4, Utf8.is_cont, scalar_value.
  repeat match goal with
         | |- context [match ?l with [] => _ | _ :: _ => _ end] =>
             is_var l; destruct l
         | |- context [if ?c <? ?d then _ else _] => destruct (N.ltb_spec c d)
         | |- context [?c <=? ?d] => destruct (N.leb_spec c d)
         | |- context [?c =? ?d] => destruct (N.eqb_spec c d)
         | _ => progress cbn [andb negb]
         end;
    repeat (constructor; [first [exact I | lia]|]);
    first [constructor | apply Hrec; cbn [length]; lia].
Qed.

Lemma decode_replace_encodable (bs : list byte) : encodable (Utf8.decode_replace bs).
Proof.
  unfold Utf8.decode_replace, encodable.
  pose proof (scan_scalar (map Byte.to_N bs)) as Hs.
  induction Hs as [|it its Hit _ IH]; [constructor|]. cbn. constructor; [|done].
  destruct it; [done|]. unfold scalar_value. lia.
Qed.

Lemma unquote_runs_encodable (run s : list N) :
  encodable s → encodable (UrlParse.unquote_runs run s).
Proof.
  intros Hs. revert run. induction Hs as [|c s Hc _ IH]; intros run; cbn.
  - apply decode_replace_encodable.
  - destruct (c <? 128); [apply IH|].
    apply Forall_app. split; [apply decode_replace_encodable|].
    constructor; [done | apply IH].
Qed.

Lemma unquote_encodable (s : list N) : encodable s → encodable (UrlParse.unquote s).
Proof.
  intros Hs. unfold UrlParse.unquote.
  destruct (negb _); [done | by apply unquote_runs_encodable].
Qed.

Lemma replace_space_encodable (s : list N) :
  encodable s → encodable (Py.replace (chr "+") (chr " ") s).
Proof.
  unfold Py.replace, encodable. induction 1 as [|c s Hc _ IH]; cbn [map]; [constructor|].
  constructor; [|done]. destruct (c =? chr "+"); [|done].
  unfold scalar_value. change (chr " ") with 32. lia.
Qed.

Lemma split_Forall (P : N → Prop) (c : N) (s : list N) :
  Forall P s → Forall (Forall P) (Py.split c s).
Proof.
  induction 1 as [|x s Hx _ IH]; cbn [Py.split]; [by repeat constructor|].
  destruct (x =? c); [by constructor|].
  destruct (Py.split c s) as [|w ws]; [by repeat constructor|].
  apply Forall_cons in IH as [Hw Hws]. by repeat constructor.
Qed.

Lemma parse_qsl_encodable (q : list N) :
  encodable q →
  Forall (fun kv => encodable kv.1 ∧ encodable kv.2) (UrlParse.parse_qsl q).
Proof.
  intros Hq. rewrite parse_qsl_items.
  pose proof (split_Forall _ (chr "&") q Hq) as Hitems.
  induction Hitems as [|item items Hitem _ IH]; cbn [flat_map]; [constructor|].
  apply Forall_app. split; [|done]. unfold parse_item.
  destruct (negb _); [constructor|].
  destruct (Py.split_once (chr "=") item) as [[nv0 nv1]|] eqn:E; [|constructor].
  destruct (truthy nv1); [|constructor].
  apply split_once_Some in E as [-> _]. apply Forall_app in Hitem as [H0 H1].
  apply Forall_cons in H1 as [_ H1].
  repeat constructor; cbn; by apply unquote_encodable, replace_space_encodable.
Qed.

Lemma percent_encode_total (s : list N) : encodable s → ∃ q, percent_encode s = Ok q.
Proof.
  intros [bs Hbs]%encode_Ok. unfold percent_encode. rewrite Hbs. cbn. eauto.
Qed.

Lemma sorted_query_total (q : list N) : encodable q → ∃ sq, sorted_query q = Ok sq.
Proof.
  intros Hq. unfold sorted_query. rewrite urlencode_percent_encode.
  assert (Hall : Forall (fun kv => encodable kv.1 ∧ encodable kv.2) (sorted_pairs q)).
  { apply Forall_forall. intros [k v] Hkv.
    apply sorted_pairs_from_parse in Hkv as [Hkv _].
    pose proof (parse_qsl_encodable q Hq) as Hp. rewrite Forall_forall in Hp.
    by apply Hp in Hkv. }
  assert (∃ l, result_mapM (fun '(k, v) =>
                  k' ← percent_encode k; v' ← percent_encode v;
                  Ok (k' ++ py "=" ++ v')) (sorted_pairs q) = Ok l) as [l ->].
  { induction Hall as [|[k v] pairs [Hk Hv] _ [l IH]]; [by exists []|].
    cbn [result_mapM]. cbn in Hk, Hv.
    destruct (percent_encode_total k Hk) as [k' ->].
    destruct (percent_encode_total v Hv) as [v' ->].
    cbn [mbind result_bind]. rewrite IH. cbn. eauto. }
  cbn. eauto.
Qed.

Lemma percent_encode_raises (s : list N) (e : exception) :
  percent_encode s = Raise e → e = UnicodeEncodeError.
Proof.
  unfold percent_encode. destruct (Utf8.encode s) as [bs|e'] eqn:E; cbn; [done|].
  intros [= <-]. by eapply encode_raises.
Qed.

Lemma sorted_query_raises (q : list N) (e : exception) :
  sorted_query q = Raise e → e = UnicodeEncodeError ∧ ¬ encodable q.
Proof.
  intros Hq. split.
  - unfold sorted_query in Hq. rewrite urlencode_percent_encode in Hq.
    destruct (result_mapM _ _) as [l|e'] eqn:El; cbn in Hq; [done|].
    injection Hq as <-. revert El. generalize (sorted_pairs q). intros pairs.
    induction pairs as [|[k v] pairs IH]; cbn [result_mapM]; [done|].
    destruct (percent_encode k) as [k'|ek] eqn:Ek; cbn [mbind result_bind].
    2:{ intros [= <-]. by eapply percent_encode_raises. }
    destruct (percent_encode v) as [v'|ev] eqn:Ev; cbn [mbind result_bind].
    2:{ intros [= <-]. by eapply percent_encode_raises. }
    destruct (result_mapM _ pairs) as [l|e'']; cbn [mbind result_bind]; [done|].
    intros [= <-]. by apply IH.
  - intros [sq Hsq]%sorted_query_total. congruence.
Qed.

Lemma encodable_sublist (a b : list N) : a `sublist_of` b → encodable b → encodable a.
Proof.
  intros Hab Hb. apply Forall_forall. intros c Hc.
  unfold encodable in Hb. rewrite Forall_forall in Hb. apply Hb.
  by eapply elem_of_sublist.
Qed.

Lemma ascii_encodable (s : list N) : ascii_text s → encodable s.
Proof.
  intros Hs. eapply Forall_impl; [exact Hs|]. intros c Hc. cbv beta in Hc.
  unfold scalar_value. lia.
Qed.

Section Raises.
Context `{Runtime}.

Lemma urlparse_raises (u : list N) (e : exception) :
  UrlParse.urlparse u = Raise e → e = ValueError.
Proof.
  unfold UrlParse.urlparse. rewrite urlsplit_eq.
  destruct (split_scheme (url_clean u)) as [sch rest].
  unfold split_authority.
  destruct (Py.eqb_str _ _); [destruct (UrlParse.splitnetloc rest 2) as [n r0];
                              destruct (brackets_ok n)|];
    cbn [mbind result_bind]; try congruence;
    repeat match goal with
           | |- context [cut ?c ?s] => destruct (cut c s)
           | |- context [UrlParse.checknetloc ?n] => destruct (UrlParse.checknetloc n)
           | |- context [UrlParse.splitparams ?n] => destruct (UrlParse.splitparams n)
           | |- context [if ?b && ?c then _ else _] => destruct (b && c)
           | _ => progress cbn [mbind result_bind]
           end; congruence.
Qed.

Lemma urlparse_total (u : list N) :
  ascii_text u → chr "[" ∉ u → chr "]" ∉ u → ∃ p, UrlParse.urlparse u = Ok p.
Proof.
  intros Ha Ho Hc. unfold UrlParse.urlparse. rewrite urlsplit_eq.
  pose proof (split_scheme_sublist (url_clean u)) as Hsub.
  destruct (split_scheme (url_clean u)) as [sch rest]. cbn [snd] in Hsub.
  assert (Hrest : rest `sublist_of` u) by (etrans; [done | apply url_clean_sublist]).
  assert (Hauth : ∃ n r0, split_authority rest = Ok (n, r0) ∧ n `sublist_of` u).
  { unfold split_authority. destruct (Py.eqb_str _ _).
    - destruct (UrlParse.splitnetloc rest 2) as [n r0] eqn:En.
      destruct (splitnetloc_sublist _ _ _ _ En) as [Hn _].
      assert (Hnu : n `sublist_of` u) by by etrans.
      assert (brackets_ok n = true) as ->.
      { unfold brackets_ok.
        assert (Py.contains (chr "[") n = false) as ->
          by (apply contains_false; eapply not_elem_of_sublist; eauto).
        assert (Py.contains (chr "]") n = false) as ->
          by (apply contains_false; eapply not_elem_of_sublist; eauto).
        done. }
      eauto.
    - exists [], rest. split; [done | apply sublist_nil_l]. }
  destruct Hauth as (n & r0 & -> & Hn). cbn [mbind result_bind].
  destruct (cut (chr "#") r0) as [r1 f]. destruct (cut (chr "?") r1) as [pa q].
  assert (UrlParse.checknetloc n = true) as ->.
  { unfold UrlParse.checknetloc.
    assert (Py.is_ascii n = true) as ->; [|by rewrite orb_true_r].
    apply is_ascii_spec. by eapply ascii_text_sublist. }
  cbn [mbind result_bind].
  destruct (_ && _); [destruct (UrlParse.splitparams pa)|]; eauto.
Qed.

(** X23.  [normalize_url] does not raise on an ASCII url without square
    brackets, so that [compute_unique_key] never falls back to the raw url
    for such a url. *)
Theorem ascii_url_without_brackets_is_normalized (url : list N) (kf : bool) :
  ascii_text url → chr "[" ∉ url → chr "]" ∉ url →
  ∃ new_url, normalize_url url kf = Ok new_url
             ∧ normalized_or_raw url kf = new_url.
Proof.
  intros Ha Ho Hc.
  assert (Hs : Py.strip Py.isspace url `sublist_of` url) by apply strip_sublist.
  destruct (urlparse_total (Py.strip Py.isspace url)) as [p Hp].
  { by eapply ascii_text_sublist. }
  { by eapply not_elem_of_sublist. }
  { by eapply not_elem_of_sublist. }
  destruct (urlparse_sublist _ _ Hp) as (_ & _ & _ & Hq & _).
  destruct (sorted_query_total (UrlParse.query p)) as [sq Hsq].
  { apply ascii_encodable. eapply ascii_text_sublist; [|exact Ha]. by etrans. }
  assert (Hnorm : normalize_url url kf = Ok (rebuilt_url p sq kf)).
  { rewrite normalize_url_rebuilt, Hp. cbn [mbind result_bind]. by rewrite Hsq. }
  exists (rebuilt_url p sq kf). split; [done|].
  unfold normalized_or_raw. by rewrite Hnorm.
Qed.

(** X24.  [normalize_url] raises [ValueError], from the parser of the
    url, or [UnicodeEncodeError], and this one only on a url that UTF-8
    cannot encode (a lone surrogate); it raises nothing else. *)
Theorem normalize_url_raises_only (url : list N) (kf : bool) (e : exception) :
  normalize_url url kf = Raise e →
  e = ValueError ∨ (e = UnicodeEncodeError ∧ ¬ encodable url).
Proof.
  rewrite normalize_url_rebuilt.
  destruct (UrlParse.urlparse _) as [p|e'] eqn:Ep; cbn [mbind result_bind].
  - destruct (sorted_query _) as [sq|e'] eqn:Esq; cbn [mbind result_bind]; [done|].
    intros [= <-]. right. apply sorted_query_raises in Esq as [-> Hne].
    split; [done|]. intros Henc. apply Hne.
    destruct (urlparse_sublist _ _ Ep) as (_ & _ & _ & Hq & _).
    eapply encodable_sublist; [|exact Henc].
    etrans; [exact Hq | apply strip_sublist].
  - intros [= <-]. left. by eapply urlparse_raises.
Qed.
End Raises.

Section NormalFormExamples.
#[local] Existing Instance ascii_runtime.

Lemma normal_form_of_plain_urls_witness :
  normalize_url (py " HTTPS://Example.com/Page//?b=2&utm_source=x&a=1&b=3#Top") true
  = Ok (py "https://example.com/page?a=1&b=3#top").
Proof.
  rewrite (normal_form_of_plain_urls
             (py " HTTPS://Example.com/Page//?b=2&utm_source=x&a=1&b=3#Top") true
             (UrlParse.mkParse (py "https") (py "Example.com") (py "/Page//") []
                (py "b=2&utm_source=x&a=1&b=3") (py "Top"))).
  - vm_compute. reflexivity.
  - vm_compute. reflexivity.
  - vm_compute. discriminate.
  - apply Forall_forall. intros c Hc. vm_compute in Hc.
    repeat (apply elem_of_cons in Hc as [-> | Hc]; [by vm_compute|]).
    by apply elem_of_nil in Hc.
  - apply Forall_forall. intros c Hc. vm_compute in Hc.
    repeat (apply elem_of_cons in Hc as [-> | Hc]; [by vm_compute|]).
    by apply elem_of_nil in Hc.
  - reflexivity.
  - apply Forall_forall. intros c Hc. vm_compute in Hc.
    repeat (apply elem_of_cons in Hc as [-> | Hc]; [by vm_compute|]).
    by apply elem_of_nil in Hc.
  - apply Forall_forall. intros [k v] Hkv. vm_compute in Hkv.
    repeat (apply elem_of_cons in Hkv as [Hkv' | Hkv];
            [injection Hkv' as -> ->; split; repeat constructor|]).
    by apply elem_of_nil in Hkv.
Defined.

Lemma ascii_url_without_brackets_is_normalized_witness :
  ∃ new_url, normalize_url (py "not a valid url:::") false = Ok new_url
             ∧ normalized_or_raw (py "not a valid url:::") false = new_url.
Proof.
  apply (ascii_url_without_brackets_is_normalized (py "not a valid url:::") false).
  - apply is_ascii_spec. vm_compute. reflexivity.
  - apply contains_false. vm_compute. reflexivity.
  - apply contains_false. vm_compute. reflexivity.
Defined.

Lemma normalize_url_raises_only_witness :
  ValueError = ValueError
  ∨ (ValueError = UnicodeEncodeError ∧ ¬ encodable (py "http://[::1")).
Proof.
  apply (normalize_url_raises_only (py "http://[::1") false ValueError).
  vm_compute. reflexivity.
Defined.
End NormalFormExamples.

(** ** A bracket without its pair in the authority *)

Lemma scheme_char_facts (c : N) :
  Py.contains c UrlParse.scheme_chars = true → printable c = true ∧ c ≠ chr ":".
Proof.
  intros Hc. pose proof (lower_scheme_char_of c Hc) as [Hlt _].
  pose proof (bounded_check 128
    (fun c => implb (Py.contains c UrlParse.scheme_chars)
                    (printable c && negb (c =? chr ":")))) as Hcheck.
  specialize (Hcheck ltac:(vm_compute; reflexivity) c Hlt).
  cbv beta in Hcheck. rewrite Hc in Hcheck. cbn [implb] in Hcheck.
  apply andb_true_iff in Hcheck as [Hp Hn]. split; [done|].
  apply negb_true_iff in Hn. by apply N.eqb_neq.
Qed.

Section Bracket.
Context `{Runtime}.

Lemma split_scheme_prefix (sch rest : list N) :
  Py.is_alpha_ascii (hd 0 sch) = true →
  Forall (fun c => Py.contains c UrlParse.scheme_chars = true) sch →
  split_scheme (sch ++ chr ":" :: rest) = (Py.lower sch, rest).
Proof.
  intros Hhd Hall. unfold split_scheme.
  assert (Hcolon : chr ":" ∉ sch).
  { eapply Forall_absent; [exact Hall|]. intros Hc.
    apply scheme_char_facts in Hc. tauto. }
  rewrite (find_app_here _ _ _ Hcolon).
  destruct sch as [|c0 sch0] eqn:Esch; [done|]. rewrite <- Esch in *.
  assert (length sch = S (length sch0)) as Hlen by by rewrite Esch.
  rewrite Hlen, <- Hlen, take_app_length.
  assert (hd 0 (sch ++ chr ":" :: rest) = hd 0 sch) as -> by by rewrite Esch.
  rewrite Hhd.
  assert (forallb (fun c => Py.contains c UrlParse.scheme_chars) sch = true) as ->.
  { apply forallb_forall. intros c Hc%list_elem_of_In.
    rewrite Forall_forall in Hall. by apply Hall. }
  cbn [andb]. f_equal.
  rewrite cons_middle, app_assoc.
  replace (S (length sch)) with (length (sch ++ [chr ":"]))
    by (rewrite length_app; cbn; lia).
  by rewrite drop_app_length.
Qed.

Context `{ShortHash}.

(** X25.  An authority with one square bracket and not the other makes
    [normalize_url] raise [ValueError]: so for every url
    [scheme://authority...] in printable ASCII whose authority holds '['
    without ']' or ']' without '['; [compute_unique_key] then keeps the
    raw url as the key. *)
Theorem unpaired_bracket_raises (sch n tail : list N) (kf : bool) :
  Py.is_alpha_ascii (hd 0 sch) = true →
  Forall (fun c => Py.contains c UrlParse.scheme_chars = true) sch →
  Forall (fun c => printable c = true ∧ in_netloc c = true) n →
  Forall (fun c => printable c = true) tail →
  match tail with [] => True | c :: _ => in_netloc c = false end →
  (chr "[" ∈ n ∧ chr "]" ∉ n) ∨ (chr "]" ∈ n ∧ chr "[" ∉ n) →
  normalize_url (sch ++ py "://" ++ n ++ tail) kf = Raise ValueError
  ∧ compute_unique_key_default (sch ++ py "://" ++ n ++ tail)
    = Ok (sch ++ py "://" ++ n ++ tail).
Proof.
  intros Hhd Hsch Hn Htail Hstop Hbr.
  set (url := sch ++ py "://" ++ n ++ tail).
  assert (Hpr : Forall (fun c => printable c = true) url).
  { unfold url. apply Forall_app. split.
    - eapply Forall_impl; [exact Hsch|]. intros c Hc. by apply scheme_char_facts.
    - apply Forall_app. split; [by repeat constructor|].
      apply Forall_app. split; [|done].
      eapply Forall_impl; [exact Hn|]. by intros c [? _]. }
  assert (Hraise : ∀ kf', normalize_url url kf' = Raise ValueError).
  { intros kf'. unfold normalize_url. rewrite strip_none.
    2:{ eapply Forall_impl; [exact Hpr|]. intros c Hc. by apply printable_facts. }
    unfold UrlParse.urlparse.
    rewrite urlsplit_eq, (url_clean_printable _ Hpr). unfold url.
    change (py "://" ++ n ++ tail) with (chr ":" :: chr "/" :: chr "/" :: (n ++ tail)).
    rewrite (split_scheme_prefix _ _ Hhd Hsch).
    unfold split_authority.
    change (Py.eqb_str (take 2 (chr "/" :: chr "/" :: (n ++ tail))) (py "//"))
      with true.
    cbv iota. rewrite splitnetloc_2.
    destruct (leading_app_stop in_netloc n tail) as [-> ->]; [|done|].
    { eapply Forall_impl; [exact Hn|]. by intros c [_ ?]. }
    assert (brackets_ok n = false) as ->; [|done].
    unfold brackets_ok.
    destruct Hbr as [[Ho Hc]|[Hc Ho]];
      apply contains_spec in Ho || apply contains_false in Ho;
      apply contains_spec in Hc || apply contains_false in Hc;
      by rewrite Ho, Hc. }
  split; [apply Hraise|].
  unfold compute_unique_key_default, compute_unique_key. rewrite Hraise.
  reflexivity.
Qed.
End Bracket.

Section BracketExamples.
#[local] Existing Instance ascii_runtime.
#[local] Existing Instance sample_short_hash.

Lemma unpaired_bracket_raises_witness :
  normalize_url (py "http" ++ py "://" ++ py "[::1" ++ py "/a?b=1") false
  = Raise ValueError
  ∧ compute_unique_key_default (py "http" ++ py "://" ++ py "[::1" ++ py "/a?b=1")
    = Ok (py "http" ++ py "://" ++ py "[::1" ++ py "/a?b=1").
Proof.
  apply (unpaired_bracket_raises (py "http") (py "[::1") (py "/a?b=1") false).
  - vm_compute. reflexivity.
  - apply Forall_forall. intros c Hc. vm_compute in Hc.
    repeat (apply elem_of_cons in Hc as [-> | Hc]; [by vm_compute|]).
    by apply elem_of_nil in Hc.
  - apply Forall_forall. intros c Hc. vm_compute in Hc.
    repeat (apply elem_of_cons in Hc as [-> | Hc]; [by vm_compute|]).
    by apply elem_of_nil in Hc.
  - apply Forall_forall. intros c Hc. vm_compute in Hc.
    repeat (apply elem_of_cons in Hc as [-> | Hc]; [by vm_compute|]).
    by apply elem_of_nil in Hc.
  - vm_compute. reflexivity.
  - left. split; [apply contains_spec | apply contains_false]; vm_compute; reflexivity.
Defined.
End BracketExamples.

(** ** Slashes at the end of the path, before a query or a fragment *)

Lemma cut_app (c : N) (a b : list N) :
  c ∉ a → cut c (a ++ b) = (a ++ (cut c b).1, (cut c b).2).
Proof.
  intros Ha. destruct (cut c b) as [x y] eqn:E. cbn [fst snd].
  apply cut_spec in E as [(Hb & -> & ->)|[-> Hx]].
  - rewrite app_nil_r || idtac. apply cut_absent. by apply not_elem_of_app.
  - unfold cut. rewrite app_assoc, split_once_here; [done|].
    by apply not_elem_of_app.
Qed.

Section PathTail.
Context `{Runtime}.

Lemma urlsplit_tail (base : list N) (d : N) (r : list N) :
  chr "?" ∉ base → chr "#" ∉ base → d = chr "?" ∨ d = chr "#" →
  Forall (fun c => printable c = true) r →
  UrlParse.urlsplit (Py.strip Py.isspace (base ++ d :: r))
  = (sr ← UrlParse.urlsplit (Py.lstrip Py.isspace base);
     Ok (UrlParse.mkSplit (UrlParse.s_scheme sr) (UrlParse.s_netloc sr)
           (UrlParse.s_path sr) (tail_parts d r).1 (tail_parts d r).2)).
Proof.
  intros Hq Hf Hd Hpr.
  assert (Hdp : printable d = true) by (destruct Hd as [-> | ->]; reflexivity).
  assert (Hdn : in_netloc d = false) by (destruct Hd as [-> | ->]; reflexivity).
  assert (Ht : Forall (fun c => printable c = true) (d :: r)) by by constructor.
  rewrite strip_tail; [|done|].
  2:{ eapply Forall_impl; [exact Ht|]. intros c Hc. by apply printable_facts. }
  set (b := Py.lstrip Py.isspace base).
  assert (Hb : b `sublist_of` base) by apply suffix_is_sublist, lstrip_suffix.
  rewrite !urlsplit_eq, (url_clean_tail _ _ Ht), split_scheme_tail by done.
  destruct (split_scheme (url_clean b)) as [sch rest] eqn:Es. cbn [fst snd].
  rewrite split_authority_tail by done.
  destruct (split_authority rest) as [[n r0]|e] eqn:Ea; cbn [mbind result_bind];
    [|done].
  assert (Hr0 : r0 `sublist_of` base).
  { etrans; [by eapply split_rest_sublist|]. etrans; [apply url_clean_sublist|done]. }
  assert (Hq0 : chr "?" ∉ r0) by (eapply not_elem_of_sublist; eauto).
  assert (Hf0 : chr "#" ∉ r0) by (eapply not_elem_of_sublist; eauto).
  rewrite (cut_absent (chr "#") r0 Hf0), (cut_absent (chr "?") r0 Hq0).
  destruct Hd as [-> | ->].
  - change (tail_parts (chr "?") r) with (cut (chr "#") r).
    rewrite (cons_middle (chr "?") r0 r), app_assoc, cut_app.
    2:{ apply not_elem_of_app. split; [done|]. by intros ?%list_elem_of_singleton. }
    destruct (cut (chr "#") r) as [q f]. cbn [fst snd].
    rewrite <- app_assoc. cbn [app]. unfold cut at 1.
    rewrite (split_once_here _ _ _ Hq0).
    by destruct (UrlParse.checknetloc n).
  - change (tail_parts (chr "#") r) with (@nil N, r). cbn [fst snd].
    unfold cut at 1. rewrite (split_once_here _ _ _ Hf0).
    rewrite (cut_absent (chr "?") r0 Hq0).
    by destruct (UrlParse.checknetloc n).
Qed.

Lemma normalize_url_tail (base : list N) (d : N) (r : list N) (kf : bool) :
  chr "?" ∉ base → chr "#" ∉ base → d = chr "?" ∨ d = chr "#" →
  Forall (fun c => printable c = true) r →
  normalize_url (base ++ d :: r) kf
  = (p ← UrlParse.urlparse (Py.lstrip Py.isspace base);
     sq ← sorted_query (tail_parts d r).1;
     Ok (rebuilt_url
           (UrlParse.mkParse (UrlParse.scheme p) (UrlParse.netloc p) (UrlParse.path p)
              (UrlParse.params p) (tail_parts d r).1 (tail_parts d r).2)
           sq kf)).
Proof.
  intros Hq Hf Hd Hpr. rewrite normalize_url_rebuilt. unfold UrlParse.urlparse.
  rewrite (urlsplit_tail _ _ _ Hq Hf Hd Hpr).
  destruct (UrlParse.urlsplit _) as [[sch n pa qu fr]|e]; cbn [mbind result_bind];
    [|done].
  cbn [UrlParse.s_scheme UrlParse.s_netloc UrlParse.s_path].
  destruct (_ && _); [destruct (UrlParse.splitparams pa)|]; done.
Qed.

Lemma urlparse_slashes (u s : list N) :
  slashes s → chr "?" ∉ u → chr "#" ∉ u → chr ";" ∉ u →
  match UrlParse.urlparse u with
  | Ok p =>
      ∃ path',
        UrlParse.urlparse (u ++ s)
        = Ok (UrlParse.mkParse (UrlParse.scheme p) (UrlParse.netloc p) path'
                (UrlParse.params p) [] [])
        ∧ Py.rstrip (N.eqb (chr "/")) path'
          = Py.rstrip (N.eqb (chr "/")) (UrlParse.path p)
  | Raise e => UrlParse.urlparse (u ++ s) = Raise e
  end.
Proof.
  intros Hs Hq Hf Hp. unfold UrlParse.urlparse.
  pose proof (urlsplit_slashes u s Hs Hq Hf) as Hsplit.
  destruct (UrlParse.urlsplit u) as [[sch n p q f]|e]; cbn [mbind result_bind].
  - destruct Hsplit as (p' & -> & Hq0 & Hf0 & Hr & Hp's & Hpu).
    cbn in Hq0, Hf0, Hr, Hpu. subst q f. cbn [mbind result_bind].
    assert (Py.contains (chr ";") p = false) as ->.
    { apply contains_false. eapply not_elem_of_sublist; eauto. }
    assert (Py.contains (chr ";") p' = false) as ->.
    { apply contains_false. eapply not_elem_of_sublist; [exact Hp's|].
      rewrite not_elem_of_app. split; [done | by apply slashes_absent]. }
    rewrite !andb_false_r. exists p'. done.
  - by rewrite Hsplit.
Qed.

Lemma normalize_url_slashes_tail (base s : list N) (d : N) (r : list N) (kf : bool) :
  slashes s → chr "?" ∉ base → chr "#" ∉ base → chr ";" ∉ base →
  d = chr "?" ∨ d = chr "#" → Forall (fun c => printable c = true) r →
  normalize_url (base ++ s ++ d :: r) kf = normalize_url (base ++ d :: r) kf.
Proof.
  intros Hs Hq Hf Hp Hd Hpr. rewrite app_assoc.
  rewrite !normalize_url_tail; try done.
  2:{ apply not_elem_of_app. split; [done | by apply slashes_absent]. }
  2:{ apply not_elem_of_app. split; [done | by apply slashes_absent]. }
  rewrite lstrip_app_kept by by apply slashes_test.
  set (u := Py.lstrip Py.isspace base).
  assert (Hu : u `sublist_of` base) by apply suffix_is_sublist, lstrip_suffix.
  pose proof (urlparse_slashes u s Hs
                (not_elem_of_sublist _ _ _ Hu Hq) (not_elem_of_sublist _ _ _ Hu Hf)
                (not_elem_of_sublist _ _ _ Hu Hp)) as Hparse.
  destruct (UrlParse.urlparse u) as [p|e]; cbn [mbind result_bind].
  - destruct Hparse as (path' & -> & Hr). cbn [mbind result_bind].
    destruct (sorted_query _) as [sq|]; cbn [mbind result_bind]; [|done].
    f_equal. unfold rebuilt_url.
    cbn [UrlParse.scheme UrlParse.netloc UrlParse.path UrlParse.params
         UrlParse.fragment].
    by rewrite Hr.
  - by rewrite Hparse.
Qed.

(** C2 (as amended).  [normalize_url] removes every trailing '/' of the
    path component: for every url, the path that goes into the result is
    the path of the parsed url without its trailing slashes, which ends
    with no slash and differs from the parsed path by a run of slashes.
    So whatever number of slashes is added at the end of the path, the
    result is the same: at the end of a url without query, fragment and
    parameters, and before the '?' or '#' of a url with a query or a
    fragment; a root path "/" collapses to the empty path and a path
    ending in "//" keeps no slash. *)
Theorem trailing_slashes_all_removed :
  (∀ path : list N,
      ∃ n, path = Py.rstrip (N.eqb (chr "/")) path ++ replicate n (chr "/")
           ∧ last (Py.rstrip (N.eqb (chr "/")) path) ≠ Some (chr "/"))
  ∧ (∀ (url : list N) (kf : bool) (new_url : list N),
        normalize_url url kf = Ok new_url →
        ∃ p sq,
          UrlParse.urlparse (Py.strip Py.isspace url) = Ok p
          ∧ sorted_query (UrlParse.query p) = Ok sq
          ∧ new_url =
              let whole :=
                Py.lower
                  (UrlParse.geturl
                     (UrlParse.mkParse (UrlParse.scheme p) (UrlParse.netloc p)
                        (Py.rstrip (N.eqb (chr "/")) (UrlParse.path p))
                        (UrlParse.params p) sq (UrlParse.fragment p))) in
              if negb kf then hd [] (Py.split (chr "#") whole) else whole)
  ∧ (∀ (url : list N) (n : nat) (kf : bool),
        chr "?" ∉ url → chr "#" ∉ url → chr ";" ∉ url →
        Py.rstrip Py.isspace url = url →
        normalize_url (url ++ replicate n (chr "/")) kf = normalize_url url kf)
  ∧ (∀ (base : list N) (n : nat) (d : N) (r : list N) (kf : bool),
        chr "?" ∉ base → chr "#" ∉ base → chr ";" ∉ base →
        d = chr "?" ∨ d = chr "#" → Forall (fun c => printable c = true) r →
        normalize_url (base ++ replicate n (chr "/") ++ d :: r) kf
        = normalize_url (base ++ d :: r) kf).
Proof.
  split; [|split; [|split]].
  - apply rstrip_slashes_spec.
  - intros url kf new_url. apply normalize_url_unfold.
  - intros url n kf. apply normalize_url_slashes, slashes_replicate.
  - intros base n d r kf. apply normalize_url_slashes_tail, slashes_replicate.
Qed.
End PathTail.

Section PathTailExamples.
#[local] Existing Instance ascii_runtime.

Lemma trailing_slashes_all_removed_witness :
  normalize_url (py "http://x.com/path" ++ replicate 2 (chr "/") ++ chr "?" :: py "a=1")
    false
  = normalize_url (py "http://x.com/path" ++ chr "?" :: py "a=1") false.
Proof.
  apply (proj2 (proj2 (proj2 trailing_slashes_all_removed))
           (py "http://x.com/path") 2%nat (chr "?") (py "a=1") false).
  - apply contains_false. vm_compute. reflexivity.
  - apply contains_false. vm_compute. reflexivity.
  - apply contains_false. vm_compute. reflexivity.
  - by left.
  - apply Forall_forall. intros c Hc. vm_compute in Hc.
    repeat (apply elem_of_cons in Hc as [-> | Hc]; [by vm_compute|]).
    by apply elem_of_nil in Hc.
Defined.

Example slashes_before_a_query :
  normalize_url (py "http://x.com/path//?a=1") false = Ok (py "http://x.com/path?a=1").
Proof. vm_compute. reflexivity. Qed.
End PathTailExamples.

(** ** The query in the result of [normalize_url] *)

Section RebuiltQuery.
Context `{Runtime}.

(** C7 (as amended).  [normalize_url] puts in the place of the query of
    the parsed url the query it rebuilds, and lower-cases the whole url
    afterwards.  The rebuilt query is made from the pairs that
    [parse_qsl] returns, none with an empty value: it holds for each key
    its last value, except the keys that start with "utm_"; the pairs are
    sorted by key, in code point order, which is the byte-wise
    lexicographic order of the encoded keys; and they are written as
    [key=value] joined by '&', each key and value percent-encoded. *)
Theorem query_rebuilt_from_last_values_sorted (url : list N) (kf : bool) :
  normalize_url url kf
  = (p ← UrlParse.urlparse (Py.strip Py.isspace url);
     l ← result_mapM (fun '(k, v) =>
                        k' ← percent_encode k; v' ← percent_encode v;
                        Ok (k' ++ py "=" ++ v'))
                     (sorted_pairs (UrlParse.query p));
     Ok (rebuilt_url p (Py.join (py "&") l) kf))
  ∧ ∀ query : list N,
      let pairs := UrlParse.parse_qsl query in
      let kept := sorted_pairs query in
      (∀ k v, (k, v) ∈ pairs → v ≠ [])
      ∧ (∀ k v, (k, v) ∈ kept
                ↔ last_value pairs k = Some v ∧ Py.startswith (py "utm_") k = false)
      ∧ StronglySorted str_lt kept.*1
      ∧ (∀ q, sorted_query query = Ok q →
              ∃ encoded_keys,
                Forall2 (fun k ek => Utf8.encode k = Ok ek) kept.*1 encoded_keys
                ∧ StronglySorted bytes_lt encoded_keys)
      ∧ sorted_query query
        = (l ← result_mapM (fun '(k, v) =>
                              k' ← percent_encode k; v' ← percent_encode v;
                              Ok (k' ++ py "=" ++ v'))
                           kept;
           Ok (Py.join (py "&") l)).
Proof.
  split.
  - rewrite normalize_url_rebuilt.
    destruct (UrlParse.urlparse _) as [p|]; cbn [mbind result_bind]; [|done].
    unfold sorted_query. rewrite urlencode_percent_encode.
    by destruct (result_mapM _ _).
  - intros query. cbv zeta. split; [|split; [|split; [|split]]].
    + intros k v. apply parse_qsl_values_nonempty.
    + intros k v. by rewrite sorted_pairs_elem_of, search_params_lookup.
    + apply sorted_pairs_strictly_sorted.
    + intros q Hq. destruct (urlencode_keys_encodable _ _ Hq) as [eks Heks].
      exists eks. split; [done|].
      eapply StronglySorted_encoded; [exact Heks|].
      apply sorted_pairs_strictly_sorted.
    + apply urlencode_percent_encode.
Qed.
End RebuiltQuery.

Section RebuiltQueryExamples.
#[local] Existing Instance ascii_runtime.

(** C7 as stated fails.  The last occurrence of a key is not kept when
    its value is empty: an earlier one is.  And the pairs of the result
    are not sorted by key, nor written with the standard escapes: they are
    lower-cased after the sort. *)
Lemma rebuilt_query_lower_cased_after_sort :
  normalize_url (py "http://x.com/?a=1&a=") false = Ok (py "http://x.com?a=1")
  ∧ normalize_url (py "http://x.com/?a=1&B=2") false = Ok (py "http://x.com?b=2&a=1")
  ∧ str_lt (py "a") (py "b")
  ∧ normalize_url (py "http://x.com/?c=%2F") false = Ok (py "http://x.com?c=%2f").
Proof.
  split; [vm_compute; reflexivity|]. split; [vm_compute; reflexivity|].
  split; [|vm_compute; reflexivity].
  split; [exact I | discriminate].
Qed.

Lemma query_rebuilt_from_last_values_sorted_witness :
  normalize_url (py "http://x.com/?b=2&utm_source=x&a=1&b=3&d=") false
  = Ok (py "http://x.com?a=1&b=3")
  ∧ ∃ encoded_keys,
      Forall2 (fun k ek => Utf8.encode k = Ok ek)
              (sorted_pairs (py "b=2&utm_source=x&a=1&b=3")).*1 encoded_keys
      ∧ StronglySorted bytes_lt encoded_keys.
Proof.
  split.
  - rewrite (proj1 (query_rebuilt_from_last_values_sorted
                      (py "http://x.com/?b=2&utm_source=x&a=1&b=3&d=") false)).
    vm_compute. reflexivity.
  - apply (proj1 (proj2 (proj2 (proj2
             (proj2 (query_rebuilt_from_last_values_sorted [] false)
                (py "b=2&utm_source=x&a=1&b=3")))))
             (py "a=1&b=3")).
    vm_compute. reflexivity.
Defined.
End RebuiltQueryExamples.

(** ** Case of scheme and host, order of the query *)

Lemma scheme_chars_absent (c : N) (sch : list N) :
  Py.contains c UrlParse.scheme_chars = false →
  Forall (fun x => Py.contains x UrlParse.scheme_chars = true) sch → c ∉ sch.
Proof.
  intros Hc Hs Hin. rewrite Forall_forall in Hs. apply Hs in Hin. congruence.
Qed.

Section CaseAndOrder.
Context `{Runtime}.

(** The text [scheme://authority/path], parsed. *)
Lemma urlparse_text (sch n pa : list N) :
  Py.is_alpha_ascii (hd 0 sch) = true →
  Forall (fun c => Py.contains c UrlParse.scheme_chars = true) sch →
  Forall (fun c => plain_netloc_char c = true) n →
  rooted pa → Forall (fun c => plain_path_char c = true) pa →
  UrlParse.urlparse (Py.lstrip Py.isspace (sch ++ py "://" ++ n ++ pa))
  = Ok (UrlParse.mkParse (Py.lower sch) n pa [] [] []).
Proof.
  intros Hhd Hsch Hn Hroot Hpa.
  assert (Hpr : Forall (fun c => printable c = true) (sch ++ py "://" ++ n ++ pa)).
  { apply Forall_app. split.
    - eapply Forall_impl; [exact Hsch|]. intros c Hc. by apply scheme_char_facts.
    - apply Forall_app. split; [by repeat constructor|].
      apply Forall_app. split.
      + eapply Forall_impl; [exact Hn|]. intros c Hc.
        by apply plain_netloc_char_facts.
      + eapply Forall_impl; [exact Hpa|]. intros c Hc.
        by apply plain_path_char_facts. }
  rewrite lstrip_none.
  2:{ eapply Forall_impl; [exact Hpr|]. intros c Hc. by apply printable_facts. }
  unfold UrlParse.urlparse.
  rewrite urlsplit_eq, (url_clean_printable _ Hpr).
  change (py "://" ++ n ++ pa) with (chr ":" :: chr "/" :: chr "/" :: (n ++ pa)).
  rewrite (split_scheme_prefix _ _ Hhd Hsch).
  pose proof (split_authority_assemble n pa [] [] Hn Hroot Hpa) as Ha.
  cbn [truthy] in Ha. rewrite !app_nil_r in Ha. rewrite Ha.
  cbn [mbind result_bind].
  rewrite (cut_absent (chr "#") pa).
  2:{ eapply Forall_absent; [exact Hpa|]. intros Hc.
      apply plain_path_char_facts in Hc. tauto. }
  rewrite (cut_absent (chr "?") pa).
  2:{ eapply Forall_absent; [exact Hpa|]. intros Hc.
      apply plain_path_char_facts in Hc. tauto. }
  rewrite (checknetloc_plain n Hn). cbn [mbind result_bind].
  assert (Py.contains (chr ";") pa = false) as ->.
  { apply contains_false. eapply Forall_absent; [exact Hpa|]. intros Hc.
    apply plain_path_char_facts in Hc. tauto. }
  by rewrite andb_false_r.
Qed.

(** The result on [scheme://authority/path?query]. *)
Lemma normalize_url_text (sch n pa q : list N) (kf : bool) :
  Py.is_alpha_ascii (hd 0 sch) = true →
  Forall (fun c => Py.contains c UrlParse.scheme_chars = true) sch →
  n ≠ [] → Forall (fun c => plain_netloc_char c = true) n →
  rooted pa → Forall (fun c => plain_path_char c = true) pa →
  plain_query q →
  normalize_url (sch ++ py "://" ++ n ++ pa ++ py "?" ++ q) kf
  = (sq ← sorted_query q;
     Ok (assemble (Py.lower_ascii <$> sch) (Py.lower_ascii <$> n)
           (Py.lower_ascii <$> Py.rstrip (N.eqb (chr "/")) pa)
           (Py.lower_ascii <$> sq) [])).
Proof.
  intros Hhd Hsch Hne Hn Hroot Hpa Hq.
  replace (sch ++ py "://" ++ n ++ pa ++ py "?" ++ q)
    with ((sch ++ py "://" ++ n ++ pa) ++ chr "?" :: q)
    by (by rewrite <- !app_assoc).
  assert (Habs : ∀ c, Py.contains c UrlParse.scheme_chars = false →
                      Py.contains c (py "://") = false →
                      plain_netloc_char c = false → plain_path_char c = false →
                      c ∉ sch ++ py "://" ++ n ++ pa).
  { intros c H1 H2 H3 H4. rewrite !not_elem_of_app. split; [|split; [|split]].
    - by eapply scheme_chars_absent.
    - by apply contains_false.
    - eapply Forall_absent; [exact Hn|]. cbv beta. congruence.
    - eapply Forall_absent; [exact Hpa|]. cbv beta. congruence. }
  rewrite normalize_url_query; [| by apply Habs | by apply Habs | done].
  rewrite (urlparse_text _ _ _ Hhd Hsch Hn Hroot Hpa). cbn [mbind result_bind].
  destruct (sorted_query q) as [sq|] eqn:Esq; cbn [mbind result_bind]; [|done].
  f_equal. unfold rebuilt_url.
  cbn [UrlParse.scheme UrlParse.netloc UrlParse.path UrlParse.params
       UrlParse.fragment].
  set (pa' := Py.rstrip (N.eqb (chr "/")) pa).
  assert (Hpa'p : pa' `prefix_of` pa) by apply rstrip_prefix.
  assert (Hroot' : rooted pa') by by eapply rooted_prefix.
  assert (Hsa : ascii_text sch).
  { eapply Forall_impl; [exact Hsch|]. intros c Hc.
    apply printable_lt. by apply scheme_char_facts. }
  rewrite (geturl_assemble _ _ _ _ _ Hne Hroot').
  rewrite (lower_ascii_text sch Hsa).
  rewrite lower_ascii_text.
  2:{ unfold assemble. apply urlencode_ascii in Esq.
      assert (ascii_text n).
      { eapply Forall_impl; [exact Hn|]. apply plain_netloc_char_lt. }
      assert (ascii_text pa').
      { eapply Forall_prefix; [exact Hpa'p|].
        eapply Forall_impl; [exact Hpa|]. apply plain_path_char_lt. }
      assert (ascii_text (Py.lower_ascii <$> sch)).
      { apply Forall_fmap. eapply Forall_impl; [exact Hsa|]. apply lower_ascii_lt. }
      unfold ascii_text in *. ascii_text_tac. }
  rewrite lower_assemble, lower_fmap_idemp. cbn [negb].
  destruct kf; cbn [negb]; [done|].
  apply assemble_cut_fragment.
  - apply lower_fmap_no_hash. by eapply scheme_chars_absent.
  - apply lower_fmap_no_hash. eapply Forall_absent; [exact Hn|]. intros Hc.
    apply plain_netloc_char_facts in Hc. tauto.
  - apply lower_fmap_no_hash.
    eapply Forall_absent; [eapply Forall_prefix; [exact Hpa'p | exact Hpa]|].
    intros Hc. apply plain_path_char_facts in Hc. tauto.
  - apply lower_fmap_no_hash. by eapply urlencode_no_hash.
Qed.

(** C8 (as amended).  [normalize_url] sends to the same string two urls
    [scheme://host/path?query] in printable ASCII that differ in the case
    of the letters of scheme and host and in the order of the '&'-separated
    segments of the query, when no decoded key of the query occurs twice;
    so it does "HTTP://Example.com/?b=2&a=1" and
    "http://example.com/?a=1&b=2".  The whole result is in lower case,
    path and query included: for an ASCII url no upper-case letter is left
    anywhere in it. *)
Theorem normalize_url_case_and_order :
  normalize_url (py "HTTP://Example.com/?b=2&a=1") false
  = normalize_url (py "http://example.com/?a=1&b=2") false
  ∧ normalize_url (py "HTTP://Example.com/?b=2&a=1") false
    = Ok (py "http://example.com?a=1&b=2")
  ∧ (∀ (url : list N) (kf : bool) (new_url : list N),
       ascii_text url → normalize_url url kf = Ok new_url →
       Forall (fun c => c < 128 ∧ Py.is_upper_ascii c = false) new_url)
  ∧ (∀ (sch sch' n n' pa : list N) (segs segs' : list (list N)) (kf : bool),
       Py.is_alpha_ascii (hd 0 sch) = true →
       Forall (fun c => Py.contains c UrlParse.scheme_chars = true) sch →
       Py.is_alpha_ascii (hd 0 sch') = true →
       Forall (fun c => Py.contains c UrlParse.scheme_chars = true) sch' →
       Py.lower_ascii <$> sch = Py.lower_ascii <$> sch' →
       n ≠ [] →
       Forall (fun c => plain_netloc_char c = true) n →
       Forall (fun c => plain_netloc_char c = true) n' →
       Py.lower_ascii <$> n = Py.lower_ascii <$> n' →
       rooted pa → Forall (fun c => plain_path_char c = true) pa →
       Forall plain_query segs → segs ≡ₚ segs' →
       NoDup (flat_map UrlParse.parse_qsl segs).*1 →
       normalize_url (sch ++ py "://" ++ n ++ pa ++ py "?" ++ Py.join (py "&") segs) kf
       = normalize_url
           (sch' ++ py "://" ++ n' ++ pa ++ py "?" ++ Py.join (py "&") segs') kf).
Proof.
  split; [|split; [|split]].
  - vm_compute. reflexivity.
  - vm_compute. reflexivity.
  - apply normalize_url_ascii_lower.
  - intros sch sch' n n' pa segs segs' kf
      Hhd Hsch Hhd' Hsch' Hs Hne Hn Hn' Hnn Hroot Hpa Hsegs Hperm Hnd.
    assert (Hne' : n' ≠ []).
    { intros ->. destruct n; [done | discriminate Hnn]. }
    rewrite !normalize_url_text; try done.
    + by rewrite (sorted_query_permuted _ _ Hperm Hnd), Hs, Hnn.
    + apply plain_query_join. by rewrite <- Hperm.
    + by apply plain_query_join.
Qed.
End CaseAndOrder.

Section CaseAndOrderExamples.
#[local] Existing Instance ascii_runtime.

(** C8 as stated fails: two urls that differ in the order of their query
    parameters only, of which both have the same key, have different
    results. *)
Lemma order_of_a_repeated_key_matters :
  normalize_url (py "http://x.com/?a=1&a=2") false = Ok (py "http://x.com?a=2")
  ∧ normalize_url (py "http://x.com/?a=2&a=1") false = Ok (py "http://x.com?a=1")
  ∧ py "http://x.com?a=2" ≠ py "http://x.com?a=1".
Proof.
  split; [vm_compute; reflexivity|].
  split; [vm_compute; reflexivity | vm_compute; discriminate].
Qed.

Lemma normalize_url_case_and_order_witness :
  normalize_url
    (py "HTTP" ++ py "://" ++ py "Example.com" ++ py "/" ++ py "?"
       ++ Py.join (py "&") [py "b=2"; py "a=1"]) false
  = normalize_url
      (py "http" ++ py "://" ++ py "example.com" ++ py "/" ++ py "?"
         ++ Py.join (py "&") [py "a=1"; py "b=2"]) false.
Proof.
  apply (proj2 (proj2 (proj2 normalize_url_case_and_order))
           (py "HTTP") (py "http") (py "Example.com") (py "example.com") (py "/")
           [py "b=2"; py "a=1"] [py "a=1"; py "b=2"] false).
  - vm_compute. reflexivity.
  - apply Forall_forall. intros c Hc. vm_compute in Hc.
    repeat (apply elem_of_cons in Hc as [-> | Hc]; [by vm_compute|]).
    by apply elem_of_nil in Hc.
  - vm_compute. reflexivity.
  - apply Forall_forall. intros c Hc. vm_compute in Hc.
    repeat (apply elem_of_cons in Hc as [-> | Hc]; [by vm_compute|]).
    by apply elem_of_nil in Hc.
  - vm_compute. reflexivity.
  - discriminate.
  - apply Forall_forall. intros c Hc. vm_compute in Hc.
    repeat (apply elem_of_cons in Hc as [-> | Hc]; [by vm_compute|]).
    by apply elem_of_nil in Hc.
  - apply Forall_forall. intros c Hc. vm_compute in Hc.
    repeat (apply elem_of_cons in Hc as [-> | Hc]; [by vm_compute|]).
    by apply elem_of_nil in Hc.
  - vm_compute. reflexivity.
  - right. by exists [].
  - apply Forall_forall. intros c Hc. vm_compute in Hc.
    repeat (apply elem_of_cons in Hc as [-> | Hc]; [by vm_compute|]).
    by apply elem_of_nil in Hc.
  - apply plain_queries_check. vm_compute. reflexivity.
  - apply perm_swap.
  - apply (bool_decide_unpack _). vm_compute. exact I.
Defined.
End CaseAndOrderExamples.
